(** * Smart-city platform: identity & access layer, Granite gateway and
      routes

    A shallow embedding of
    - [app/services/granite_llm.py]  (class [GraniteLLM]),
    - [app/services/auth_service.py] (class [AuthService]),
    - [app/api/dependencies.py]      ([get_current_user], [require_role],
      [require_any_role]),
    - [app/api/auth_router.py]       ([login]),
    - the routes of [app/api/eco_tips_router.py],
      [app/api/policy_router.py], [app/api/announcement_router.py],
      [app/api/chat_router.py] and [app/api/feedback_router.py],
    followed by the properties established for them. *)

From Stdlib Require Import ZArith Lia Ascii String.
From stdpp Require Import base decidable option list gmap strings pretty fin_maps sorting.

Local Open Scope Z_scope.

(** ** Python built-ins used by the sources *)

Module Py.

(** Truth value of a [str]: only the empty string is falsy. *)
Definition str_truthy (s : string) : bool := negb (String.eqb s "").

(** Truth value of an [Optional[str]]: [None] and [""] are falsy. *)
Definition truthy (o : option string) : bool :=
  match o with
  | Some s => str_truthy s
  | None => false
  end.

(** [x or d] for [x : Optional[str]] and [d : str]. *)
Definition or_str (o : option string) (d : string) : string :=
  match o with
  | Some s => if str_truthy s then s else d
  | None => d
  end.

(** [str(x)] for [x : Optional[str]]. *)
Definition str_of (o : option string) : string :=
  match o with
  | Some s => s
  | None => "None"
  end.

(** A [str] is held as its UTF-8 encoding: one byte per ASCII
    character, two to four bytes per other code point. *)
Definition encoded (codes : list nat) : string :=
  foldr (λ n s, String (ascii_of_nat n) s) EmptyString codes.

(** The code points for which [str.isspace] holds, which are the ones
    [str.strip()] removes: U+0009 to U+000D, U+001C to U+0020, U+0085,
    U+00A0, U+1680, U+2000 to U+200A, U+2028, U+2029, U+202F, U+205F
    and U+3000. *)
Definition whitespace : list string :=
  encoded <$>
    [ [9]; [10]; [11]; [12]; [13]; [28]; [29]; [30]; [31]; [32];
      [194; 133]; [194; 160]; [225; 154; 128];
      [226; 128; 128]; [226; 128; 129]; [226; 128; 130]; [226; 128; 131];
      [226; 128; 132]; [226; 128; 133]; [226; 128; 134]; [226; 128; 135];
      [226; 128; 136]; [226; 128; 137]; [226; 128; 138];
      [226; 128; 168]; [226; 128; 169]; [226; 128; 175];
      [226; 129; 159]; [227; 128; 128] ]%nat.

Fixpoint drop_bytes (n : nat) (s : string) : string :=
  match n, s with
  | S n', String _ t => drop_bytes n' t
  | _, _ => s
  end.

(** The rest of [s] after the first of [marks] that [s] starts with. *)
Fixpoint after_mark (marks : list string) (s : string) : option string :=
  match marks with
  | [] => None
  | mark :: rest =>
      if String.prefix mark s then Some (drop_bytes (String.length mark) s)
      else after_mark rest s
  end.

Fixpoint lstrip_go (marks : list string) (bound : nat) (s : string) : string :=
  match bound with
  | O => s
  | S bound' =>
      match after_mark marks s with
      | Some t => lstrip_go marks bound' t
      | None => s
      end
  end.

(** Drops the members of [marks] that [s] starts with, one after the
    other. *)
Definition lstrip_of (marks : list string) (s : string) : string :=
  lstrip_go marks (String.length s) s.

(** [s.lstrip()] and [s.rstrip()] *)
Definition lstrip (s : string) : string := lstrip_of whitespace s.

Definition rstrip (s : string) : string :=
  String.rev (lstrip_of (String.rev <$> whitespace) (String.rev s)).

(** [s.strip()] *)
Definition strip (s : string) : string := rstrip (lstrip s).

(** [len(s)]: the number of code points, which is the number of bytes
    that do not continue a character. *)
Definition continues (c : ascii) : bool :=
  let n := nat_of_ascii c in ((128 <=? n) && (n <? 192))%nat.

Fixpoint len (s : string) : nat :=
  match s with
  | String c t => ((if continues c then 0 else 1) + len t)%nat
  | EmptyString => 0%nat
  end.

(** Drops the longest suffix all of whose characters satisfy [p]. *)
Fixpoint rstrip_with (p : ascii -> bool) (s : string) : string :=
  match s with
  | String c t =>
      match rstrip_with p t with
      | EmptyString => if p c then EmptyString else String c EmptyString
      | t' => String c t'
      end
  | EmptyString => EmptyString
  end.

(** [s.rstrip("/")] *)
Definition rstrip_slash (s : string) : string :=
  rstrip_with (Ascii.eqb "/"%char) s.

(** [needle in hay] on strings. *)
Fixpoint contains (needle hay : string) : bool :=
  String.prefix needle hay ||
  match hay with
  | String _ t => contains needle t
  | EmptyString => false
  end.

Definition nl : string := String (ascii_of_nat 10) EmptyString.
Definition dq : string := String (ascii_of_nat 34) EmptyString.

(** Values found in the dictionaries the identity layer handles: strings,
    integers, [datetime] objects (microseconds since the epoch) and
    [None] (JSON [null]). *)
Inductive value :=
| VStr (s : string)
| VInt (n : Z)
| VDatetime (us : Z)
| VNull.

#[global] Instance value_eq_dec : EqDecision value.
Proof. solve_decision. Defined.

(** Truth value of [d.get(k)]. *)
Definition value_truthy (v : option value) : bool :=
  match v with
  | Some (VStr s) => str_truthy s
  | Some (VInt n) => negb (n =? 0)
  | Some (VDatetime _) => true
  | Some VNull | None => false
  end.

(** [timedelta(minutes=m)], in microseconds. *)
Definition timedelta_minutes (m : Z) : Z := m * 60000000.

(** Truth value of an [Optional[timedelta]]: [None] and the zero
    duration are falsy. *)
Definition delta_truthy (d : option Z) : bool :=
  match d with
  | Some us => negb (us =? 0)
  | None => false
  end.

(** [d or dflt] for [d : Optional[timedelta]]. *)
Definition or_delta (d : option Z) (dflt : Z) : Z :=
  if delta_truthy d then default 0 d else dflt.

(** The instants a [datetime] can hold, from year 1 to year 9999, and
    the durations a [timedelta] can hold, up to 999999999 days either
    way; arithmetic that leaves them raises [OverflowError]. *)
Definition datetime_ok (us : Z) : bool :=
  (-62135596800000000 <=? us) && (us <=? 253402300799999999).

Definition timedelta_ok (us : Z) : bool :=
  (-86399999913600000000 <=? us) && (us <=? 86399999999999999999).

(** The exceptions that occur in the sources.  [JWTError] is the base
    class of [ExpiredSignatureError] and [JWTClaimsError]; [ValueError]
    stands for itself and for the subclasses the password library
    raises. *)
Inductive exn :=
| JWTError (message : string)
| ExpiredSignatureError
| JWTClaimsError (message : string)
| TypeError
| ValueError (message : string)
| OverflowError
| UnicodeEncodeError
| OperationalError
| HTTPException (status_code : Z) (detail : string).

#[global] Instance exn_eq_dec : EqDecision exn.
Proof. solve_decision. Defined.

(** [isinstance(e, JWTError)] *)
Definition is_JWTError (e : exn) : bool :=
  match e with
  | JWTError _ | ExpiredSignatureError | JWTClaimsError _ => true
  | _ => false
  end.

(** [isinstance(e, HTTPException)] *)
Definition is_HTTPException (e : exn) : bool :=
  match e with
  | HTTPException _ _ => true
  | _ => false
  end.

Inductive result (A : Type) :=
| Ok (a : A)
| Raise (e : exn).
Arguments Ok {A}.
Arguments Raise {A}.

(** [int(s)] restricted to plain decimal numerals with an optional
    sign; [None] stands for [ValueError]. *)
Definition digit (c : ascii) : option Z :=
  let n := nat_of_ascii c in
  if ((48 <=? n) && (n <=? 57))%nat then Some (Z.of_nat n - 48) else None.

Fixpoint decimal_go (acc : Z) (s : string) : option Z :=
  match s with
  | EmptyString => Some acc
  | String c t =>
      match digit c with
      | Some d => decimal_go (10 * acc + d) t
      | None => None
      end
  end.

Definition decimal (s : string) : option Z :=
  match s with
  | EmptyString => None
  | String "-" (String _ _ as t) => Z.opp <$> decimal_go 0 t
  | String "+" (String _ _ as t) => decimal_go 0 t
  | _ => decimal_go 0 s
  end.

End Py.

(** ** The Granite gateway ([app/services/granite_llm.py]) *)

Module Granite.

Definition DEFAULT_MODEL_ID : string := "ibm/granite-3-8b-instruct".

Definition FALLBACK_MODEL_ORDER : list string :=
  [ "ibm/granite-3-8b-instruct";
    "ibm/granite-3-3-8b-instruct";
    "ibm/granite-3-2-8b-instruct";
    "ibm/granite-3-2b-instruct" ].

Definition FOUNDATION_MODELS_VERSION : string := "2024-05-01".

(** The fields of [app.core.config.settings] read by the gateway. *)
Record Settings := {
  watsonx_api_key : option string;
  watsonx_project_id : option string;
  watsonx_url : option string;
  watsonx_model_id : option string
}.

(** The instance attributes of [GraniteLLM]. *)
Record GraniteLLM := {
  api_key : string;
  project_id : string;
  url : string;
  model_id : string;
  token : option string;
  available_models : gset string
}.

Definition with_model_id (m : string) (g : GraniteLLM) : GraniteLLM :=
  {| api_key := api_key g; project_id := project_id g; url := url g;
     model_id := m; token := token g;
     available_models := available_models g |}.

Definition with_available_models (a : gset string) (g : GraniteLLM)
  : GraniteLLM :=
  {| api_key := api_key g; project_id := project_id g; url := url g;
     model_id := model_id g; token := token g;
     available_models := a |}.

(** *** The remote provider

    Every outbound [requests] call is answered by the outside world.
    What the gateway can observe of an answer is listed below; an
    exception raised by [requests] or while reading the JSON body is
    the [..Error] constructor of each reply. *)

(** Answer to the IAM call: the body's ["access_token"], if any. *)
Inductive iam_reply :=
| IamJson (access_token : option string)
| IamError.

(** Answer to the catalog call: for each entry of ["resources"], its
    ["model_id"] when the entry is a dict that has one. *)
Inductive catalog_reply :=
| CatalogJson (resources : list (option string))
| CatalogError.

(** Answer to the generation call.  [GenJson results] is a 2xx answer
    whose body has [results] under ["results"] ([None] when the key is
    absent), each entry given by its ["generated_text"];
    [GenHTTPError] is what [raise_for_status] raises. *)
Inductive gen_reply :=
| GenJson (results : option (list (option string)))
| GenHTTPError (status_code : Z) (text : string)
| GenError.

(** The JSON payload of a generation call.  The decoding parameters
    other than [max_new_tokens] are constants of the source. *)
Record gen_payload := {
  p_model_id : string;
  p_input : string;
  p_project_id : string;
  p_max_new_tokens : Z
}.

(** A provider is a state machine over some world [W]. *)
Record remote (W : Type) := {
  post_identity_token : string -> W -> iam_reply * W;
  get_foundation_model_specs : string -> string -> W -> catalog_reply * W;
  post_generation_text :
    string -> string -> gen_payload -> W -> gen_reply * W
}.
Arguments post_identity_token {W}.
Arguments get_foundation_model_specs {W}.
Arguments post_generation_text {W}.

(** Outbound calls, logged in the order they are issued. *)
Inductive call :=
| CallToken
| CallCatalog
| CallGenerate (model : string).

#[global] Instance call_eq_dec : EqDecision call.
Proof. solve_decision. Defined.

(** The gateway object, the world it talks to and the log of calls. *)
Record sys (W : Type) := {
  self : GraniteLLM;
  net : W;
  calls : list call
}.
Arguments self {W}.
Arguments net {W}.
Arguments calls {W}.

(** A call either returns or lets an exception escape to its caller. *)
Inductive outcome (A : Type) :=
| Returned (a : A)
| Escaped (e : Py.exn).
Arguments Returned {A}.
Arguments Escaped {A}.

Definition is_generate (c : call) : bool :=
  match c with CallGenerate _ => true | _ => false end.

Definition is_catalog (c : call) : bool :=
  match c with CallCatalog => true | _ => false end.

Definition generations (l : list call) : nat := length (filter is_generate l).
Definition refreshes (l : list call) : nat := length (filter is_catalog l).

Section Gateway.

Context {W : Type} (R : remote W).

(** The fallback ranking; the source fixes it to
    [FALLBACK_MODEL_ORDER]. *)
Variable fallback_order : list string.

Definition bearer (g : GraniteLLM) : string :=
  "Bearer " +:+ Py.str_of (token g).

Definition _get_iam_token (key : string) (w : W) (log : list call)
  : option string * W * list call :=
  if negb (Py.str_truthy key) then (None, w, log)
  else
    let '(reply, w') := post_identity_token R key w in
    match reply with
    | IamJson t => (t, w', log ++ [CallToken])
    | IamError => (None, w', log ++ [CallToken])
    end.

(** The loop of [_load_available_models] over ["resources"]. *)
Definition supported_models (resources : list (option string))
  : gset string :=
  foldl (fun supported item =>
           match item with
           | Some m => if Py.str_truthy m then supported ∪ {[ m ]}
                       else supported
           | None => supported
           end) ∅ resources.

Definition _load_available_models (s : sys W) : gset string * sys W :=
  let '(reply, w') :=
    get_foundation_model_specs R (url (self s)) (bearer (self s)) (net s) in
  let s' := {| self := self s; net := w'; calls := calls s ++ [CallCatalog] |} in
  match reply with
  | CatalogJson resources => (supported_models resources, s')
  | CatalogError => (∅, s')
  end.

(** The [for candidate in FALLBACK_MODEL_ORDER] loop. *)
Fixpoint first_fallback (order : list string) (avail : gset string)
  : option string :=
  match order with
  | [] => None
  | candidate :: rest =>
      if decide (candidate ∈ avail) then Some candidate
      else first_fallback rest avail
  end.

Definition set_self (g : GraniteLLM) (s : sys W) : sys W :=
  {| self := g; net := net s; calls := calls s |}.

Definition _select_supported_model (force_refresh : bool) (s : sys W)
  : sys W :=
  if negb (Py.truthy (token (self s))) then s
  else
    let s1 :=
      if force_refresh then
        let '(models, s') := _load_available_models s in
        set_self (with_available_models models (self s')) s'
      else s in
    if decide (available_models (self s1) = ∅) then s1
    else if decide (model_id (self s1) ∈ available_models (self s1)) then s1
    else
      match first_fallback fallback_order (available_models (self s1)) with
      | Some candidate => set_self (with_model_id candidate (self s1)) s1
      | None => s1
      end.

(** [GraniteLLM.__init__] *)
Definition init (cfg : Settings) (w : W) : sys W :=
  let key := Py.or_str (watsonx_api_key cfg) "" in
  let pid := Py.or_str (watsonx_project_id cfg) "" in
  let u := if Py.truthy (watsonx_url cfg)
           then Py.rstrip_slash (Py.str_of (watsonx_url cfg))
           else "https://us-south.ml.cloud.ibm.com" in
  let mid := Py.strip (Py.or_str (watsonx_model_id cfg) DEFAULT_MODEL_ID) in
  let '(tok, w1, log1) := _get_iam_token key w [] in
  let g0 := {| api_key := key; project_id := pid; url := u;
               model_id := mid; token := tok; available_models := ∅ |} in
  let s0 := {| self := g0; net := w1; calls := log1 |} in
  let s1 :=
    if Py.truthy tok then
      let '(models, s') := _load_available_models s0 in
      set_self (with_available_models models (self s')) s'
    else s0 in
  _select_supported_model false s1.

(** [result.get("results", [{}])[0].get("generated_text", "")];
    an empty ["results"] list raises [IndexError], which the caller
    turns into [None]. *)
Definition generated_text (results : option (list (option string)))
  : option string :=
  match results with
  | None => Some ""
  | Some [] => None
  | Some (first :: _) => Some (default "" first)
  end.

Definition model_not_supported (status_code : Z) (text : string) : bool :=
  (status_code =? 404) && Py.contains "model_not_supported" text.

(** [_make_request].  [depth] is the number of frames of
    [_make_request] in which the interpreter's stack still has room for
    the calls made from the [try] block.  In a frame that has no such
    room [requests.post] exceeds the recursion limit: the
    [RecursionError] is raised inside the [try] block, [except
    Exception] catches it, and the call returns [None] without having
    reached the provider. *)
Fixpoint _make_request (depth : nat) (prompt : string) (max_tokens : Z)
  (s : sys W) : outcome (option string) * sys W :=
  match depth with
  | O => (Returned None, s)
  | S depth' =>
      if negb (Py.truthy (token (self s))) then (Returned None, s)
      else if negb (Py.str_truthy (project_id (self s))) then (Returned None, s)
      else
        let payload :=
          {| p_model_id := Py.or_str (Some (model_id (self s))) DEFAULT_MODEL_ID;
             p_input := prompt;
             p_project_id := project_id (self s);
             p_max_new_tokens := max_tokens |} in
        let '(reply, w') :=
          post_generation_text R (url (self s)) (bearer (self s)) payload (net s) in
        let s1 := {| self := self s; net := w';
                     calls := calls s ++ [CallGenerate (p_model_id payload)] |} in
        match reply with
        | GenJson results => (Returned (generated_text results), s1)
        | GenHTTPError status_code text =>
            if model_not_supported status_code text then
              let previous_model := model_id (self s1) in
              let s2 := _select_supported_model true s1 in
              if decide (model_id (self s2) ≠ previous_model)
              then _make_request depth' prompt max_tokens s2
              else (Returned None, s2)
            else (Returned None, s1)
        | GenError => (Returned None, s1)
        end
  end.

(** [response or fallback] *)
Definition or_fallback (r : outcome (option string) * sys W)
  (fallback : string) : outcome string * sys W :=
  match r with
  | (Returned response, s) => (Returned (Py.or_str response fallback), s)
  | (Escaped e, s) => (Escaped e, s)
  end.

Definition system_prompt : string :=
  "You are a helpful assistant for a smart city platform. " +:+ Py.nl +:+
  "        Provide informative, concise answers about urban sustainability, governance, and smart city technologies.".

Definition ask_fallback : string :=
  "I'm sorry, I couldn't process your request at the moment.".

Definition summary_fallback : string := "Unable to generate summary.".

Definition eco_tip_fallback (topic : string) : string :=
  "Here are some general tips for " +:+ topic +:+
  ": reduce consumption, reuse materials, and recycle properly.".

Definition ask_prompt (prompt : string) : string :=
  system_prompt +:+ Py.nl +:+ Py.nl +:+ "User: " +:+ prompt +:+ Py.nl
  +:+ "Assistant:".

Definition summary_prompt (text : string) : string :=
  "Summarize the following policy document in a clear, citizen-friendly format:"
  +:+ Py.nl +:+ Py.nl +:+ text +:+ Py.nl +:+ Py.nl +:+ "Summary:".

Definition eco_tip_prompt (topic : string) : string :=
  "Generate 3 practical, actionable eco-friendly tips related to "
  +:+ Py.dq +:+ topic +:+ Py.dq +:+ " for city residents:"
  +:+ Py.nl +:+ Py.nl +:+ "Tips:".

Definition ask_granite (depth : nat) (prompt : string) (s : sys W)
  : outcome string * sys W :=
  or_fallback (_make_request depth (ask_prompt prompt) 500 s) ask_fallback.

Definition generate_summary (depth : nat) (text : string) (s : sys W)
  : outcome string * sys W :=
  or_fallback (_make_request depth (summary_prompt text) 300 s)
    summary_fallback.

Definition generate_eco_tip (depth : nat) (topic : string) (s : sys W)
  : outcome string * sys W :=
  or_fallback (_make_request depth (eco_tip_prompt topic) 200 s)
    (eco_tip_fallback topic).

(** *** Notions used to state the gateway's properties *)

(** The choice the specification describes: the preferred identifier when
    it is available, otherwise the first available member of the
    ranking, otherwise the preferred identifier again. *)
Definition ranked_choice (ranking : list string) (avail : gset string)
  (preferred : string) : string :=
  if decide (preferred ∈ avail) then preferred
  else default preferred (head (filter (λ c, c ∈ avail) ranking)).

(** The identifier [__init__] starts from. *)
Definition configured_model (cfg : Settings) : string :=
  Py.strip (Py.or_str (watsonx_model_id cfg) DEFAULT_MODEL_ID).

(** The availability set a catalog answer yields. *)
Definition catalog_models (reply : catalog_reply) : gset string :=
  match reply with
  | CatalogJson resources => supported_models resources
  | CatalogError => ∅
  end.

(** The state right after the catalog was read again. *)
Definition refreshed (s : sys W) : sys W :=
  let reply :=
    get_foundation_model_specs R (url (self s)) (bearer (self s)) (net s) in
  {| self := with_available_models (catalog_models reply.1) (self s);
     net := reply.2; calls := calls s ++ [CallCatalog] |}.

(** The provider's answer to the generation call issued from [s]. *)
Definition request_of (s : sys W) (prompt : string) (max_tokens : Z)
  : gen_reply * W :=
  post_generation_text R (url (self s)) (bearer (self s))
    {| p_model_id := Py.or_str (Some (model_id (self s))) DEFAULT_MODEL_ID;
       p_input := prompt; p_project_id := project_id (self s);
       p_max_new_tokens := max_tokens |} (net s).

(** The state in which that answer is handled. *)
Definition requested (s : sys W) (w' : W) : sys W :=
  {| self := self s; net := w';
     calls := calls s ++
       [CallGenerate (Py.or_str (Some (model_id (self s))) DEFAULT_MODEL_ID)] |}.

(** A provider whose catalog answer never changes. *)
Definition steady_catalog (catalog : catalog_reply) : Prop :=
  ∀ u a w, (get_foundation_model_specs R u a w).1 = catalog.

(** How a wrapper's result [res] relates to the result [gen] of the
    generation call it delegates to: the call returned, and the wrapper
    returns its text when there is one and it is not empty, and the
    fallback otherwise. *)
Definition substitutes_fallback (gen : outcome (option string) * sys W)
  (fallback : string) (res : outcome string * sys W) : Prop :=
  res.2 = gen.2 ∧
  ∃ response text,
    gen.1 = Returned response
    ∧ res.1 = Returned text
    ∧ text ≠ ""
    ∧ text = match response with
             | Some generated =>
                 if Py.str_truthy generated then generated else fallback
             | None => fallback
             end.

End Gateway.

Arguments _get_iam_token {W} R key w log.
Arguments _load_available_models {W} R s.
Arguments _select_supported_model {W} R fallback_order force_refresh s.
Arguments init {W} R fallback_order cfg w.
Arguments _make_request {W} R fallback_order depth prompt max_tokens s.
Arguments ask_granite {W} R fallback_order depth prompt s.
Arguments generate_summary {W} R fallback_order depth text s.
Arguments generate_eco_tip {W} R fallback_order depth topic s.
Arguments refreshed {W} R s.
Arguments request_of {W} R s prompt max_tokens.
Arguments requested {W} s w'.
Arguments steady_catalog {W} R catalog.
Arguments substitutes_fallback {W} gen fallback res.

(** *** A scripted provider

    A provider that answers from three finite scripts, one per endpoint,
    and answers with a transport error once a script is exhausted. *)

Record script := {
  iam_script : list iam_reply;
  catalog_script : list catalog_reply;
  gen_script : list gen_reply
}.

Definition scripted : remote script :=
  {| post_identity_token := fun _ w =>
       match iam_script w with
       | r :: rest =>
           (r, {| iam_script := rest; catalog_script := catalog_script w;
                  gen_script := gen_script w |})
       | [] => (IamError, w)
       end;
     get_foundation_model_specs := fun _ _ w =>
       match catalog_script w with
       | r :: rest =>
           (r, {| iam_script := iam_script w; catalog_script := rest;
                  gen_script := gen_script w |})
       | [] => (CatalogError, w)
       end;
     post_generation_text := fun _ _ _ w =>
       match gen_script w with
       | r :: rest =>
           (r, {| iam_script := iam_script w; catalog_script := catalog_script w;
                  gen_script := rest |})
       | [] => (GenError, w)
       end |}.

(** A provider whose catalog never changes: every catalog call is
    answered with [catalog], generation calls follow a script. *)
Definition steady (catalog : catalog_reply) : remote (list gen_reply) :=
  {| post_identity_token := fun _ w => (IamJson (Some "iam-token"), w);
     get_foundation_model_specs := fun _ _ w => (catalog, w);
     post_generation_text := fun _ _ _ w =>
       match w with
       | r :: rest => (r, rest)
       | [] => (GenError, w)
       end |}.

Definition unsupported : gen_reply :=
  GenHTTPError 404 "{errors:[{code:model_not_supported}]}".

(** A gateway object that holds a credential. *)
Definition gateway (model : string) (avail : gset string) : GraniteLLM :=
  {| api_key := "key"; project_id := "project";
     url := "https://us-south.ml.cloud.ibm.com"; model_id := model;
     token := Some "iam-token"; available_models := avail |}.

(** A provider that first offers only the top-ranked model and then only
    the lowest-ranked one, rejecting the first two generation calls. *)
Definition shifting_catalog : script :=
  {| iam_script := [];
     catalog_script :=
       [ CatalogJson [Some "ibm/granite-3-8b-instruct"];
         CatalogJson [Some "ibm/granite-3-2b-instruct"] ];
     gen_script :=
       [ unsupported; unsupported; GenJson (Some [Some "hello"]) ] |}.

(** A start-up in which the configured model is missing from the catalog,
    and a later catalog that lists it. *)
Definition custom_settings : Settings :=
  {| watsonx_api_key := Some "key"; watsonx_project_id := Some "project";
     watsonx_url := None; watsonx_model_id := Some "custom/model" |}.

Definition late_catalog : script :=
  {| iam_script := [IamJson (Some "iam-token")];
     catalog_script :=
       [ CatalogJson [Some "ibm/granite-3-8b-instruct"];
         CatalogJson [Some "custom/model"; Some "ibm/granite-3-2b-instruct"] ];
     gen_script := [] |}.

(** A gateway that holds no credential, facing a provider that would
    answer. *)
Definition idle : sys (list gen_reply) :=
  {| self := {| api_key := ""; project_id := "project";
                url := "https://us-south.ml.cloud.ibm.com";
                model_id := DEFAULT_MODEL_ID; token := None;
                available_models := ∅ |};
     net := [GenJson (Some [Some "never asked"])]; calls := [] |}.

(** The fourth wrapper.  [kpi_json] is what [json.dumps(kpi_data,
    indent=2)] does for the caller's data: the text it returns, or the
    exception it raises ([TypeError] for data that cannot be
    serialised).  The prompt is built before the request is made, so
    that exception escapes the wrapper. *)
Definition report_prompt (city_name kpi_json : string) : string :=
  "Generate a comprehensive sustainability report for " +:+ city_name
  +:+ " based on the following KPI data:" +:+ Py.nl +:+ Py.nl +:+ kpi_json
  +:+ Py.nl +:+ Py.nl +:+ "Report:".

Definition report_fallback : string := "Unable to generate report.".

Definition generate_city_report {W : Type} (R : remote W)
  (fallback_order : list string) (depth : nat) (city_name : string)
  (kpi_json : Py.result string) (s : sys W) : outcome string * sys W :=
  match kpi_json with
  | Py.Ok text =>
      or_fallback
        (_make_request R fallback_order depth (report_prompt city_name text) 800 s)
        report_fallback
  | Py.Raise e => (Escaped e, s)
  end.

End Granite.

(** ** Signed tokens as the JOSE library handles them

    [jose.jwt] is a third-party library.  It is represented by what it
    does with a token: [encode] signs a claims dictionary; [decode]
    returns the claims of a token whose signature and registered claims
    verify, and otherwise raises [JWTError] (or one of its subclasses),
    or lets through the exception of a built-in it calls:
    [UnicodeEncodeError] from encoding the token string and [TypeError]
    from [int] applied to a claim that is neither a number nor a string.
    A token string is represented by what the library's parser makes of
    it. *)

Module Jose.

(** [Unencodable]: a string that has no UTF-8 encoding (it holds a lone
    surrogate).  [Malformed]: a string that does not parse as a compact
    token with a JSON object as header and as payload.  [Compact]: any
    other. *)
Inductive token :=
| Unencodable
| Malformed (raw : string)
| Compact (alg : string) (payload : gmap string Py.value) (signature : string).

(** [timegm(d.utctimetuple())]: whole seconds of a [datetime]. *)
Definition timegm (us : Z) : Z := us / 1000000.

Definition time_claims : list string := ["exp"; "iat"; "nbf"].

(** [encode] replaces a [datetime] under a time claim by its seconds. *)
Definition numeric_date (k : string) (v : Py.value) : Py.value :=
  match v with
  | Py.VDatetime us =>
      if bool_decide (k ∈ time_claims) then Py.VInt (timegm us) else v
  | _ => v
  end.

Definition json_value (v : Py.value) : Prop :=
  match v with
  | Py.VDatetime _ => False
  | _ => True
  end.

#[global] Instance json_value_dec v : Decision (json_value v).
Proof. destruct v; cbn; apply _. Defined.

(** A dictionary that [json.dumps] accepts. *)
Definition json_ready (claims : gmap string Py.value) : Prop :=
  map_Forall (λ _ v, json_value v) claims.

Section Library.

(** The keyed signature over header and payload. *)
Variable sign : string -> string -> gmap string Py.value -> string.

(** The library's checks of the registered claims other than ["exp"]
    (["iat"], ["nbf"], ["aud"], ["iss"], ["sub"], ["jti"], ["at_hash"])
    at the given time in seconds: whether they all pass, and what the
    library raises for a payload when they do not all pass:
    [JWTClaimsError] with a message, or ([None]) [TypeError]. *)
Variable registered_ok : Z -> gmap string Py.value -> bool.
Variable registered_error : Z -> gmap string Py.value -> option string.

(** The built-in [int] on strings. *)
Variable py_int : string -> option Z.

Definition encode (claims : gmap string Py.value) (key alg : string)
  : Py.result token :=
  let body := map_imap (λ k v, Some (numeric_date k v)) claims in
  if bool_decide (json_ready body)
  then Py.Ok (Compact alg body (sign key alg body))
  else Py.Raise Py.TypeError.

(** The expiry instant a payload carries: absent, a string that is no
    numeral ([int] raises [ValueError]), a value that is neither number
    nor string ([int] raises [TypeError]), or a number of seconds. *)
Inductive expiry :=
| NoExpiry
| BadExpiry
| CrashExpiry
| ExpiresAt (seconds : Z).

Definition expiry_of (payload : gmap string Py.value) : expiry :=
  match payload !! "exp" with
  | None => NoExpiry
  | Some (Py.VInt n) => ExpiresAt n
  | Some (Py.VStr s) =>
      match py_int s with
      | Some n => ExpiresAt n
      | None => BadExpiry
      end
  | Some (Py.VDatetime _) | Some Py.VNull => CrashExpiry
  end.

(** A payload that is not past its expiry at clock reading [now]. *)
Definition unexpired (now : Z) (payload : gmap string Py.value) : Prop :=
  match expiry_of payload with
  | NoExpiry => True
  | BadExpiry | CrashExpiry => False
  | ExpiresAt seconds => timegm now ≤ seconds
  end.

Definition registered_exn (now : Z) (payload : gmap string Py.value)
  : Py.exn :=
  match registered_error now payload with
  | Some message => Py.JWTClaimsError message
  | None => Py.TypeError
  end.

(** [decode] at clock reading [now] (microseconds).  When the other
    registered-claim checks do not all pass, what is raised is for the
    library to say (the failing checks run in its order); when they
    pass, the expiry check decides. *)
Definition decode (now : Z) (tok : token) (key : string)
  (algorithms : list string) : Py.result (gmap string Py.value) :=
  match tok with
  | Unencodable => Py.Raise Py.UnicodeEncodeError
  | Malformed _ => Py.Raise (Py.JWTError "Error decoding token headers.")
  | Compact alg payload signature =>
      if negb (bool_decide (alg ∈ algorithms))
      then Py.Raise (Py.JWTError "The specified alg value is not allowed")
      else if negb (String.eqb signature (sign key alg payload))
      then Py.Raise (Py.JWTError "Signature verification failed.")
      else if negb (registered_ok (timegm now) payload)
      then Py.Raise (registered_exn (timegm now) payload)
      else
        match expiry_of payload with
        | BadExpiry =>
            Py.Raise (Py.JWTClaimsError
                        "Expiration Time claim (exp) must be an integer.")
        | CrashExpiry => Py.Raise Py.TypeError
        | ExpiresAt seconds =>
            if seconds <? timegm now then Py.Raise Py.ExpiredSignatureError
            else Py.Ok payload
        | NoExpiry => Py.Ok payload
        end
  end.

End Library.

(** *** One concrete instance, used in scenarios *)

Definition render (v : Py.value) : string :=
  match v with
  | Py.VStr s => s
  | Py.VInt n => pretty n
  | Py.VDatetime us => pretty us
  | Py.VNull => "null"
  end.

(** A stand-in for the keyed signature: key, algorithm and payload
    written out in key order. *)
Definition plain_sign (key alg : string) (payload : gmap string Py.value)
  : string :=
  key +:+ "." +:+ alg +:+ "." +:+
  foldr (λ kv acc, kv.1 +:+ "=" +:+ render kv.2 +:+ ";" +:+ acc) ""
        (map_to_list payload).

(** The subject claim, when present, must be a string. *)
Definition subject_is_string (now : Z) (payload : gmap string Py.value)
  : bool :=
  match payload !! "sub" with
  | Some (Py.VStr _) | None => true
  | Some _ => false
  end.

Definition subject_message (now : Z) (payload : gmap string Py.value)
  : option string :=
  Some "Subject must be a string.".

End Jose.

(** ** Identity and access ([app/services/auth_service.py],
    [app/api/dependencies.py], the login route of
    [app/api/auth_router.py]) *)

Module Identity.

(** [app.models.UserType] *)
Inductive UserType :=
| USER
| AUTHORITY.

#[global] Instance UserType_eq_dec : EqDecision UserType.
Proof. solve_decision. Defined.

(** What [getattr(user, "user_type", None)] can be: a member of the
    enumeration, a bare string, or [None]. *)
Inductive role_attr :=
| RoleEnum (r : UserType)
| RoleStr (s : string)
| RoleNone.

#[global] Instance role_attr_eq_dec : EqDecision role_attr.
Proof. solve_decision. Defined.

(** What [getattr(user, "password_hash", None)] can be: a string,
    [None], or an object that is not a string. *)
Inductive hash_attr :=
| HashStr (s : string)
| HashNone
| HashOther.

#[global] Instance hash_attr_eq_dec : EqDecision hash_attr.
Proof. solve_decision. Defined.

(** A row of the [users] table ([app.models.User]), with the columns the
    identity layer reads or writes.  Instants are in microseconds. *)
Record User := {
  id : Z;
  name : string;
  phone_number : string;
  email : option string;
  password_hash : hash_attr;
  address : option string;
  position : option string;
  feedback_route : option string;
  user_type : role_attr;
  is_active : bool;
  is_approved : bool;
  last_login : option Z
}.

#[global] Instance User_eq_dec : EqDecision User.
Proof. solve_decision. Defined.

Definition with_last_login (t : Z) (u : User) : User :=
  {| id := id u; name := name u; phone_number := phone_number u;
     email := email u; password_hash := password_hash u;
     address := address u; position := position u;
     feedback_route := feedback_route u; user_type := user_type u;
     is_active := is_active u; is_approved := is_approved u;
     last_login := Some t |}.

Definition with_is_active (b : bool) (u : User) : User :=
  {| id := id u; name := name u; phone_number := phone_number u;
     email := email u; password_hash := password_hash u;
     address := address u; position := position u;
     feedback_route := feedback_route u; user_type := user_type u;
     is_active := b; is_approved := is_approved u;
     last_login := last_login u |}.

(** The store: the rows of [users] in storage order. *)
Abbreviation Session := (list User).

(** [db.query(User).filter(P).first()] *)
Definition first_where (P : User -> Prop) `{!∀ u, Decision (P u)}
  (db : Session) : option User :=
  snd <$> list_find P db.

(** Truth value of an [Optional[User]]. *)
Definition found (row : option User) : bool :=
  match row with
  | Some _ => true
  | None => false
  end.

(** The rows a query selects, each with its position in the store. *)
Definition select (P : User -> Prop) `{!∀ u, Decision (P u)}
  (db : Session) : list (nat * User) :=
  filter (λ entry, P entry.2) (imap pair db).

(** [.first()] on a query that has no [ORDER BY]: the database yields
    one of the selected rows, by a choice of its own, or [None] when
    there is none.  [pick] stands for that choice: the place, among the
    selected rows, of the one it yields. *)
Definition first (pick : list (nat * User) -> nat)
  (rows : list (nat * User)) : option (nat * User) :=
  rows !! (pick rows `mod` length rows)%nat.

(** [db.get(User, key)].  [key_ok] tells the integers the database
    driver can bind; for another one it raises [OverflowError], as the
    SQLite driver does.  The rows of the store carry keys the driver
    accepted when it stored them, so a key it refuses is the key of no
    row. *)
Definition db_get (key_ok : Z -> bool) (db : Session) (key : Z)
  : Py.result (option User) :=
  match first_where (λ u, id u = key) db with
  | Some user => Py.Ok (Some user)
  | None => if key_ok key then Py.Ok None else Py.Raise Py.OverflowError
  end.

(** The primary key the store assigns to a new row. *)
Definition next_id (db : Session) : Z := 1 + foldr Z.max 0 (id <$> db).

(** Clearing the active flag of a subject. *)
Definition deactivate (key : Z) (db : Session) : Session :=
  (λ u, if bool_decide (id u = key) then with_is_active false u else u) <$> db.

(** [User | dict]: the new row, or [{"error": message}]. *)
Inductive registration :=
| Registered (user : User)
| Conflict (error : string).

Definition forbidden : Py.exn :=
  Py.HTTPException 403 "Insufficient permissions".

Definition unauthorized (detail : string) : Py.exn :=
  Py.HTTPException 401 detail.

Section Service.

(** The JOSE library. *)
Variable sign : string -> string -> gmap string Py.value -> string.
Variable registered_ok : Z -> gmap string Py.value -> bool.
Variable registered_error : Z -> gmap string Py.value -> option string.
Variable py_int : string -> option Z.

(** [settings.effective_jwt_secret], [settings.jwt_algorithm] and
    [settings.jwt_expire_minutes]. *)
Variable SECRET_KEY : string.
Variable ALGORITHM : string.
Variable ACCESS_TOKEN_EXPIRE_MINUTES : Z.

(** [pwd_context.hash], with the salt it draws made explicit, and
    [pwd_context.verify].  Either can raise: the library refuses a
    password that holds a NUL byte and a stored string that is no hash
    of a scheme it knows. *)
Variable pwd_hash : string -> string -> Py.result string.
Variable pwd_verify : string -> string -> Py.result bool.

(** The [value] of each member of [UserType]. *)
Variable role_value : UserType -> string.

(** The database: its choice of a row for [.first()], the keys its
    driver can bind, and whether committing a content of the [users]
    table fails with [OperationalError]. *)
Variable pick : list (nat * User) -> nat.
Variable key_ok : Z -> bool.
Variable operational : Session -> bool.

(** [str(e)] *)
Variable str_exn : Py.exn -> string.

Definition verify_password (plain_password hashed_password : string)
  : Py.result bool :=
  pwd_verify plain_password hashed_password.

Definition get_password_hash (salt password : string) : Py.result string :=
  pwd_hash salt password.

(** [create_access_token] at clock reading [now]. *)
Definition create_access_token (now : Z) (data : gmap string Py.value)
  (expires_delta : option Z) : Py.result Jose.token :=
  let to_encode := data in
  if negb (Py.delta_truthy expires_delta)
     && negb (Py.timedelta_ok (Py.timedelta_minutes ACCESS_TOKEN_EXPIRE_MINUTES))
  then Py.Raise Py.OverflowError
  else
    let expire :=
      now + Py.or_delta expires_delta
              (Py.timedelta_minutes ACCESS_TOKEN_EXPIRE_MINUTES) in
    if negb (Py.datetime_ok expire) then Py.Raise Py.OverflowError
    else
      let to_encode := <[ "exp" := Py.VDatetime expire ]> to_encode in
      Jose.encode sign to_encode SECRET_KEY ALGORITHM.

(** [verify_token] at clock reading [now]. *)
Definition verify_token (now : Z) (token : Jose.token)
  : Py.result (option (gmap string Py.value)) :=
  match Jose.decode sign registered_ok registered_error py_int now token
          SECRET_KEY [ALGORITHM] with
  | Py.Ok payload => Py.Ok (Some payload)
  | Py.Raise e => if Py.is_JWTError e then Py.Ok None else Py.Raise e
  end.

(** The filter of [authenticate_user]. *)
Definition identified_by (identifier : string) (u : User) : Prop :=
  phone_number u = identifier ∨ email u = Some identifier.

#[global] Instance identified_by_dec identifier u :
  Decision (identified_by identifier u).
Proof. unfold identified_by. apply _. Defined.

Definition authenticate_user (now : Z) (db : Session)
  (identifier password : string) : Py.result (option User) * Session :=
  match first pick (select (identified_by identifier) db) with
  | None => (Py.Ok None, db)
  | Some (row, user) =>
      match password_hash user with
      | HashStr hash =>
          match verify_password password hash with
          | Py.Raise e => (Py.Raise e, db)
          | Py.Ok verified =>
              if negb verified then (Py.Ok None, db)
              else if negb (is_active user) then (Py.Ok None, db)
              else
                let user := with_last_login now user in
                (Py.Ok (Some user), <[ row := user ]> db)
          end
      | HashNone | HashOther => (Py.Ok None, db)
      end
  end.

Definition phone_taken (db : Session) (phone : string) : Prop :=
  ∃ u, u ∈ db ∧ phone_number u = phone.

Definition email_taken (db : Session) (mail : string) : Prop :=
  ∃ u, u ∈ db ∧ email u = Some mail.

(** An email counts as supplied when it is a non-empty string. *)
Definition supplied_and_taken (db : Session) (mail : option string) : Prop :=
  ∃ e, mail = Some e ∧ e ≠ "" ∧ email_taken db e.

Definition register_user (db : Session) (salt : string)
  (name phone_number password : string) (email address : option string)
  : Py.result registration * Session :=
  if found (first_where (λ u, Identity.phone_number u = phone_number) db)
  then (Py.Ok (Conflict "Phone number already registered"), db)
  else if Py.truthy email &&
          found (first_where (λ u, Identity.email u = email) db)
  then (Py.Ok (Conflict "Email already registered"), db)
  else
    match get_password_hash salt password with
    | Py.Raise e => (Py.Raise e, db)
    | Py.Ok hashed_password =>
        let new_user :=
          {| id := next_id db; name := name; phone_number := phone_number;
             email := email; password_hash := HashStr hashed_password;
             address := address; position := None; feedback_route := None;
             user_type := RoleEnum USER; is_active := true;
             is_approved := true; last_login := None |} in
        (Py.Ok (Registered new_user), db ++ [new_user])
    end.

(** [register_authority]; a commit that fails with [OperationalError]
    is rolled back and the error raised again. *)
Definition register_authority (db : Session) (salt : string)
  (name position feedback_route phone_number email password : string)
  : Py.result registration * Session :=
  if found (first_where (λ u, Identity.phone_number u = phone_number) db)
  then (Py.Ok (Conflict "Phone number already registered"), db)
  else if found (first_where (λ u, Identity.email u = Some email) db)
  then (Py.Ok (Conflict "Email already registered"), db)
  else
    match get_password_hash salt password with
    | Py.Raise e => (Py.Raise e, db)
    | Py.Ok hashed_password =>
        let authority :=
          {| id := next_id db; name := name; phone_number := phone_number;
             email := Some email; password_hash := HashStr hashed_password;
             address := None; position := Some position;
             feedback_route := Some feedback_route;
             user_type := RoleEnum AUTHORITY; is_active := true;
             is_approved := true; last_login := None |} in
        if operational (db ++ [authority])
        then (Py.Raise Py.OperationalError, db)
        else (Py.Ok (Registered authority), db ++ [authority])
    end.

(** [int(x)] for a claim value; [None] stands for [TypeError] and
    [ValueError]. *)
Definition int_of (v : option Py.value) : option Z :=
  match v with
  | Some (Py.VStr s) => py_int s
  | Some (Py.VInt n) => Some n
  | Some (Py.VDatetime _) | Some Py.VNull | None => None
  end.

(** Truth value of the payload [verify_token] returns: [None] and the
    empty dictionary are falsy. *)
Definition payload_truthy (payload : option (gmap string Py.value)) : bool :=
  match payload with
  | Some claims => negb (bool_decide (claims = ∅))
  | None => false
  end.

Definition get_current_user (now : Z) (credentials : option Jose.token)
  (db : Session) : Py.result User :=
  match credentials with
  | None => Py.Raise (unauthorized "Not authenticated")
  | Some token =>
      match verify_token now token with
      | Py.Raise e => Py.Raise e
      | Py.Ok payload =>
          if negb (payload_truthy payload)
          then Py.Raise (unauthorized "Invalid or expired token")
          else
            let user_id := default ∅ payload !! "sub" in
            if negb (Py.value_truthy user_id)
            then Py.Raise (unauthorized "Invalid token payload")
            else
              match int_of user_id with
              | None => Py.Raise (unauthorized "Invalid token subject")
              | Some user_id_int =>
                  match db_get key_ok db user_id_int with
                  | Py.Raise e => Py.Raise e
                  | Py.Ok (Some user) =>
                      if is_active user then Py.Ok user
                      else Py.Raise (unauthorized "User inactive or not found")
                  | Py.Ok None =>
                      Py.Raise (unauthorized "User inactive or not found")
                  end
              end
      end
  end.

(** [UserType(s)]; [None] stands for [ValueError]. *)
Definition UserType_of (s : string) : option UserType :=
  if String.eqb s (role_value USER) then Some USER
  else if String.eqb s (role_value AUTHORITY) then Some AUTHORITY
  else None.

(** The role both checkers compare: the attribute itself when it is a
    member of the enumeration, otherwise the member its string form
    names, otherwise [None]. *)
Definition current_role (current_user : User) : option UserType :=
  match user_type current_user with
  | RoleEnum r => Some r
  | RoleStr s => UserType_of s
  | RoleNone => UserType_of "None"
  end.

(** [require_role(required_role)] applied to the current user. *)
Definition require_role (required_role : UserType) (current_user : User)
  : Py.result User :=
  if bool_decide (current_role current_user ≠ Some required_role)
  then Py.Raise forbidden
  else Py.Ok current_user.

(** [require_any_role( *allowed_roles )] applied to the current user. *)
Definition require_any_role (allowed_roles : list UserType)
  (current_user : User) : Py.result User :=
  if negb (bool_decide (allowed_roles = [])) &&
     bool_decide (current_role current_user ∉ (Some <$> allowed_roles))
  then Py.Raise forbidden
  else Py.Ok current_user.

(** A checker behind [Depends(get_current_user)]. *)
Definition guarded (checker : User -> Py.result User) (now : Z)
  (credentials : option Jose.token) (db : Session) : Py.result User :=
  match get_current_user now credentials db with
  | Py.Ok current_user => checker current_user
  | Py.Raise e => Py.Raise e
  end.

(** The claims the login route puts in a token. *)
Definition token_data (authenticated_user : User) : gmap string Py.value :=
  let user_type_enum := default USER (current_role authenticated_user) in
  {[ "sub" := Py.VStr (pretty (id authenticated_user));
     "user_type" := Py.VStr (role_value user_type_enum);
     "phone" := Py.VStr (phone_number authenticated_user) ]}.

(** The two handlers of the login route: an [HTTPException] is raised
    again, any other exception becomes a 500 answer. *)
Definition login_failure (e : Py.exn) : Py.exn :=
  if Py.is_HTTPException e then e
  else Py.HTTPException 500 ("Login failed: " +:+ str_exn e).

(** The login route: authentication at [t_auth], then a token minted at
    [t_token] with the default lifetime. *)
Definition login (t_auth t_token : Z) (db : Session)
  (identifier password : string) : Py.result (Jose.token * User) * Session :=
  match authenticate_user t_auth db identifier password with
  | (Py.Raise e, db') => (Py.Raise (login_failure e), db')
  | (Py.Ok None, db') =>
      (Py.Raise (login_failure (unauthorized "Invalid credentials")), db')
  | (Py.Ok (Some authenticated_user), db') =>
      match create_access_token t_token (token_data authenticated_user) None with
      | Py.Ok access_token => (Py.Ok (access_token, authenticated_user), db')
      | Py.Raise e => (Py.Raise (login_failure e), db')
      end
  end.

End Service.

(** *** Concrete instances, used in scenarios *)

(** Stand-ins for the password library: a hash is the scheme's prefix,
    the salt and the password written out; a password with a NUL byte
    and a stored string without the prefix are refused. *)
Definition NUL : string := String (ascii_of_nat 0) EmptyString.

Definition plain_hash (salt password : string) : Py.result string :=
  if Py.contains NUL password
  then Py.Raise (Py.ValueError "secret contains NULL byte")
  else Py.Ok ("$2b$" +:+ salt +:+ "$" +:+ password).

Definition plain_verify (password hash : string) : Py.result bool :=
  if negb (String.prefix "$2b$" hash)
  then Py.Raise (Py.ValueError "hash could not be identified")
  else if Py.contains NUL password
  then Py.Raise (Py.ValueError "secret contains NULL byte")
  else Py.Ok (String.prefix (String.rev ("$" +:+ password)) (String.rev hash)).

Definition lower_case_value (r : UserType) : string :=
  match r with
  | USER => "user"
  | AUTHORITY => "authority"
  end.

(** A database that yields the first selected row in storage order,
    binds 64-bit keys and commits without failure. *)
Definition in_storage_order (rows : list (nat * User)) : nat := 0.

Definition sqlite_key (key : Z) : bool :=
  (- 2 ^ 63 <=? key) && (key <? 2 ^ 63).

Definition commits (db : Session) : bool := false.

Definition class_name (e : Py.exn) : string :=
  match e with
  | Py.JWTError message | Py.JWTClaimsError message | Py.ValueError message =>
      message
  | Py.ExpiredSignatureError => "Signature has expired."
  | Py.TypeError => "TypeError"
  | Py.OverflowError => "date value out of range"
  | Py.UnicodeEncodeError => "UnicodeEncodeError"
  | Py.OperationalError => "OperationalError"
  | Py.HTTPException _ detail => detail
  end.

Definition citizen : User :=
  {| id := 1; name := "Ada"; phone_number := "555-0100";
     email := Some "ada@example.org";
     password_hash := HashStr ("$2b$" +:+ "s1" +:+ "$" +:+ "correct");
     address := None; position := None; feedback_route := None;
     user_type := RoleEnum USER; is_active := true; is_approved := true;
     last_login := None |}.

Definition officer : User :=
  {| id := 2; name := "Grace"; phone_number := "555-0101";
     email := Some "grace@example.org";
     password_hash := HashStr ("$2b$" +:+ "s2" +:+ "$" +:+ "secret");
     address := None; position := Some "Clerk";
     feedback_route := Some "Roads";
     user_type := RoleEnum AUTHORITY; is_active := true;
     is_approved := true; last_login := None |}.

(** A row whose role attribute names no member of the enumeration. *)
Definition stranger : User :=
  {| id := 3; name := "Eve"; phone_number := "555-0102"; email := None;
     password_hash := HashNone;
     address := None; position := None; feedback_route := None;
     user_type := RoleStr "admin"; is_active := true; is_approved := true;
     last_login := None |}.

(** A row whose stored hash is a string that is no hash. *)
Definition legacy : User :=
  {| id := 4; name := "Old"; phone_number := "555-0103"; email := None;
     password_hash := HashStr "not-a-hash";
     address := None; position := None; feedback_route := None;
     user_type := RoleEnum USER; is_active := true; is_approved := true;
     last_login := None |}.

Definition seeded : list User := [citizen; officer; stranger].

(** The claims the login route puts in a token for [citizen]. *)
Definition citizen_claims : gmap string Py.value :=
  {[ "sub" := Py.VStr "1"; "user_type" := Py.VStr "user";
     "phone" := Py.VStr "555-0100" ]}.

(** The token a login under secret ["secret"], algorithm HS256 and a
    lifetime of 30 minutes returns for [citizen] at second 6. *)
Definition citizen_token : Jose.token :=
  Jose.Compact "HS256" (<[ "exp" := Py.VInt 1806 ]> citizen_claims)
    (Jose.plain_sign "secret" "HS256"
       (<[ "exp" := Py.VInt 1806 ]> citizen_claims)).

End Identity.

(** ** Notions used to state properties of the subject store *)

Module Store.

(** The email of a row when it is a non-empty string. *)
Definition supplied_email (u : Identity.User) : option string :=
  match Identity.email u with
  | Some e => if Py.str_truthy e then Some e else None
  | None => None
  end.

Definition phones (db : list Identity.User) : list string :=
  Identity.phone_number <$> db.

Definition supplied_emails (db : list Identity.User) : list string :=
  omap supplied_email db.

Definition ids (db : list Identity.User) : list Z := Identity.id <$> db.

End Store.

(** ** The routes ([app/api/eco_tips_router.py],
    [app/api/policy_router.py], [app/api/announcement_router.py],
    [app/api/chat_router.py]) *)

Module Routes.

(** What a route body can raise: one of the exceptions listed in [Py]
    (among them [HTTPException]), or [UnicodeDecodeError]. *)
Inductive raised :=
| RaisedPy (e : Py.exn)
| RaisedDecode.

Definition http (status_code : Z) (detail : string) : raised :=
  RaisedPy (Py.HTTPException status_code detail).

(** What a route answers: a response, or an exception handed to the
    framework. *)
Inductive answer (A : Type) :=
| Answer (a : A)
| Raised (e : raised).
Arguments Answer {A}.
Arguments Raised {A}.

(** [s.endswith(suffix)] *)
Definition endswith (s suffix : string) : bool :=
  String.prefix (String.rev suffix) (String.rev s).

(** [s.lower()], used here only to compare the result with a constant
    made of ASCII characters.  The letters A to Z are mapped; every
    other code point is left as it is, which decides such a comparison
    as [str.lower] does: the lower case of a code point outside ASCII
    holds a code point outside ASCII, except for U+212A, whose lower
    case is k, a letter the constant does not hold. *)
Definition lower_char (c : ascii) : ascii :=
  let n := nat_of_ascii c in
  if ((65 <=? n) && (n <=? 90))%nat then ascii_of_nat (n + 32) else c.

Fixpoint lower (s : string) : string :=
  match s with
  | String c t => String (lower_char c) (lower t)
  | EmptyString => EmptyString
  end.

End Routes.

Module EcoTips.

Record EcoTipResponse := {
  topic : string;
  tips : string;
  status : string
}.

Section Router.

Context {W : Type} (R : Granite.remote W).
Variable fallback_order : list string.

(** [str(e)] for the exception a handler catches. *)
Variable str_raised : Routes.raised -> string.

(** The body of the [try] block of [get_eco_tips]. *)
Definition get_eco_tips_body (depth : nat) (topic : string) (s : Granite.sys W)
  : Routes.answer EcoTipResponse * Granite.sys W :=
  if negb (Py.str_truthy (Py.strip topic))
  then (Routes.Raised (Routes.http 400 "Topic cannot be empty"), s)
  else
    match Granite.generate_eco_tip R fallback_order depth topic s with
    | (Granite.Returned tips, s') =>
        (Routes.Answer {| topic := topic; tips := tips; status := "success" |}, s')
    | (Granite.Escaped e, s') => (Routes.Raised (Routes.RaisedPy e), s')
    end.

(** [get_eco_tips]: the body under [except Exception]. *)
Definition get_eco_tips (depth : nat) (topic : string) (s : Granite.sys W)
  : Routes.answer EcoTipResponse * Granite.sys W :=
  match get_eco_tips_body depth topic s with
  | (Routes.Raised e, s') =>
      (Routes.Raised
         (Routes.http 500 ("Error generating eco tips: " +:+ str_raised e)), s')
  | done => done
  end.

End Router.

End EcoTips.

Module Policy.

Record PolicySummaryResponse := {
  original_length : nat;
  summary : string;
  summary_type : string;
  status : string
}.

Section Router.

Context {W : Type} (R : Granite.remote W).
Variable fallback_order : list string.
Variable str_raised : Routes.raised -> string.

(** [contents.decode('utf-8')]; [None] stands for
    [UnicodeDecodeError]. *)
Variable decode_utf8 : string -> option string.

Definition prompt_prefix (summary_type : string) : string :=
  if String.eqb summary_type "executive"
  then "Provide an executive summary focusing on key decisions and impacts:"
  else if String.eqb summary_type "technical"
  then "Provide a technical summary focusing on implementation details:"
  else "Summarize in simple, citizen-friendly language:".

(** The body of the [try] block of [summarize_policy], for a request
    with the given [text] and [summary_type]. *)
Definition summarize_policy_body (depth : nat) (text summary_type : string)
  (s : Granite.sys W) : Routes.answer PolicySummaryResponse * Granite.sys W :=
  if negb (Py.str_truthy (Py.strip text))
  then (Routes.Raised (Routes.http 400 "Policy text cannot be empty"), s)
  else
    let enhanced_text := prompt_prefix summary_type +:+ Py.nl +:+ Py.nl +:+ text in
    match Granite.generate_summary R fallback_order depth enhanced_text s with
    | (Granite.Returned summary, s') =>
        (Routes.Answer {| original_length := Py.len text;
                          summary := summary;
                          summary_type := summary_type;
                          status := "success" |}, s')
    | (Granite.Escaped e, s') => (Routes.Raised (Routes.RaisedPy e), s')
    end.

Definition summarize_policy (depth : nat) (text summary_type : string)
  (s : Granite.sys W) : Routes.answer PolicySummaryResponse * Granite.sys W :=
  match summarize_policy_body depth text summary_type s with
  | (Routes.Raised e, s') =>
      (Routes.Raised
         (Routes.http 500 ("Error summarizing policy: " +:+ str_raised e)), s')
  | done => done
  end.

(** The body of the [try] block of [summarize_policy_file], for an
    upload with the given [filename] and [contents]. *)
Definition summarize_policy_file_body (depth : nat) (filename : option string)
  (contents summary_type : string) (s : Granite.sys W)
  : Routes.answer PolicySummaryResponse * Granite.sys W :=
  if negb (Py.truthy filename)
  then (Routes.Raised (Routes.http 400 "Uploaded file must have a name"), s)
  else
    let name := Py.str_of filename in
    if negb (Routes.endswith name ".txt" || Routes.endswith name ".pdf"
             || Routes.endswith name ".docx")
    then (Routes.Raised
            (Routes.http 400 "Only .txt, .pdf, and .docx files are supported"), s)
    else if Routes.endswith name ".txt"
    then
      match decode_utf8 contents with
      | Some text_content => summarize_policy depth text_content summary_type s
      | None => (Routes.Raised Routes.RaisedDecode, s)
      end
    else (Routes.Raised
            (Routes.http 400 "Only .txt files are currently supported"), s).

Definition summarize_policy_file (depth : nat) (filename : option string)
  (contents summary_type : string) (s : Granite.sys W)
  : Routes.answer PolicySummaryResponse * Granite.sys W :=
  match summarize_policy_file_body depth filename contents summary_type s with
  | (Routes.Raised e, s') =>
      (Routes.Raised
         (Routes.http 500 ("Error processing policy file: " +:+ str_raised e)), s')
  | done => done
  end.

End Router.

End Policy.

Module Announcements.

(** A row of the announcements table ([app.models.Announcement]). *)
Record Announcement := {
  id : Z;
  title : string;
  content : string;
  audience : option string;
  author_id : option Z;
  created_at : Z
}.

#[global] Instance Announcement_eq_dec : EqDecision Announcement.
Proof. solve_decision. Defined.

(** [(feedback_route or "").strip().lower() == "mayor's office"] *)
Definition is_mayor_route (current_authority : Identity.User) : bool :=
  String.eqb
    (Routes.lower (Py.strip (Py.or_str (Identity.feedback_route current_authority) "")))
    "mayor's office".

(** The body of [delete_announcement], for the authority the role check
    let through; the answer is the status code of the response. *)
Definition delete_announcement (announcement_id : Z)
  (table : list Announcement) (current_authority : Identity.User)
  : Routes.answer Z * list Announcement :=
  match list_find (λ a, id a = announcement_id) table with
  | None => (Routes.Raised (Routes.http 404 "Announcement not found"), table)
  | Some (row, entry) =>
      let authority_id := Identity.id current_authority in
      match author_id entry with
      | None =>
          if negb (is_mayor_route current_authority)
          then (Routes.Raised
                  (Routes.http 403
                     "Only mayor's office can delete unowned announcements"),
                table)
          else (Routes.Answer 204, delete row table)
      | Some entry_author_id =>
          if negb (bool_decide (entry_author_id = authority_id))
             && negb (is_mayor_route current_authority)
          then (Routes.Raised
                  (Routes.http 403
                     "Cannot delete announcement created by another authority"),
                table)
          else (Routes.Answer 204, delete row table)
      end
  end.

End Announcements.

Module Chat.

(** A row of the chat table ([app.models.ChatMessage]). *)
Record ChatMessage := {
  user_id : Z;
  sender : string;
  message : string;
  created_at : Z
}.

#[global] Instance ChatMessage_eq_dec : EqDecision ChatMessage.
Proof. solve_decision. Defined.

Record ChatMessageRecord := {
  record_sender : string;
  record_message : string;
  timestamp : Z
}.

Record ChatResponse := {
  response : string;
  status : string;
  history : list ChatMessageRecord
}.

Definition _chat_to_dict (entry : ChatMessage) : ChatMessageRecord :=
  {| record_sender := sender entry; record_message := message entry;
     timestamp := created_at entry |}.

Section Router.

Context {W : Type} (R : Granite.remote W).
Variable fallback_order : list string.
Variable str_raised : Routes.raised -> string.

(** [order_by(ChatMessage.created_at.desc())]: the store's ordering of
    the selected rows, newest first. *)
Variable newest_first : list ChatMessage -> list ChatMessage.

Definition _get_recent_history (table : list ChatMessage) (user : Z)
  (limit : nat) : list ChatMessageRecord :=
  let rows :=
    take limit (newest_first (filter (λ m, user_id m = user) table)) in
  reverse (_chat_to_dict <$> rows).

(** [ask_question]; [t_user] and [t_reply] are the instants at which the
    two rows are stored. *)
Definition ask_question (depth : nat) (t_user t_reply : Z) (raw : string)
  (current_user : Identity.User) (table : list ChatMessage)
  (s : Granite.sys W)
  : Routes.answer ChatResponse * list ChatMessage * Granite.sys W :=
  let message := Py.strip raw in
  if negb (Py.str_truthy message)
  then (Routes.Raised (Routes.http 400 "Message cannot be empty"), table, s)
  else
    let table :=
      table ++ [{| user_id := Identity.id current_user; sender := "user";
                   message := message; created_at := t_user |}] in
    match Granite.ask_granite R fallback_order depth message s with
    | (Granite.Escaped e, s') =>
        (Routes.Raised
           (Routes.http 500
              ("Assistant error: " +:+ str_raised (Routes.RaisedPy e))),
         table, s')
    | (Granite.Returned response_text, s') =>
        let table :=
          table ++ [{| user_id := Identity.id current_user;
                       sender := "assistant"; message := response_text;
                       created_at := t_reply |}] in
        (Routes.Answer
           {| response := response_text; status := "success";
              history := _get_recent_history table (Identity.id current_user) 50 |},
         table, s')
    end.

(** [get_history]: the records and their count. *)
Definition get_history (current_user : Identity.User)
  (table : list ChatMessage) : list ChatMessageRecord * nat :=
  let history := _get_recent_history table (Identity.id current_user) 100 in
  (history, length history).

(** [delete_history]: the store after the deletion. *)
Definition delete_history (current_user : Identity.User)
  (table : list ChatMessage) : list ChatMessage :=
  filter (λ m, user_id m ≠ Identity.id current_user) table.

End Router.

(** [a] was stored no earlier than [b]. *)
Definition not_older (a b : ChatMessage) : Prop := created_at b <= created_at a.

#[global] Instance not_older_dec a b : Decision (not_older a b).
Proof. unfold not_older. apply _. Defined.

(** One ordering by recency: a stable sort on [created_at]. *)
Definition by_recency : list ChatMessage -> list ChatMessage :=
  merge_sort not_older.

End Chat.

(** ** The feedback routes ([app/api/feedback_router.py]) *)

Module Feedbacks.

Section Router.

(** [app.models.FeedbackStatus], with the truth value of its members
    ([if status_filter:]). *)
Variable FeedbackStatus : Type.
Context `{!EqDecision FeedbackStatus}.
Variable member_truthy : FeedbackStatus -> bool.

(** A row of the feedback table ([app.models.Feedback]). *)
Record Feedback := {
  id : Z;
  user_id : Z;
  category : string;
  message : string;
  authority_type : option string;
  priority : option string;
  location : option string;
  status : FeedbackStatus;
  authority_notes : option string;
  authority_id : option Z;
  created_at : Z;
  updated_at : Z
}.

(** [order_by(Feedback.created_at.desc())]: the store's ordering of the
    selected rows, newest first. *)
Variable newest_first : list Feedback -> list Feedback.

(** [query.filter(Feedback.status == status_filter)], applied when the
    filter is truthy. *)
Definition status_matches (status_filter : option FeedbackStatus)
  (entry : Feedback) : Prop :=
  match status_filter with
  | Some target => if member_truthy target then status entry = target else True
  | None => True
  end.

#[global] Instance status_matches_dec status_filter entry :
  Decision (status_matches status_filter entry).
Proof.
  unfold status_matches. destruct status_filter as [target|]; [|apply _].
  destruct (member_truthy target); apply _.
Defined.

(** [list_feedback_for_authority]: the entries whose records the route
    returns. *)
Definition list_feedback_for_authority (status_filter : option FeedbackStatus)
  (table : list Feedback) (current_authority : Identity.User)
  : list Feedback :=
  let route := Identity.feedback_route current_authority in
  if Py.truthy route
     && String.eqb (Routes.lower (Py.strip (Py.str_of route))) "mayor's office"
  then newest_first (filter (status_matches status_filter) table)
  else if Py.truthy route
  then
    newest_first
      (filter (λ entry,
                 status_matches status_filter entry
                 ∧ (authority_id entry = Some (Identity.id current_authority)
                    ∨ authority_type entry = route
                    ∨ authority_id entry = None))
         table)
  else
    newest_first
      (filter (λ entry,
                 status_matches status_filter entry
                 ∧ (authority_id entry = Some (Identity.id current_authority)
                    ∨ authority_id entry = None))
         table).

(** [update_feedback_status], at the instant [now]: the updated entry
    whose record the route returns, and the table afterwards. *)
Definition update_feedback_status (feedback_id : Z)
  (new_status : FeedbackStatus) (new_notes : option string) (now : Z)
  (table : list Feedback) (current_authority : Identity.User)
  : Routes.answer Feedback * list Feedback :=
  match list_find (λ entry, id entry = feedback_id) table with
  | None => (Routes.Raised (Routes.http 404 "Feedback not found"), table)
  | Some (row, entry) =>
      let entry :=
        {| id := id entry; user_id := user_id entry;
           category := category entry; message := message entry;
           authority_type := authority_type entry;
           priority := priority entry; location := location entry;
           status := new_status;
           authority_notes := new_notes;
           authority_id := Some (Identity.id current_authority);
           created_at := created_at entry;
           updated_at := now |} in
      (Routes.Answer entry, <[row := entry]> table)
  end.

End Router.

Arguments id {FeedbackStatus}.
Arguments user_id {FeedbackStatus}.
Arguments category {FeedbackStatus}.
Arguments message {FeedbackStatus}.
Arguments authority_type {FeedbackStatus}.
Arguments priority {FeedbackStatus}.
Arguments location {FeedbackStatus}.
Arguments status {FeedbackStatus}.
Arguments authority_notes {FeedbackStatus}.
Arguments authority_id {FeedbackStatus}.
Arguments created_at {FeedbackStatus}.
Arguments updated_at {FeedbackStatus}.

(** The three members the routes name, every one of them truthy. *)
Inductive three_states := REPORTED | IN_PROCESS | SOLVED.

#[global] Instance three_states_eq_dec : EqDecision three_states.
Proof. solve_decision. Defined.

Definition all_truthy (_ : three_states) : bool := true.

(** A sample entry: reported by user 1, routed to "Parks", assigned to
    nobody. *)
Definition pothole : Feedback three_states :=
  {| id := 1; user_id := 1; category := "roads"; message := "pothole";
     authority_type := Some "Parks"; priority := None; location := None;
     status := REPORTED; authority_notes := None; authority_id := None;
     created_at := 5; updated_at := 5 |}.

End Feedbacks.


(** * Properties *)

(** ** Strings *)

Section PyFacts.

Lemma prefix_length (p s : string) :
  String.prefix p s = true → (String.length p ≤ String.length s)%nat.
Proof.
  revert s. induction p as [|c p IH]; intros s; [cbn; lia|].
  destruct s as [|d s]; [done|]. cbn.
  destruct (Ascii.ascii_dec c d); [|done]. intros H%IH. lia.
Qed.

Lemma drop_bytes_length n s :
  String.length (Py.drop_bytes n s) = (String.length s - n)%nat.
Proof.
  revert s. induction n as [|n IH]; intros [|c s]; cbn; try done; lia.
Qed.

Lemma after_mark_shorter marks s t :
  Forall (λ mark, mark ≠ "") marks →
  Py.after_mark marks s = Some t →
  (String.length t < String.length s)%nat.
Proof.
  induction 1 as [|mark rest Hmark _ IH]; [done|]. cbn.
  destruct (String.prefix mark s) eqn:Hp; [|exact IH].
  intros [= <-]. rewrite drop_bytes_length.
  apply prefix_length in Hp. destruct mark; [done|]. cbn in *. lia.
Qed.

(** Stripping is carried through: what [lstrip_of] returns starts with
    none of the marks. *)
Lemma lstrip_of_done marks s :
  Forall (λ mark, mark ≠ "") marks →
  Py.after_mark marks (Py.lstrip_of marks s) = None.
Proof.
  intros Hmarks. unfold Py.lstrip_of.
  assert (H : ∀ bound s, (String.length s ≤ bound)%nat →
              Py.after_mark marks (Py.lstrip_go marks bound s) = None).
  { clear s. induction bound as [|bound IH]; intros s Hlen; cbn.
    - destruct (Py.after_mark marks s) as [t|] eqn:Ht; [|done].
      apply after_mark_shorter in Ht; [lia|done].
    - destruct (Py.after_mark marks s) as [t|] eqn:Ht; [|done].
      apply IH. apply after_mark_shorter in Ht; [lia|done]. }
  by apply H.
Qed.

Lemma rev_app_rev_app (s t u : string) :
  String.rev_app (String.rev_app s t) u = String.rev_app t (s +:+ u).
Proof.
  revert t. induction s as [|c s IH]; intros t; [done|].
  cbn. by rewrite IH.
Qed.

Lemma rev_rev (s : string) : String.rev (String.rev s) = s.
Proof.
  unfold String.rev. rewrite rev_app_rev_app. cbn.
  induction s as [|c s IH]; [done|].
  change (String c (s +:+ "") = String c s). by rewrite IH.
Qed.

Lemma whitespace_marks : Forall (λ mark, mark ≠ "") Py.whitespace.
Proof. apply (bool_decide_unpack _). vm_compute. exact I. Qed.

(** What [lstrip] and [strip] return starts with no blank character,
    and what [rstrip] and [strip] return ends with none. *)
Lemma strip_done s :
  Py.after_mark Py.whitespace (Py.lstrip s) = None
  ∧ Py.after_mark (String.rev <$> Py.whitespace) (String.rev (Py.rstrip s))
    = None
  ∧ Py.after_mark (String.rev <$> Py.whitespace) (String.rev (Py.strip s))
    = None.
Proof.
  assert (Hrev : Forall (λ mark, mark ≠ "") (String.rev <$> Py.whitespace)).
  { apply (bool_decide_unpack _). vm_compute. exact I. }
  assert (Hr : ∀ t, Py.after_mark (String.rev <$> Py.whitespace)
                      (String.rev (Py.rstrip t)) = None).
  { intros t. unfold Py.rstrip. rewrite rev_rev.
    by apply lstrip_of_done. }
  split; [apply lstrip_of_done, whitespace_marks|]. split; [apply Hr|].
  apply Hr.
Qed.

End PyFacts.

(** ** The gateway: model selection, recovery from an unsupported model,
    and the wrappers *)

Section GraniteFacts.
Import Granite.
Context {W : Type} (R : remote W) (order : list string).


Lemma first_fallback_head ranking (avail : gset string) :
  first_fallback ranking avail = head (filter (λ c, c ∈ avail) ranking).
Proof.
  induction ranking as [|c rest IH]; [done|].
  cbn [first_fallback]. rewrite filter_cons.
  destruct (decide (c ∈ avail)); [done|exact IH].
Qed.

Lemma first_fallback_elem ranking (avail : gset string) c :
  first_fallback ranking avail = Some c → c ∈ avail.
Proof.
  induction ranking as [|c' rest IH]; [done|]; cbn [first_fallback].
  destruct (decide (c' ∈ avail)); [congruence|exact IH].
Qed.

Lemma ranked_choice_empty ranking preferred :
  ranked_choice ranking ∅ preferred = preferred.
Proof.
  unfold ranked_choice. rewrite decide_False by set_solver.
  rewrite <- first_fallback_head.
  destruct (first_fallback ranking ∅) as [c|] eqn:E; [|done].
  apply first_fallback_elem in E. set_solver.
Qed.

Lemma ranked_choice_stays ranking (avail : gset string) preferred :
  ranked_choice ranking avail preferred ≠ preferred →
  ranked_choice ranking avail preferred ∈ avail.
Proof.
  unfold ranked_choice. destruct (decide (preferred ∈ avail)); [done|].
  rewrite <- first_fallback_head.
  destruct (first_fallback ranking avail) as [c|] eqn:E; [|done].
  intros _. by apply first_fallback_elem in E.
Qed.

Lemma ranked_choice_fixed ranking (avail : gset string) m :
  m ∈ avail → ranked_choice ranking avail m = m.
Proof. intros H. unfold ranked_choice. by rewrite decide_True. Qed.


Lemma load_available_models_eq (s : sys W) :
  _load_available_models R s =
  let reply := get_foundation_model_specs R (url (self s)) (bearer (self s)) (net s) in
  (catalog_models reply.1,
   {| self := self s; net := reply.2; calls := calls s ++ [CallCatalog] |}).
Proof.
  unfold _load_available_models.
  destruct (get_foundation_model_specs R _ _ _) as [[r|] w']; reflexivity.
Qed.


Lemma select_unfold force (s : sys W) :
  _select_supported_model R order force s =
  if Py.truthy (token (self s)) then
    let s1 := if force then refreshed R s else s in
    set_self (with_model_id
                (ranked_choice order (available_models (self s1)) (model_id (self s1)))
                (self s1)) s1
  else s.
Proof.
  unfold _select_supported_model.
  destruct (Py.truthy (token (self s))); [|done]. cbn [negb].
  assert (Hstep : ∀ s1 : sys W,
    (if decide (available_models (self s1) = ∅) then s1
     else if decide (model_id (self s1) ∈ available_models (self s1)) then s1
     else match first_fallback order (available_models (self s1)) with
          | Some candidate => set_self (with_model_id candidate (self s1)) s1
          | None => s1
          end) =
    set_self (with_model_id
                (ranked_choice order (available_models (self s1)) (model_id (self s1)))
                (self s1)) s1).
  { intros [[k p u m t a] w l]. cbn.
    destruct (decide (a = ∅)) as [->|Hne].
    - by rewrite ranked_choice_empty.
    - unfold ranked_choice. rewrite <- first_fallback_head.
      destruct (decide (m ∈ a)); [done|].
      by destruct (first_fallback order a). }
  destruct force.
  - rewrite load_available_models_eq. cbn zeta. apply Hstep.
  - apply Hstep.
Qed.


Lemma select_token force (s : sys W) :
  token (self (_select_supported_model R order force s)) = token (self s).
Proof.
  rewrite select_unfold. destruct (Py.truthy _); [|done]. by destruct force.
Qed.

Lemma select_project_id force (s : sys W) :
  project_id (self (_select_supported_model R order force s)) = project_id (self s).
Proof.
  rewrite select_unfold. destruct (Py.truthy _); [|done]. by destruct force.
Qed.

Lemma select_forced_calls (s : sys W) :
  Py.truthy (token (self s)) = true →
  calls (_select_supported_model R order true s) = calls s ++ [CallCatalog].
Proof. intros Ht. rewrite select_unfold, Ht. reflexivity. Qed.

Lemma select_forced_models (s : sys W) :
  Py.truthy (token (self s)) = true →
  available_models (self (_select_supported_model R order true s)) =
  available_models (self (refreshed R s)).
Proof. intros Ht. rewrite select_unfold, Ht. reflexivity. Qed.

Lemma select_forced_model_id (s : sys W) :
  Py.truthy (token (self s)) = true →
  model_id (self (_select_supported_model R order true s)) =
  ranked_choice order (available_models (self (refreshed R s))) (model_id (self s)).
Proof. intros Ht. rewrite select_unfold, Ht. reflexivity. Qed.

Lemma generations_snoc l c :
  generations (l ++ [c]) = (generations l + (if is_generate c then 1 else 0))%nat.
Proof.
  unfold generations. rewrite filter_app, length_app.
  rewrite filter_cons, filter_nil. by destruct (is_generate c).
Qed.

Lemma refreshes_snoc l c :
  refreshes (l ++ [c]) = (refreshes l + (if is_catalog c then 1 else 0))%nat.
Proof.
  unfold refreshes. rewrite filter_app, length_app.
  rewrite filter_cons, filter_nil. by destruct (is_catalog c).
Qed.


Lemma make_request_unfold depth prompt max_tokens (s : sys W) :
  _make_request R order (S depth) prompt max_tokens s =
  if negb (Py.truthy (token (self s))) then (Returned None, s)
  else if negb (Py.str_truthy (project_id (self s))) then (Returned None, s)
  else
    let s1 := requested s (request_of R s prompt max_tokens).2 in
    match (request_of R s prompt max_tokens).1 with
    | GenJson results => (Returned (generated_text results), s1)
    | GenHTTPError status_code text =>
        if model_not_supported status_code text then
          let s2 := _select_supported_model R order true s1 in
          if decide (model_id (self s2) ≠ model_id (self s))
          then _make_request R order depth prompt max_tokens s2
          else (Returned None, s2)
        else (Returned None, s1)
    | GenError => (Returned None, s1)
    end.
Proof.
  cbn [_make_request]. unfold request_of, requested.
  destruct (negb (Py.truthy _)); [done|].
  destruct (negb (Py.str_truthy _)); [done|].
  destruct (post_generation_text R _ _ _ _) as [reply w']. reflexivity.
Qed.


Lemma steady_reselect catalog (s : sys W) w' :
  steady_catalog R catalog →
  Py.truthy (token (self s)) = true →
  let s2 := _select_supported_model R order true (requested s w') in
  model_id (self s2) ≠ model_id (self s) →
  ∀ w'', let s3 := _select_supported_model R order true (requested s2 w'') in
  model_id (self s3) = model_id (self s2).
Proof.
  intros Hst Ht s2 Hch w'' s3. subst s3.
  assert (Ht2 : Py.truthy (token (self s2)) = true).
  { unfold s2. by rewrite select_token. }
  rewrite select_forced_model_id by done.
  cbn [requested self model_id]. apply ranked_choice_fixed.
  unfold refreshed. cbn [self available_models with_available_models requested url net].
  rewrite Hst.
  assert (Hm : model_id (self s2) =
               ranked_choice order (catalog_models catalog) (model_id (self s))).
  { unfold s2. rewrite select_forced_model_id by done.
    unfold refreshed. cbn [self available_models with_available_models requested url net model_id].
    by rewrite Hst. }
  rewrite Hm in Hch |- *. by apply ranked_choice_stays.
Qed.


Lemma make_request_steady catalog depth prompt max_tokens (s : sys W) :
  steady_catalog R catalog →
  ∃ r s', _make_request R order (S (S depth)) prompt max_tokens s = (Returned r, s')
          ∧ (generations (calls s') ≤ generations (calls s) + 2)%nat
          ∧ (refreshes (calls s') ≤ refreshes (calls s) + 2)%nat.
Proof.
  intros Hst. rewrite make_request_unfold.
  destruct (Py.truthy (token (self s))) eqn:Ht; cbn [negb];
    [|eexists _, _; split; [done|lia]].
  destruct (Py.str_truthy (project_id (self s))) eqn:Hp; cbn [negb];
    [|eexists _, _; split; [done|lia]].
  destruct (request_of R s prompt max_tokens) as [reply w'] eqn:Hreq. cbn [fst snd].
  assert (Hg1 : generations (calls (requested s w')) = (generations (calls s) + 1)%nat)
    by (cbn [requested calls]; rewrite generations_snoc; cbn [is_generate]; lia).
  assert (Hr1 : refreshes (calls (requested s w')) = refreshes (calls s))
    by (cbn [requested calls]; rewrite refreshes_snoc; cbn [is_catalog]; lia).
  destruct reply as [results|code text|];
    [eexists _, _; split; [done|lia]| |eexists _, _; split; [done|lia]].
  destruct (model_not_supported code text); [|eexists _, _; split; [done|lia]].
  set (s2 := _select_supported_model R order true (requested s w')).
  assert (Hc2 : calls s2 = calls (requested s w') ++ [CallCatalog])
    by (unfold s2; by rewrite select_forced_calls).
  assert (Hg2 : generations (calls s2) = (generations (calls s) + 1)%nat)
    by (rewrite Hc2, generations_snoc; cbn [is_generate]; lia).
  assert (Hr2 : refreshes (calls s2) = (refreshes (calls s) + 1)%nat)
    by (rewrite Hc2, refreshes_snoc; cbn [is_catalog]; lia).
  cbn zeta. destruct (decide (model_id (self s2) ≠ model_id (self s))) as [Hch|];
    [|eexists _, _; split; [done|lia]].
  rewrite make_request_unfold.
  assert (Ht2 : Py.truthy (token (self s2)) = true)
    by (unfold s2; by rewrite select_token).
  assert (Hp2 : Py.str_truthy (project_id (self s2)) = true)
    by (unfold s2; by rewrite select_project_id).
  rewrite Ht2, Hp2. cbn [negb].
  destruct (request_of R s2 prompt max_tokens) as [reply2 w''] eqn:Hreq2. cbn [fst snd].
  assert (Hg3 : generations (calls (requested s2 w'')) = (generations (calls s) + 2)%nat)
    by (cbn [requested calls]; rewrite generations_snoc; cbn [is_generate]; lia).
  assert (Hr3 : refreshes (calls (requested s2 w'')) = (refreshes (calls s) + 1)%nat)
    by (cbn [requested calls]; rewrite refreshes_snoc; cbn [is_catalog]; lia).
  destruct reply2 as [results|code2 text2|];
    [eexists _, _; split; [done|lia]| |eexists _, _; split; [done|lia]].
  destruct (model_not_supported code2 text2); [|eexists _, _; split; [done|lia]].
  cbn zeta.
  pose proof (steady_reselect catalog s w' Hst Ht Hch w'') as Hsame. cbn zeta in Hsame.
  fold s2 in Hsame. rewrite decide_False by (intros Hne; by apply Hne).
  eexists _, _; split; [done|].
  rewrite select_forced_calls by (cbn [requested self]; done).
  rewrite generations_snoc, refreshes_snoc. cbn [is_generate is_catalog]. lia.
Qed.


Lemma init_model_id cfg w :
  let s := init R order cfg w in
  model_id (self s) =
  ranked_choice order (available_models (self s)) (configured_model cfg).
Proof.
  unfold init.
  destruct (_get_iam_token R _ w []) as [[tok w1] log1].
  destruct (Py.truthy tok) eqn:Ht.
  - rewrite load_available_models_eq. cbn zeta.
    rewrite select_unfold. cbn [set_self self token with_available_models].
    rewrite Ht. reflexivity.
  - rewrite select_unfold. cbn [self token]. rewrite Ht.
    cbn [self model_id available_models]. by rewrite ranked_choice_empty.
Qed.

Lemma make_request_returns depth prompt max_tokens (s : sys W) :
  ∃ r s', _make_request R order depth prompt max_tokens s = (Returned r, s').
Proof.
  revert s. induction depth as [|depth IH]; intros s; [by eexists _, _|].
  rewrite make_request_unfold.
  destruct (negb (Py.truthy _)); [by eexists _, _|].
  destruct (negb (Py.str_truthy _)); [by eexists _, _|].
  cbn zeta. destruct (request_of R s prompt max_tokens).1 as [results|code text|];
    [by eexists _, _| |by eexists _, _].
  destruct (model_not_supported code text); [|by eexists _, _].
  destruct (decide _); [apply IH|by eexists _, _].
Qed.

Lemma str_truthy_ne s : Py.str_truthy s = true ↔ s ≠ "".
Proof.
  unfold Py.str_truthy. rewrite negb_true_iff. apply String.eqb_neq.
Qed.

Lemma or_fallback_spec (gen : outcome (option string) * sys W) fallback response :
  Py.str_truthy fallback = true →
  gen.1 = Returned response →
  substitutes_fallback gen fallback (or_fallback gen fallback).
Proof.
  intros Hfb%str_truthy_ne Hgen. destruct gen as [r s']. cbn in Hgen. subst r.
  split; [done|]. eexists response, _. split; [done|]. split; [done|].
  destruct response as [generated|]; cbn; [|done].
  destruct (Py.str_truthy generated) eqn:E; [|done].
  split; [by apply str_truthy_ne|done].
Qed.


(** C1 (as amended).  When a generation call is rejected with HTTP 404 and
    a body that mentions [model_not_supported], the gateway reads the
    catalog once, re-runs model selection, gives up with [None] when the
    active identifier is unchanged and otherwise calls [_make_request]
    again with the new identifier; that call handles a further rejection
    in the same way.  When the provider's catalog answer does not change,
    a caller's request issues at most two generation calls and two
    catalog reads and returns within two stack frames. *)
Theorem make_request_recovery depth prompt max_tokens (s : sys W) code text w' :
  Py.truthy (token (self s)) = true →
  Py.str_truthy (project_id (self s)) = true →
  request_of R s prompt max_tokens = (GenHTTPError code text, w') →
  model_not_supported code text = true →
  let s2 := _select_supported_model R order true (requested s w') in
  calls s2 =
    calls s ++ [CallGenerate (Py.or_str (Some (model_id (self s))) DEFAULT_MODEL_ID);
                CallCatalog]
  ∧ model_id (self s2) =
      ranked_choice order (available_models (self s2)) (model_id (self s))
  ∧ _make_request R order (S depth) prompt max_tokens s =
      (if decide (model_id (self s2) = model_id (self s))
       then (Returned None, s2)
       else _make_request R order depth prompt max_tokens s2)
  ∧ (∀ catalog, steady_catalog R catalog →
       ∃ r s', _make_request R order (S (S depth)) prompt max_tokens s = (Returned r, s')
               ∧ (generations (calls s') ≤ generations (calls s) + 2)%nat
               ∧ (refreshes (calls s') ≤ refreshes (calls s) + 2)%nat).
Proof.
  intros Ht Hp Hreq Hns s2.
  assert (Ht1 : Py.truthy (token (self (requested s w'))) = true) by done.
  split; [|split; [|split]].
  - unfold s2. rewrite select_forced_calls by done.
    cbn [requested calls]. by rewrite <- app_assoc.
  - unfold s2. rewrite select_forced_model_id, select_forced_models by done.
    reflexivity.
  - rewrite make_request_unfold, Ht, Hp, Hreq. cbn [negb fst snd].
    rewrite Hns. cbn zeta. fold s2.
    destruct (decide (model_id (self s2) = model_id (self s))) as [He|Hne].
    + by rewrite decide_False by (intros H; by apply H).
    + by rewrite decide_True.
  - intros catalog Hst. by apply (make_request_steady catalog).
Qed.

(** C2 (as amended).  After [__init__] the active identifier is the
    configured one when the availability set contains it, otherwise the
    first member of the ranking that the set contains, otherwise the
    configured one.  A forced refresh makes the same choice starting from
    the identifier that is active when it runs (nothing changes when no
    credential is held).  With availability set {m2, m3}, identifier m1
    and ranking [m1; m2; m3], selection yields m2. *)
Theorem select_supported_model_choice :
  (∀ cfg w,
     let s := init R order cfg w in
     model_id (self s) =
     ranked_choice order (available_models (self s)) (configured_model cfg))
  ∧ (∀ s : sys W,
       let s' := _select_supported_model R order true s in
       model_id (self s') =
       if Py.truthy (token (self s))
       then ranked_choice order (available_models (self s')) (model_id (self s))
       else model_id (self s))
  ∧ (∀ avail preferred,
       (avail = ∅ → ranked_choice order avail preferred = preferred)
       ∧ (preferred ∈ avail → ranked_choice order avail preferred = preferred)
       ∧ (preferred ∉ avail →
          ranked_choice order avail preferred =
          default preferred (first_fallback order avail)))
  ∧ (∀ w : W,
       model_id (self (_select_supported_model R ["m1"; "m2"; "m3"] false
         {| self := gateway "m1" {[ "m2"; "m3" ]}; net := w; calls := [] |}))
       = "m2").
Proof.
  split; [|split; [|split]].
  - apply init_model_id.
  - intros s s'. unfold s'.
    destruct (Py.truthy (token (self s))) eqn:Ht.
    + rewrite select_forced_model_id, select_forced_models by done. reflexivity.
    + rewrite select_unfold. by rewrite Ht.
  - intros avail preferred. split; [|split].
    + intros ->. apply ranked_choice_empty.
    + apply ranked_choice_fixed.
    + intros Hn. unfold ranked_choice. rewrite decide_False by done.
      by rewrite first_fallback_head.
  - intros w. vm_compute. reflexivity.
Qed.

(** C7.  Each of the three wrappers returns, for every text and in every
    state of the gateway: the generation call it delegates to never
    lets an exception escape, and the wrapper returns the generated text
    when that call returns a non-empty text and its canned fallback text
    when the call returns [None] or an empty text.  The result is never
    empty, and the gateway is left as the generation call left it. *)
Theorem wrappers_substitute_fallback depth text (s : sys W) :
  substitutes_fallback
    (_make_request R order depth (ask_prompt text) 500 s)
    ask_fallback
    (ask_granite R order depth text s)
  ∧ substitutes_fallback
      (_make_request R order depth (summary_prompt text) 300 s)
      summary_fallback
      (generate_summary R order depth text s)
  ∧ substitutes_fallback
      (_make_request R order depth (eco_tip_prompt text) 200 s)
      (eco_tip_fallback text)
      (generate_eco_tip R order depth text s).
Proof.
  split; [|split].
  - destruct (make_request_returns depth (ask_prompt text) 500 s)
      as (r & s' & Hgen).
    apply (or_fallback_spec _ _ r); [reflexivity|by rewrite Hgen].
  - destruct (make_request_returns depth (summary_prompt text) 300 s)
      as (r & s' & Hgen).
    apply (or_fallback_spec _ _ r); [reflexivity|by rewrite Hgen].
  - destruct (make_request_returns depth (eco_tip_prompt text) 200 s)
      as (r & s' & Hgen).
    apply (or_fallback_spec _ _ r); [reflexivity|by rewrite Hgen].
Qed.

End GraniteFacts.

Section GraniteScenarios.
Import Granite.

Lemma make_request_recovery_witness :
  let s := {| self := gateway "custom/model" ∅;
              net := [unsupported; GenJson (Some [Some "hello"])];
              calls := [] |} in
  let R := steady (CatalogJson [Some "ibm/granite-3-2b-instruct"]) in
  ∃ r s', _make_request R FALLBACK_MODEL_ORDER 2 "hi" 500 s = (Returned r, s')
          ∧ (generations (calls s') ≤ generations (calls s) + 2)%nat
          ∧ (refreshes (calls s') ≤ refreshes (calls s) + 2)%nat.
Proof.
  intros s R.
  refine (proj2 (proj2 (proj2
    (make_request_recovery R FALLBACK_MODEL_ORDER 0 "hi" 500 s 404
       "{errors:[{code:model_not_supported}]}"
       [GenJson (Some [Some "hello"])] _ _ _ _)))
    (CatalogJson [Some "ibm/granite-3-2b-instruct"]) _).
  - reflexivity.
  - reflexivity.
  - reflexivity.
  - reflexivity.
  - intros u a w. reflexivity.
Defined.

(** C1, as stated, fails: one caller's request can go through two
    recovery cycles (three generation calls, two catalog reads). *)
Lemma make_request_two_recoveries :
  let s := {| self := gateway "custom/model" ∅;
              net := shifting_catalog; calls := [] |} in
  let out := _make_request scripted FALLBACK_MODEL_ORDER 3 "hi" 500 s in
  out.1 = Returned (Some "hello")
  ∧ calls out.2 =
      [ CallGenerate "custom/model"; CallCatalog;
        CallGenerate "ibm/granite-3-8b-instruct"; CallCatalog;
        CallGenerate "ibm/granite-3-2b-instruct" ]
  ∧ ¬ (refreshes (calls out.2) ≤ 1)%nat.
Proof.
  intros s out. split; [|split].
  - vm_compute. reflexivity.
  - vm_compute. reflexivity.
  - vm_compute. lia.
Qed.

(** C2, as stated, fails on a forced refresh that follows a fallback: the
    configured identifier is in the refreshed availability set, and the
    gateway selects a ranked model instead. *)
Lemma forced_refresh_ignores_configured :
  let s := init scripted FALLBACK_MODEL_ORDER custom_settings late_catalog in
  let s' := _select_supported_model scripted FALLBACK_MODEL_ORDER true s in
  configured_model custom_settings = "custom/model"
  ∧ model_id (self s) = "ibm/granite-3-8b-instruct"
  ∧ configured_model custom_settings ∈ available_models (self s')
  ∧ model_id (self s') = "ibm/granite-3-2b-instruct"
  ∧ model_id (self s') ≠
    ranked_choice FALLBACK_MODEL_ORDER (available_models (self s'))
      (configured_model custom_settings).
Proof.
  intros s s'. split; [|split; [|split; [|split]]].
  - vm_compute. reflexivity.
  - vm_compute. reflexivity.
  - apply (bool_decide_unpack _). vm_compute. reflexivity.
  - vm_compute. reflexivity.
  - apply (bool_decide_unpack _). vm_compute. reflexivity.
Qed.

End GraniteScenarios.

(** ** Session tokens *)

Section TokenFacts.
Import Identity.
Variable sign : string -> string -> gmap string Py.value -> string.
Variable registered_ok : Z -> gmap string Py.value -> bool.
Variable registered_error : Z -> gmap string Py.value -> option string.
Variable py_int : string -> option Z.
Variable SECRET_KEY ALGORITHM : string.
Variable ACCESS_TOKEN_EXPIRE_MINUTES : Z.

Local Abbreviation create_access_token :=
  (create_access_token sign SECRET_KEY ALGORITHM ACCESS_TOKEN_EXPIRE_MINUTES).
Local Abbreviation verify_token :=
  (verify_token sign registered_ok registered_error py_int SECRET_KEY ALGORITHM).
Local Abbreviation decode :=
  (Jose.decode sign registered_ok registered_error py_int).

Lemma string_eqb_refl (s : string) : String.eqb s s = true.
Proof. by apply String.eqb_eq. Qed.

(** What [decode] can raise: the library's own errors, or the
    exception of a built-in. *)
Lemma decode_raises now tok key algs e :
  decode now tok key algs = Py.Raise e →
  Py.is_JWTError e = true ∨ e = Py.TypeError ∨ e = Py.UnicodeEncodeError.
Proof.
  unfold Jose.decode. destruct tok as [|raw|alg payload signature].
  - intros [= <-]. by right; right.
  - intros [= <-]. by left.
  - destruct (negb (bool_decide _)); [intros [= <-]; by left|].
    destruct (negb (String.eqb _ _)); [intros [= <-]; by left|].
    destruct (negb (registered_ok _ _)).
    { intros [= <-]. unfold Jose.registered_exn.
      destruct (registered_error _ _); [by left|by right; left]. }
    destruct (Jose.expiry_of py_int payload) as [| | |seconds].
    + done.
    + intros [= <-]. by left.
    + intros [= <-]. by right; left.
    + destruct (seconds <? Jose.timegm now); [intros [= <-]; by left|done].
Qed.

Lemma decode_Ok now tok key algs claims :
  decode now tok key algs = Py.Ok claims ↔
  ∃ alg, tok = Jose.Compact alg claims (sign key alg claims)
         ∧ alg ∈ algs
         ∧ Jose.unexpired py_int now claims
         ∧ registered_ok (Jose.timegm now) claims = true.
Proof.
  unfold Jose.decode, Jose.unexpired. split.
  - destruct tok as [|raw|alg payload signature]; [done|done|].
    destruct (bool_decide_reflect (alg ∈ algs)) as [Halg|]; cbn [negb]; [|done].
    destruct (String.eqb signature (sign key alg payload)) eqn:Hsig; cbn [negb]; [|done].
    apply String.eqb_eq in Hsig. subst signature.
    destruct (registered_ok _ _) eqn:Hreg; cbn [negb]; [|done].
    destruct (Jose.expiry_of py_int payload) as [| | |seconds] eqn:Hexp.
    + intros [= <-]. exists alg. by rewrite Hexp.
    + done.
    + done.
    + destruct (Z.ltb_spec seconds (Jose.timegm now)); [done|].
      intros [= <-]. exists alg. by rewrite Hexp.
  - intros (alg & -> & Halg & Hexp & Hreg).
    rewrite bool_decide_true by done. rewrite string_eqb_refl, Hreg. cbn [negb].
    destruct (Jose.expiry_of py_int claims) as [| | |seconds]; [done|done|done|].
    destruct (Z.ltb_spec seconds (Jose.timegm now)); [lia|done].
Qed.

Lemma decode_configured now tok claims :
  decode now tok SECRET_KEY [ALGORITHM] = Py.Ok claims ↔
  tok = Jose.Compact ALGORITHM claims (sign SECRET_KEY ALGORITHM claims)
  ∧ Jose.unexpired py_int now claims
  ∧ registered_ok (Jose.timegm now) claims = true.
Proof.
  rewrite decode_Ok. split.
  - intros (alg & -> & Halg%list_elem_of_singleton & ? & ?). by subst alg.
  - intros (-> & ? & ?). exists ALGORITHM. by rewrite list_elem_of_singleton.
Qed.

Lemma verify_token_Some now tok claims :
  verify_token now tok = Py.Ok (Some claims) ↔
  decode now tok SECRET_KEY [ALGORITHM] = Py.Ok claims.
Proof.
  unfold Identity.verify_token.
  destruct (decode now tok SECRET_KEY [ALGORITHM]) as [payload|e].
  - split; congruence.
  - destruct (Py.is_JWTError e); split; congruence.
Qed.

Lemma verify_token_None now tok :
  verify_token now tok = Py.Ok None ↔
  ∃ e, decode now tok SECRET_KEY [ALGORITHM] = Py.Raise e
       ∧ Py.is_JWTError e = true.
Proof.
  unfold Identity.verify_token.
  destruct (decode now tok SECRET_KEY [ALGORITHM]) as [payload|e].
  - split; [done|]. by intros (e & [=] & _).
  - destruct (Py.is_JWTError e) eqn:He; split; try done.
    + intros _. by exists e.
    + intros (e' & [= <-] & He'). congruence.
Qed.

Lemma verify_token_Raise now tok e :
  verify_token now tok = Py.Raise e ↔
  decode now tok SECRET_KEY [ALGORITHM] = Py.Raise e
  ∧ Py.is_JWTError e = false.
Proof.
  unfold Identity.verify_token.
  destruct (decode now tok SECRET_KEY [ALGORITHM]) as [payload|e0].
  - split; [done|]. by intros [[=] _].
  - destruct (Py.is_JWTError e0) eqn:He; split; try done.
    + intros [[= <-] He']. congruence.
    + intros [= <-]. done.
    + intros [[= <-] _]. done.
Qed.

(** [verify_token] lets through only what is not a [JWTError]. *)
Lemma verify_token_escapes now tok e :
  verify_token now tok = Py.Raise e →
  e = Py.TypeError ∨ e = Py.UnicodeEncodeError.
Proof.
  intros [Hdec He]%verify_token_Raise.
  apply decode_raises in Hdec as [Hj|H]; [congruence|done].
Qed.


Lemma numeric_dates_insert_exp (data : gmap string Py.value) expire :
  Jose.json_ready data →
  map_imap (λ k v, Some (Jose.numeric_date k v))
           (<[ "exp" := Py.VDatetime expire ]> data)
  = <[ "exp" := Py.VInt (Jose.timegm expire) ]> data.
Proof.
  intros Hdata. apply map_eq. intros k. rewrite map_lookup_imap.
  destruct (decide (k = "exp")) as [->|Hk].
  - by rewrite !lookup_insert_eq.
  - rewrite !lookup_insert_ne by done.
    destruct (data !! k) as [v|] eqn:Hv; [|done]. cbn.
    apply Hdata in Hv. by destruct v.
Qed.

Lemma json_ready_insert_int (data : gmap string Py.value) k n :
  Jose.json_ready data → Jose.json_ready (<[ k := Py.VInt n ]> data).
Proof. intros Hdata. by apply map_Forall_insert_2. Qed.

(** The duration [create_access_token] adds to the clock, when the
    arithmetic stays within what [timedelta] and [datetime] hold. *)
Lemma create_access_token_eq now (data : gmap string Py.value) expires_delta :
  Jose.json_ready data →
  let expire :=
    now + Py.or_delta expires_delta
            (Py.timedelta_minutes ACCESS_TOKEN_EXPIRE_MINUTES) in
  let claims := <[ "exp" := Py.VInt (Jose.timegm expire) ]> data in
  create_access_token now data expires_delta =
  if negb (Py.delta_truthy expires_delta)
     && negb (Py.timedelta_ok (Py.timedelta_minutes ACCESS_TOKEN_EXPIRE_MINUTES))
     || negb (Py.datetime_ok expire)
  then Py.Raise Py.OverflowError
  else Py.Ok (Jose.Compact ALGORITHM claims (sign SECRET_KEY ALGORITHM claims)).
Proof.
  intros Hdata expire claims.
  unfold Identity.create_access_token, Jose.encode.
  destruct (negb (Py.delta_truthy expires_delta) && _); [done|]. cbn [orb].
  fold expire. destruct (negb (Py.datetime_ok expire)); [done|].
  rewrite numeric_dates_insert_exp by done. fold claims.
  rewrite bool_decide_true; [done|]. by apply json_ready_insert_int.
Qed.

Lemma verify_minted now (claims : gmap string Py.value) seconds :
  claims !! "exp" = Some (Py.VInt seconds) →
  registered_ok (Jose.timegm now) claims = true →
  verify_token now
    (Jose.Compact ALGORITHM claims (sign SECRET_KEY ALGORITHM claims))
  = Py.Ok (if Jose.timegm now <=? seconds then Some claims else None).
Proof.
  intros Hexp Hreg. unfold Identity.verify_token, Jose.decode, Jose.expiry_of.
  rewrite Hexp, Hreg.
  rewrite bool_decide_true by (by apply list_elem_of_singleton).
  rewrite string_eqb_refl. cbn [negb].
  destruct (Z.ltb_spec seconds (Jose.timegm now)),
           (Z.leb_spec (Jose.timegm now) seconds); try lia; done.
Qed.

Lemma verify_expired now (claims : gmap string Py.value) seconds c :
  claims !! "exp" = Some (Py.VInt seconds) →
  seconds < Jose.timegm now →
  verify_token now
    (Jose.Compact ALGORITHM claims (sign SECRET_KEY ALGORITHM claims))
  ≠ Py.Ok (Some c).
Proof.
  intros Hexp Hlate H.
  apply verify_token_Some, decode_configured in H as (Heq & Hun & _).
  injection Heq as <- _.
  unfold Jose.unexpired, Jose.expiry_of in Hun. rewrite Hexp in Hun. lia.
Qed.

Lemma timegm_mono a b : a ≤ b → Jose.timegm a ≤ Jose.timegm b.
Proof. intros H. unfold Jose.timegm. by apply Z.div_le_mono. Qed.

Lemma timegm_next a b : a + 1000000 ≤ b → Jose.timegm a < Jose.timegm b.
Proof.
  intros H. unfold Jose.timegm.
  assert (a / 1000000 + 1 ≤ b / 1000000); [|lia].
  rewrite <- (Z.div_add a 1 1000000) by lia.
  apply Z.div_le_mono; lia.
Qed.


End TokenFacts.

Section TokenScenarios.
Import Identity.

Local Abbreviation mint := (create_access_token Jose.plain_sign "secret" "HS256" 30).
Local Abbreviation check :=
  (verify_token Jose.plain_sign Jose.subject_is_string Jose.subject_message
     Py.decimal "secret" "HS256").



(** [verify_token] at two inputs on which it raises: a string that
    cannot be encoded, and a token signed with the server's key whose
    expiry claim is [null]. *)
Lemma verify_token_raises :
  check 0 Jose.Unencodable = Py.Raise Py.UnicodeEncodeError
  ∧ check 0
      (Jose.Compact "HS256" {[ "exp" := Py.VNull ]}
         (Jose.plain_sign "secret" "HS256" {[ "exp" := Py.VNull ]}))
    = Py.Raise Py.TypeError.
Proof. split; vm_compute; reflexivity. Qed.

End TokenScenarios.

(** ** Authentication and registration *)

Section AccountFacts.
Import Identity.
Variable pwd_hash : string -> string -> Py.result string.
Variable pwd_verify : string -> string -> Py.result bool.
Variable pick : list (nat * User) -> nat.
Variable operational : list User -> bool.

Local Abbreviation authenticate_user := (authenticate_user pwd_verify pick).
Local Abbreviation register_user := (register_user pwd_hash).
Local Abbreviation register_authority := (register_authority pwd_hash operational).

Lemma select_elem (P : User → Prop) `{!∀ u, Decision (P u)} (db : list User) row u :
  (row, u) ∈ select P db ↔ db !! row = Some u ∧ P u.
Proof.
  unfold select. rewrite list_elem_of_filter, elem_of_lookup_imap. cbn. split.
  - intros [HP (i & y & [= -> ->] & Hi)]. done.
  - intros [Hrow HP]. split; [done|]. by exists row, u.
Qed.

Lemma select_nil (P : User → Prop) `{!∀ u, Decision (P u)} (db : list User) :
  select P db = [] ↔ ∀ u, u ∈ db → ¬ P u.
Proof.
  split.
  - intros Hnil u [row Hrow]%list_elem_of_lookup HP.
    assert (Hin : (row, u) ∈ select P db) by (by apply select_elem).
    rewrite Hnil in Hin. by apply elem_of_nil in Hin.
  - intros Hnone. destruct (select P db) as [|[row u] rest] eqn:Hsel; [done|].
    assert (Hin : (row, u) ∈ select P db) by (rewrite Hsel; left).
    apply select_elem in Hin as [Hrow HP].
    destruct (Hnone u); [by eapply list_elem_of_lookup_2|done].
Qed.

Lemma first_elem rows x : first pick rows = Some x → x ∈ rows.
Proof. unfold first. apply list_elem_of_lookup_2. Qed.

Lemma first_None rows : first pick rows = None ↔ rows = [].
Proof.
  unfold first. split.
  - intros Hnone%lookup_ge_None. destruct rows as [|x rest]; [done|].
    pose proof (Nat.mod_upper_bound (pick (x :: rest)) (length (x :: rest)))
      as Hlt. cbn [length] in *. lia.
  - by intros ->.
Qed.

(** The row [.first()] yields for a filter is a stored row that
    satisfies it; it yields none exactly when no row satisfies it. *)
Lemma first_select_Some (P : User → Prop) `{!∀ u, Decision (P u)}
    (db : list User) row u :
  first pick (select P db) = Some (row, u) → db !! row = Some u ∧ P u.
Proof. intros Hin%first_elem. by apply select_elem in Hin. Qed.

Lemma first_select_None (P : User → Prop) `{!∀ u, Decision (P u)}
    (db : list User) :
  first pick (select P db) = None ↔ ∀ u, u ∈ db → ¬ P u.
Proof. by rewrite first_None, select_nil. Qed.

(** What [authenticate_user] does to the store: nothing, unless it
    returns a subject, and then it replaces the matched row by the
    returned one. *)
Lemma authenticate_user_store now (db : list User) identifier password :
  let out := authenticate_user now db identifier password in
  ((out.1 = Py.Ok None ∨ ∃ e, out.1 = Py.Raise e) ∧ out.2 = db)
  ∨ ∃ row u, db !! row = Some u
             ∧ identified_by identifier u ∧ is_active u = true
             ∧ out.1 = Py.Ok (Some (with_last_login now u))
             ∧ out.2 = <[ row := with_last_login now u ]> db.
Proof.
  cbn zeta. unfold Identity.authenticate_user.
  destruct (first pick (select (identified_by identifier) db))
    as [[row u]|] eqn:Hchosen; [|left; split; [by left|done]].
  apply first_select_Some in Hchosen as [Hrow Hu].
  destruct (password_hash u) as [hash| |];
    [|left; split; [by left|done]..].
  destruct (verify_password pwd_verify password hash) as [[|]|e]; cbn [negb].
  - destruct (is_active u) eqn:Hact; cbn [negb].
    + right. by exists row, u.
    + left. split; [by left|done].
  - left. split; [by left|done].
  - left. split; [right; by exists e|done].
Qed.

(** C4 (as the code behaves).  [authenticate_user] takes the row the
    database yields among those whose phone number or email equals the
    identifier.  It returns [None], leaving the store as it was, exactly
    when no row matches, or the row's stored hash is not a string, or
    the password library answers that the password does not verify, or
    it verifies and the row is inactive.  It returns the row, with its
    last-login instant set to the current time and stored in place of
    the old one, exactly when the password verifies and the row is
    active.  When the password library raises (it refuses a stored
    string that is no hash, and a password that it cannot hash), the
    exception leaves [authenticate_user], which has no handler for it;
    the store is left as it was. *)
Theorem authenticate_user_outcomes now (db : list User) identifier password :
  let chosen := first pick (select (identified_by identifier) db) in
  let out := authenticate_user now db identifier password in
  (chosen = None ↔ ∀ u, u ∈ db → ¬ identified_by identifier u)
  ∧ (∀ row u, chosen = Some (row, u) →
       db !! row = Some u ∧ identified_by identifier u)
  ∧ (out.1 = Py.Ok None ↔
       chosen = None
       ∨ ∃ row u,
           chosen = Some (row, u)
           ∧ ((∀ hash, password_hash u ≠ HashStr hash)
              ∨ ∃ hash, password_hash u = HashStr hash
                        ∧ (verify_password pwd_verify password hash = Py.Ok false
                           ∨ (verify_password pwd_verify password hash
                              = Py.Ok true
                              ∧ is_active u = false))))
  ∧ (∀ e, out.1 = Py.Raise e ↔
       ∃ row u hash,
         chosen = Some (row, u)
         ∧ password_hash u = HashStr hash
         ∧ verify_password pwd_verify password hash = Py.Raise e)
  ∧ (∀ subject, out.1 = Py.Ok (Some subject) ↔
       ∃ row u hash,
         chosen = Some (row, u)
         ∧ password_hash u = HashStr hash
         ∧ verify_password pwd_verify password hash = Py.Ok true
         ∧ is_active u = true
         ∧ subject = with_last_login now u)
  ∧ (out.1 = Py.Ok None ∨ (∃ e, out.1 = Py.Raise e) → out.2 = db)
  ∧ (∀ subject, out.1 = Py.Ok (Some subject) →
       ∃ row u,
         chosen = Some (row, u)
         ∧ subject = with_last_login now u
         ∧ last_login subject = Some now
         ∧ out.2 = <[ row := subject ]> db).
Proof.
  intros chosen out.
  split; [apply first_select_None|].
  split; [intros row u; apply first_select_Some|].
  subst chosen out. unfold Identity.authenticate_user.
  destruct (first pick (select (identified_by identifier) db))
    as [[row u]|] eqn:Hchosen.
  2:{ cbn [fst snd]. split; [|split; [|split; [|split]]].
      - split; [by left|done].
      - intros e. split; [done|]. by intros (? & ? & ? & [=] & _).
      - intros subject. split; [done|]. by intros (? & ? & ? & [=] & _).
      - done.
      - done. }
  destruct (password_hash u) as [hash| |] eqn:Hhash.
  2,3: cbn [fst snd]; (split; [|split; [|split; [|split]]]);
    [ split; [|done]; intros _; right; exists row, u; split; [done|];
      left; congruence
    | intros e; split; [done|]; intros (? & ? & ? & [= <- <-] & ? & _);
      congruence
    | intros subject; split; [done|];
      intros (? & ? & ? & [= <- <-] & ? & _); congruence
    | done
    | done ].
  destruct (verify_password pwd_verify password hash) as [[|]|e0] eqn:Hpw;
    cbn [negb].
  - destruct (is_active u) eqn:Hact; cbn [negb fst snd].
    + split; [|split; [|split; [|split]]].
      * split; [done|]. intros [[=]|(row' & u' & [= <- <-] & Hcase)].
        destruct Hcase as [Hno|(hash' & Hh & [Hv|[_ Ha]])].
        -- by destruct (Hno hash).
        -- congruence.
        -- congruence.
      * intros e. split; [done|].
        intros (? & ? & ? & [= <- <-] & ? & ?). congruence.
      * intros subject. split.
        -- intros [= <-]. by exists row, u, hash.
        -- intros (? & ? & ? & [= <- <-] & _ & _ & _ & ->). done.
      * intros [[=]|[e [=]]].
      * intros subject [= <-]. by exists row, u.
    + split; [|split; [|split; [|split]]].
      * split; [|done]. intros _. right. exists row, u. split; [done|].
        right. exists hash. split; [done|]. by right.
      * intros e. split; [done|].
        intros (? & ? & ? & [= <- <-] & ? & ?). congruence.
      * intros subject. split; [done|].
        intros (? & ? & ? & [= <- <-] & _ & _ & ? & _). congruence.
      * done.
      * done.
  - cbn [fst snd]. split; [|split; [|split; [|split]]].
    + split; [|done]. intros _. right. exists row, u. split; [done|].
      right. exists hash. split; [done|]. by left.
    + intros e. split; [done|].
      intros (? & ? & ? & [= <- <-] & ? & ?). congruence.
    + intros subject. split; [done|].
      intros (? & ? & ? & [= <- <-] & ? & ? & _). congruence.
    + done.
    + done.
  - cbn [fst snd]. split; [|split; [|split; [|split]]].
    + split; [done|]. intros [[=]|(row' & u' & [= <- <-] & Hcase)].
      destruct Hcase as [Hno|(hash' & Hh & [Hv|[Hv _]])].
      * by destruct (Hno hash).
      * congruence.
      * congruence.
    + intros e. split.
      * intros [= <-]. by exists row, u, hash.
      * intros (? & ? & ? & [= <- <-] & ? & ?). congruence.
    + intros subject. split; [done|].
      intros (? & ? & ? & [= <- <-] & ? & ? & _). congruence.
    + done.
    + done.
Qed.

Lemma found_first_where (P : User → Prop) `{!∀ u, Decision (P u)} (db : list User) :
  found (first_where P db) = true ↔ ∃ u, u ∈ db ∧ P u.
Proof.
  unfold first_where.
  destruct (list_find P db) as [[row u]|] eqn:Hfind; cbn.
  - split; [|done]. intros _. apply list_find_Some in Hfind as (Hrow & Hu & _).
    exists u. split; [by eapply list_elem_of_lookup_2|done].
  - split; [done|]. intros (u & Hin & Hu).
    apply list_find_None in Hfind. by eapply Forall_forall in Hfind.
Qed.

Lemma found_phone db phone :
  found (first_where (λ u, phone_number u = phone) db) = true ↔ phone_taken db phone.
Proof. apply found_first_where. Qed.

Lemma found_email db mail :
  found (first_where (λ u, email u = Some mail) db) = true ↔ email_taken db mail.
Proof. apply found_first_where. Qed.

Lemma not_found (P : User → Prop) `{!∀ u, Decision (P u)} (db : list User) :
  ¬ (∃ u, u ∈ db ∧ P u) → found (first_where P db) = false.
Proof.
  intros Hn. destruct (found (first_where P db)) eqn:E; [|done].
  by apply found_first_where in E.
Qed.

Lemma truthy_Some e : Py.truthy (Some e) = true ↔ e ≠ "".
Proof.
  cbn. unfold Py.str_truthy. destruct (String.eqb_spec e "") as [->|Hne]; cbn.
  - split; [discriminate|]. intros H. by destruct H.
  - by split.
Qed.

Lemma register_user_conflict db salt name phone password mail address :
  phone_taken db phone ∨ supplied_and_taken db mail →
  ∃ msg, register_user db salt name phone password mail address
         = (Py.Ok (Conflict msg), db).
Proof.
  intros Hc. unfold Identity.register_user.
  destruct (found (first_where (λ u, phone_number u = phone) db)) eqn:Hp;
    [by eexists|].
  destruct Hc as [Hc|(e & -> & He & Ht)].
  - apply found_phone in Hc. congruence.
  - apply truthy_Some in He. apply found_email in Ht. rewrite He, Ht. by eexists.
Qed.

Lemma register_authority_conflict db salt name position route phone mail password :
  phone_taken db phone ∨ email_taken db mail →
  ∃ msg, register_authority db salt name position route phone mail password
         = (Py.Ok (Conflict msg), db).
Proof.
  intros Hc. unfold Identity.register_authority.
  destruct (found (first_where (λ u, phone_number u = phone) db)) eqn:Hp;
    [by eexists|].
  destruct Hc as [Hc|Hc].
  - apply found_phone in Hc. congruence.
  - apply found_email in Hc. rewrite Hc. by eexists.
Qed.

Lemma elem_of_snoc (db : list User) (u : User) : u ∈ db ++ [u].
Proof. apply elem_of_app. right. by apply list_elem_of_singleton. Qed.

(** The ways a citizen registration ends. *)
Lemma register_user_cases db salt name phone password mail address :
  let out := register_user db salt name phone password mail address in
  (∃ msg, out = (Py.Ok (Conflict msg), db)
          ∧ (phone_taken db phone ∨ supplied_and_taken db mail))
  ∨ (∃ e, out = (Py.Raise e, db)
          ∧ get_password_hash pwd_hash salt password = Py.Raise e
          ∧ ¬ phone_taken db phone ∧ ¬ supplied_and_taken db mail)
  ∨ (∃ u hash, out = (Py.Ok (Registered u), db ++ [u])
               ∧ get_password_hash pwd_hash salt password = Py.Ok hash
               ∧ password_hash u = HashStr hash
               ∧ is_active u = true
               ∧ phone_number u = phone ∧ email u = mail
               ∧ user_type u = RoleEnum USER
               ∧ ¬ phone_taken db phone ∧ ¬ supplied_and_taken db mail).
Proof.
  cbn zeta. unfold Identity.register_user.
  destruct (found (first_where (λ u, phone_number u = phone) db)) eqn:Hp.
  { left. eexists. split; [done|]. left. by apply found_phone. }
  assert (Hnp : ¬ phone_taken db phone).
  { intros H%found_phone. congruence. }
  destruct (Py.truthy mail && found (first_where (λ u, email u = mail) db)) eqn:E.
  { left. eexists. split; [done|]. right.
    apply andb_true_iff in E as [Ht Hf]. destruct mail as [e|]; [|done].
    exists e. split; [done|]. split; [by apply truthy_Some|].
    by apply found_email. }
  assert (Hnm : ¬ supplied_and_taken db mail).
  { intros (e & -> & He%truthy_Some & Ht%found_email). by rewrite He, Ht in E. }
  right. destruct (get_password_hash pwd_hash salt password) as [hash|e].
  - right. eexists _, hash. done.
  - left. by exists e.
Qed.

(** The ways an authority registration ends. *)
Lemma register_authority_cases db salt name position route phone mail password :
  let out := register_authority db salt name position route phone mail password in
  (∃ msg, out = (Py.Ok (Conflict msg), db)
          ∧ (phone_taken db phone ∨ email_taken db mail))
  ∨ (∃ e, out = (Py.Raise e, db)
          ∧ ¬ phone_taken db phone ∧ ¬ email_taken db mail
          ∧ (get_password_hash pwd_hash salt password = Py.Raise e
             ∨ (e = Py.OperationalError
                ∧ ∃ hash u, get_password_hash pwd_hash salt password = Py.Ok hash
                            ∧ operational (db ++ [u]) = true)))
  ∨ (∃ u hash, out = (Py.Ok (Registered u), db ++ [u])
               ∧ get_password_hash pwd_hash salt password = Py.Ok hash
               ∧ operational (db ++ [u]) = false
               ∧ password_hash u = HashStr hash
               ∧ is_active u = true
               ∧ phone_number u = phone ∧ email u = Some mail
               ∧ user_type u = RoleEnum AUTHORITY
               ∧ ¬ phone_taken db phone ∧ ¬ email_taken db mail).
Proof.
  cbn zeta. unfold Identity.register_authority.
  destruct (found (first_where (λ u, phone_number u = phone) db)) eqn:Hp.
  { left. eexists. split; [done|]. left. by apply found_phone. }
  assert (Hnp : ¬ phone_taken db phone).
  { intros H%found_phone. congruence. }
  destruct (found (first_where (λ u, email u = Some mail) db)) eqn:E.
  { left. eexists. split; [done|]. right. by apply found_email. }
  assert (Hnm : ¬ email_taken db mail).
  { intros H%found_email. congruence. }
  right. destruct (get_password_hash pwd_hash salt password) as [hash|e].
  - destruct (operational _) eqn:Hop.
    + left. exists Py.OperationalError. split; [done|]. split; [done|].
      split; [done|]. right. split; [done|]. by eexists hash, _.
    + right. eexists _, hash. done.
  - left. exists e. split; [done|]. split; [done|]. split; [done|]. by left.
Qed.

(** A conflict is met before the password is hashed: it does not depend
    on the salt drawn. *)
Lemma register_user_conflict_salt db salt salt' name phone password mail
    address msg db1 :
  register_user db salt name phone password mail address
  = (Py.Ok (Conflict msg), db1) →
  register_user db salt' name phone password mail address
  = (Py.Ok (Conflict msg), db).
Proof.
  unfold Identity.register_user.
  destruct (found (first_where (λ u, phone_number u = phone) db));
    [by intros [= <- _]|].
  destruct (Py.truthy mail && _); [by intros [= <- _]|].
  by destruct (get_password_hash pwd_hash salt password).
Qed.

Lemma register_authority_conflict_salt db salt salt' name position route phone
    mail password msg db1 :
  register_authority db salt name position route phone mail password
  = (Py.Ok (Conflict msg), db1) →
  register_authority db salt' name position route phone mail password
  = (Py.Ok (Conflict msg), db).
Proof.
  unfold Identity.register_authority.
  destruct (found (first_where (λ u, phone_number u = phone) db));
    [by intros [= <- _]|].
  destruct (found (first_where (λ u, email u = Some mail) db));
    [by intros [= <- _]|].
  destruct (get_password_hash pwd_hash salt password); [|done].
  by destruct (operational _).
Qed.

(** Two registrations in a row with the same fields: at most one of
    them writes. *)
Lemma register_user_again db salt salt' name phone password mail address :
  let first_run := register_user db salt name phone password mail address in
  let second_run :=
    register_user first_run.2 salt' name phone password mail address in
  (∀ u, first_run.1 = Py.Ok (Registered u) →
        ∃ msg, second_run = (Py.Ok (Conflict msg), first_run.2))
  ∧ (∀ msg, first_run.1 = Py.Ok (Conflict msg) →
            second_run = (Py.Ok (Conflict msg), db))
  ∧ (second_run.2 = first_run.2 ∨ first_run.2 = db).
Proof.
  intros first_run second_run. subst second_run first_run.
  destruct (register_user_cases db salt name phone password mail address)
    as [(msg & Hc & Hwhy)|[(e & He & _)|(u & hash & Hr & _ & _ & _ & Hphone & _)]];
    cbn zeta in *.
  - rewrite Hc. cbn [fst snd]. split; [done|]. split; [|by right].
    intros msg' [= <-]. by eapply register_user_conflict_salt.
  - rewrite He. cbn [fst snd]. split; [done|]. split; [done|]. by right.
  - rewrite Hr. cbn [fst snd].
    destruct (register_user_conflict (db ++ [u]) salt' name phone password
                mail address) as [msg Hsecond].
    { left. exists u. split; [apply elem_of_snoc|done]. }
    rewrite Hsecond. split; [intros ? _; by exists msg|].
    split; [done|by left].
Qed.

Lemma register_authority_again db salt salt' name position route phone mail
    password :
  let first_run :=
    register_authority db salt name position route phone mail password in
  let second_run :=
    register_authority first_run.2 salt' name position route phone mail
      password in
  (∀ u, first_run.1 = Py.Ok (Registered u) →
        ∃ msg, second_run = (Py.Ok (Conflict msg), first_run.2))
  ∧ (∀ msg, first_run.1 = Py.Ok (Conflict msg) →
            second_run = (Py.Ok (Conflict msg), db))
  ∧ (second_run.2 = first_run.2 ∨ first_run.2 = db).
Proof.
  intros first_run second_run. subst second_run first_run.
  destruct (register_authority_cases db salt name position route phone mail
              password)
    as [(msg & Hc & Hwhy)|[(e & He & _)|(u & hash & Hr & _ & _ & _ & _ & Hphone & _)]];
    cbn zeta in *.
  - rewrite Hc. cbn [fst snd]. split; [done|]. split; [|by right].
    intros msg' [= <-]. by eapply register_authority_conflict_salt.
  - rewrite He. cbn [fst snd]. split; [done|]. split; [done|]. by right.
  - rewrite Hr. cbn [fst snd].
    destruct (register_authority_conflict (db ++ [u]) salt' name position route
                phone mail password) as [msg Hsecond].
    { left. exists u. split; [apply elem_of_snoc|done]. }
    rewrite Hsecond. split; [intros ? _; by exists msg|].
    split; [done|by left].
Qed.


End AccountFacts.

Section AccountScenarios.
Import Identity.

Local Abbreviation authenticate := (authenticate_user plain_verify in_storage_order).

(** The scenarios of the specification: a wrong password, an unknown
    identifier and an inactive subject end in [None]; the right
    credentials end in the subject, whose last login is stored. *)
Lemma authenticate_user_outcomes_witness :
  (authenticate 77 seeded "555-0100" "wrong").1 = Py.Ok None
  ∧ (authenticate 77 seeded "nobody" "correct").1 = Py.Ok None
  ∧ (authenticate 77 (deactivate 1 seeded) "555-0100" "correct").1 = Py.Ok None
  ∧ ∃ row u,
      first in_storage_order (select (identified_by "ada@example.org") seeded)
      = Some (row, u)
      ∧ with_last_login 77 citizen = with_last_login 77 u
      ∧ last_login (with_last_login 77 citizen) = Some 77
      ∧ (authenticate 77 seeded "ada@example.org" "correct").2
        = <[ row := with_last_login 77 citizen ]> seeded.
Proof.
  split; [reflexivity|]. split; [reflexivity|]. split; [reflexivity|].
  exact (proj2 (proj2 (proj2 (proj2 (proj2 (proj2
    (authenticate_user_outcomes plain_verify in_storage_order 77 seeded
       "ada@example.org" "correct"))))))
    (with_last_login 77 citizen) eq_refl).
Defined.

(** Two requests on which [authenticate_user] raises: a password that
    holds a NUL byte, for a subject whose stored hash is well formed,
    and any password for a subject whose stored hash is a string that
    is no hash. *)
Lemma authenticate_user_raises :
  authenticate 77 seeded "555-0100" NUL
  = (Py.Raise (Py.ValueError "secret contains NULL byte"), seeded)
  ∧ authenticate 77 (seeded ++ [legacy]) "555-0103" "correct"
    = (Py.Raise (Py.ValueError "hash could not be identified"),
       seeded ++ [legacy]).
Proof. split; reflexivity. Qed.


(** A registration whose password holds a NUL byte raises and writes
    nothing; a conflict-free one appends one row. *)
Lemma register_user_scenarios :
  register_user plain_hash seeded "s3" "Bob" "555-0109" NUL None None
  = (Py.Raise (Py.ValueError "secret contains NULL byte"), seeded)
  ∧ ∃ u, register_user plain_hash seeded "s3" "Bob" "555-0109" "hunter2" None None
         = (Py.Ok (Registered u), seeded ++ [u])
         ∧ password_hash u = HashStr ("$2b$" +:+ "s3" +:+ "$" +:+ "hunter2")
         ∧ is_active u = true.
Proof. split; [reflexivity|]. eexists. split; [reflexivity|]. by split. Qed.

End AccountScenarios.

(** ** Role checks *)

Section GateFacts.
Import Identity.
Variable role_value : UserType -> string.

Local Abbreviation current_role := (current_role role_value).
Local Abbreviation require_role := (require_role role_value).
Local Abbreviation require_any_role := (require_any_role role_value).

Lemma require_role_eq required (u : User) :
  require_role required u =
  if decide (current_role u = Some required) then Py.Ok u else Py.Raise forbidden.
Proof.
  unfold Identity.require_role.
  destruct (decide (current_role u = Some required)) as [He|Hne].
  - by rewrite bool_decide_false by (intros H; by apply H).
  - by rewrite bool_decide_true.
Qed.

Lemma role_in_allowed (role : option UserType) (allowed : list UserType) :
  role ∈ (Some <$> allowed) ↔ ∃ r, r ∈ allowed ∧ role = Some r.
Proof.
  rewrite list_elem_of_fmap. split.
  - intros (r & -> & Hr). by exists r.
  - intros (r & Hr & ->). by exists r.
Qed.

Lemma require_any_role_eq allowed (u : User) :
  require_any_role allowed u =
  if decide (allowed = [] ∨ current_role u ∈ (Some <$> allowed))
  then Py.Ok u else Py.Raise forbidden.
Proof.
  unfold Identity.require_any_role.
  destruct (decide (allowed = [])) as [->|Hne].
  - rewrite decide_True by (by left). done.
  - rewrite (bool_decide_false (allowed = [])) by done. cbn [negb andb].
    destruct (decide (current_role u ∈ (Some <$> allowed))) as [Hin|Hout].
    + rewrite bool_decide_false by (intros H; by apply H).
      rewrite decide_True; [done|]. by right.
    + rewrite bool_decide_true by done.
      rewrite decide_False; [done|]. by intros [?|H].
Qed.

Lemma require_any_role_nil (u : User) : require_any_role [] u = Py.Ok u.
Proof. reflexivity. Qed.

(** C6 (as amended).  The single-role checker returns the subject
    exactly when the role it reads equals the required role and raises
    the 403 answer otherwise.  The multi-role checker, given at least
    one allowed role, returns the subject exactly when the role it reads
    is among the allowed ones and raises the 403 answer otherwise.  A
    subject whose role attribute names no member of the enumeration is
    refused by the single-role checker and by every multi-role checker
    with at least one allowed role.  A checker for AUTHORITY refuses a
    USER subject and admits an AUTHORITY subject; a checker for USER and
    AUTHORITY admits both. *)
Theorem role_gates required allowed (u : User) :
  (require_role required u = Py.Ok u ↔ current_role u = Some required)
  ∧ (require_role required u = Py.Raise forbidden ↔
     current_role u ≠ Some required)
  ∧ (allowed ≠ [] →
     (require_any_role allowed u = Py.Ok u ↔
      ∃ r, r ∈ allowed ∧ current_role u = Some r)
     ∧ (require_any_role allowed u = Py.Raise forbidden ↔
        ¬ ∃ r, r ∈ allowed ∧ current_role u = Some r))
  ∧ (current_role u = None →
     require_role required u = Py.Raise forbidden
     ∧ (allowed ≠ [] → require_any_role allowed u = Py.Raise forbidden))
  ∧ (user_type u = RoleEnum USER →
     require_role AUTHORITY u = Py.Raise forbidden
     ∧ require_any_role [USER; AUTHORITY] u = Py.Ok u)
  ∧ (user_type u = RoleEnum AUTHORITY →
     require_role AUTHORITY u = Py.Ok u
     ∧ require_any_role [USER; AUTHORITY] u = Py.Ok u).
Proof.
  split; [|split; [|split; [|split; [|split]]]].
  - rewrite require_role_eq. by destruct (decide _).
  - rewrite require_role_eq. by destruct (decide _).
  - intros Hne. rewrite require_any_role_eq.
    destruct (decide _) as [[?|Hin%role_in_allowed]|Hout]; [done| |].
    + split; [by split|]. split; [done|]. intros H. by destruct H.
    + split; [split; [done|]|split; [|done]].
      * intros Hin%role_in_allowed. destruct Hout. by right.
      * intros _ Hin%role_in_allowed. apply Hout. by right.
  - intros Hnone. split.
    + rewrite require_role_eq, decide_False; [done|congruence].
    + intros Hne. rewrite require_any_role_eq, decide_False; [done|].
      intros [?|(r & _ & Hr)%role_in_allowed]; [done|congruence].
  - intros Hu. unfold Identity.require_role, Identity.require_any_role,
      Identity.current_role. rewrite Hu. split; reflexivity.
  - intros Hu. unfold Identity.require_role, Identity.require_any_role,
      Identity.current_role. rewrite Hu. split; reflexivity.
Qed.

End GateFacts.

(** ** The current user, the login route and deactivation *)

Section SessionFacts.
Import Identity.
Variable sign : string -> string -> gmap string Py.value -> string.
Variable registered_ok : Z -> gmap string Py.value -> bool.
Variable registered_error : Z -> gmap string Py.value -> option string.
Variable py_int : string -> option Z.
Variable SECRET_KEY ALGORITHM : string.
Variable ACCESS_TOKEN_EXPIRE_MINUTES : Z.
Variable pwd_verify : string -> string -> Py.result bool.
Variable role_value : UserType -> string.
Variable pick : list (nat * User) -> nat.
Variable key_ok : Z -> bool.
Variable str_exn : Py.exn -> string.

Local Abbreviation verify_token :=
  (verify_token sign registered_ok registered_error py_int SECRET_KEY ALGORITHM).
Local Abbreviation get_current_user :=
  (get_current_user sign registered_ok registered_error py_int SECRET_KEY
     ALGORITHM key_ok).
Local Abbreviation guarded :=
  (guarded sign registered_ok registered_error py_int SECRET_KEY ALGORITHM
     key_ok).
Local Abbreviation login :=
  (login sign SECRET_KEY ALGORITHM ACCESS_TOKEN_EXPIRE_MINUTES pwd_verify
     role_value pick str_exn).
Local Abbreviation authenticate_user := (authenticate_user pwd_verify pick).

Lemma first_where_Some (P : User → Prop) `{!∀ u, Decision (P u)} db u :
  first_where P db = Some u →
  u ∈ db ∧ P u.
Proof.
  unfold first_where. destruct (list_find P db) as [[row v]|] eqn:Hfind; [|done].
  intros [= <-]. apply list_find_Some in Hfind as (Hrow & Hv & _).
  split; [by eapply list_elem_of_lookup_2|done].
Qed.

Lemma db_get_Some db key u :
  db_get key_ok db key = Py.Ok (Some u) → u ∈ db ∧ id u = key.
Proof.
  unfold db_get.
  destruct (first_where (λ v, id v = key) db) as [v|] eqn:Hfind.
  - intros [= <-]. by apply first_where_Some in Hfind.
  - by destruct (key_ok key).
Qed.

Lemma db_get_Raise db key e :
  db_get key_ok db key = Py.Raise e →
  e = Py.OverflowError ∧ key_ok key = false ∧ ∀ u, u ∈ db → id u ≠ key.
Proof.
  unfold db_get, first_where.
  destruct (list_find (λ v, id v = key) db) as [[row v]|] eqn:Hfind; [done|].
  cbn. destruct (key_ok key); [done|]. intros [= <-].
  split; [done|]. split; [done|]. intros u Hu.
  apply list_find_None in Hfind. by eapply Forall_forall in Hfind.
Qed.

(** What [get_current_user] raises: a 401 answer of its own, or what
    escapes [verify_token] or [db.get]. *)
Lemma get_current_user_raises now credentials db e :
  get_current_user now credentials db = Py.Raise e →
  (∃ detail, e = Py.HTTPException 401 detail)
  ∨ e = Py.TypeError ∨ e = Py.UnicodeEncodeError ∨ e = Py.OverflowError.
Proof.
  unfold Identity.get_current_user.
  destruct credentials as [tok|]; [|intros [= <-]; left; by eexists].
  destruct (verify_token now tok) as [payload|e0] eqn:Hver.
  2:{ intros [= <-]. right.
      apply verify_token_escapes in Hver as [->| ->]; [by left|right; by left]. }
  destruct (negb (payload_truthy _)); [intros [= <-]; left; by eexists|].
  destruct (negb (Py.value_truthy _)); [intros [= <-]; left; by eexists|].
  destruct (int_of py_int _) as [key|]; [|intros [= <-]; left; by eexists].
  destruct (db_get key_ok db key) as [[u|]|e0] eqn:Hget.
  - destruct (is_active u); [done|intros [= <-]; left; by eexists].
  - intros [= <-]; left; by eexists.
  - intros [= <-]. apply db_get_Raise in Hget as (-> & _). by do 3 right.
Qed.

Lemma get_current_user_not_forbidden now credentials db :
  get_current_user now credentials db ≠ Py.Raise forbidden.
Proof.
  intros He. by apply get_current_user_raises in He as [[? [=]]|[[=]|[[=]|[=]]]].
Qed.

Lemma get_current_user_active now credentials db u :
  get_current_user now credentials db = Py.Ok u →
  is_active u = true.
Proof.
  unfold Identity.get_current_user.
  destruct credentials as [tok|]; [|done].
  destruct (verify_token now tok) as [payload|e0]; [|done].
  destruct (negb (payload_truthy _)); [done|].
  destruct (negb (Py.value_truthy _)); [done|].
  destruct (int_of py_int _) as [n|]; [|done].
  destruct (db_get key_ok db n) as [[v|]|e0]; [|done..].
  destruct (is_active v) eqn:Hact; [|done].
  by intros [= <-].
Qed.

(** C10.  With no allowed role the multi-role checker returns every
    subject it is given, whatever the role; behind [get_current_user]
    it answers exactly as [get_current_user] does, so never with the
    403 answer. *)
Theorem require_any_role_empty_allows (u : User) now credentials db :
  require_any_role role_value [] u = Py.Ok u
  ∧ guarded (require_any_role role_value []) now credentials db
    = get_current_user now credentials db
  ∧ guarded (require_any_role role_value []) now credentials db
    ≠ Py.Raise forbidden.
Proof.
  assert (Heq : guarded (require_any_role role_value []) now credentials db
                = get_current_user now credentials db).
  { unfold Identity.guarded. by destruct (get_current_user now credentials db). }
  split; [reflexivity|]. split; [exact Heq|].
  rewrite Heq. apply get_current_user_not_forbidden.
Qed.

Lemma token_data_json_ready (u : User) :
  Jose.json_ready (token_data role_value u).
Proof.
  unfold token_data, Jose.json_ready.
  repeat (apply map_Forall_insert_2; [done|]).
  apply map_Forall_empty.
Qed.

(** What a successful login has done: it authenticated the subject and
    minted a token on the subject's claims with the default lifetime. *)
Lemma login_Ok t_auth t_token db identifier password tok subject db1 :
  login t_auth t_token db identifier password = (Py.Ok (tok, subject), db1) →
  let claims :=
    <[ "exp" := Py.VInt (Jose.timegm
         (t_token + Py.timedelta_minutes ACCESS_TOKEN_EXPIRE_MINUTES)) ]>
      (token_data role_value subject) in
  authenticate_user t_auth db identifier password = (Py.Ok (Some subject), db1)
  ∧ tok = Jose.Compact ALGORITHM claims (sign SECRET_KEY ALGORITHM claims).
Proof.
  unfold Identity.login.
  destruct (authenticate_user t_auth db identifier password)
    as [[[user|]|e] db']; [|done..].
  rewrite (create_access_token_eq sign SECRET_KEY ALGORITHM
             ACCESS_TOKEN_EXPIRE_MINUTES t_token _ None
             (token_data_json_ready user)).
  destruct (_ || _); [done|]. by intros [= <- <- <-].
Qed.

Lemma login_token t_auth t_token db identifier password tok subject db1 :
  login t_auth t_token db identifier password = (Py.Ok (tok, subject), db1) →
  let claims :=
    <[ "exp" := Py.VInt (Jose.timegm
         (t_token + Py.timedelta_minutes ACCESS_TOKEN_EXPIRE_MINUTES)) ]>
      (token_data role_value subject) in
  tok = Jose.Compact ALGORITHM claims (sign SECRET_KEY ALGORITHM claims).
Proof. intros Hlogin. by apply login_Ok in Hlogin as [_ ?]. Qed.

Lemma pretty_N_go_length x s :
  (String.length s ≤ String.length (pretty_N_go x s))%nat.
Proof.
  revert s. induction (N.lt_wf_0 x) as [x _ IH]; intros s.
  assert (x = 0 ∨ 0 < x)%N as [->|?] by lia; [by rewrite pretty_N_go_0|].
  rewrite pretty_N_go_step by done.
  etrans; [|by eapply IH, N.div_lt]. simpl. lia.
Qed.

Lemma pretty_Z_nonempty (n : Z) : Py.str_truthy (pretty n) = true.
Proof.
  assert (Hpos : ∀ p : positive, pretty (N.pos p) ≠ "").
  { intros p. unfold pretty, pretty_N. rewrite decide_False by done.
    rewrite pretty_N_go_step by lia. intros Hnil.
    pose proof (pretty_N_go_length (N.pos p `div` 10)
      (String (pretty_N_char (N.pos p `mod` 10)) "")) as Hlen.
    rewrite Hnil in Hlen. simpl in Hlen. lia. }
  unfold Py.str_truthy. destruct (String.eqb_spec (pretty n) "") as [He|]; [|done].
  destruct n as [|p|p]; [done| |done]. by destruct (Hpos p).
Qed.

(** [get_current_user] on a token minted for [subject] and presented
    before its expiry: it answers by what the store holds under the
    subject's id. *)
Lemma minted_current_user t_verify subject expiry db :
  let claims := <[ "exp" := Py.VInt expiry ]> (token_data role_value subject) in
  py_int (pretty (id subject)) = Some (id subject) →
  Jose.timegm t_verify ≤ expiry →
  registered_ok (Jose.timegm t_verify) claims = true →
  verify_token t_verify
    (Jose.Compact ALGORITHM claims (sign SECRET_KEY ALGORITHM claims))
  = Py.Ok (Some claims)
  ∧ get_current_user t_verify
      (Some (Jose.Compact ALGORITHM claims (sign SECRET_KEY ALGORITHM claims)))
      db
    = match db_get key_ok db (id subject) with
      | Py.Raise e => Py.Raise e
      | Py.Ok (Some user) =>
          if is_active user then Py.Ok user
          else Py.Raise (unauthorized "User inactive or not found")
      | Py.Ok None => Py.Raise (unauthorized "User inactive or not found")
      end.
Proof.
  intros claims Hint Hle Hreg.
  assert (Hver : verify_token t_verify
    (Jose.Compact ALGORITHM claims (sign SECRET_KEY ALGORITHM claims))
    = Py.Ok (Some claims)).
  { rewrite (verify_minted sign registered_ok registered_error py_int SECRET_KEY
               ALGORITHM t_verify claims expiry (lookup_insert_eq _ _ _) Hreg).
    by destruct (Z.leb_spec (Jose.timegm t_verify) expiry); [|lia]. }
  split; [exact Hver|].
  unfold Identity.get_current_user. rewrite Hver.
  assert (Hne : payload_truthy (Some claims) = true).
  { cbn [payload_truthy]. rewrite bool_decide_false; [done|].
    apply insert_non_empty. }
  rewrite Hne. cbn [negb]. change (default ∅ (Some claims)) with claims.
  assert (Hsub : claims !! "sub" = Some (Py.VStr (pretty (id subject)))).
  { unfold claims. rewrite lookup_insert_ne by done. unfold token_data.
    by rewrite lookup_insert_eq. }
  rewrite Hsub. cbn [Py.value_truthy int_of]. rewrite pretty_Z_nonempty.
  cbn [negb]. by rewrite Hint.
Qed.

Lemma db_get_insert_id (db : list User) row u0 u' :
  NoDup (Store.ids db) → db !! row = Some u0 → id u' = id u0 →
  db_get key_ok (<[ row := u' ]> db) (id u0) = Py.Ok (Some u').
Proof.
  intros Hnd Hrow Hid. unfold db_get, first_where.
  assert (Hfind : list_find (λ v, id v = id u0) (<[ row := u' ]> db)
                  = Some (row, u')).
  { apply list_find_Some. split; [|split; [done|]].
    - apply list_lookup_insert_eq. by eapply lookup_lt_Some.
    - intros j v Hj Hlt Hv. rewrite list_lookup_insert_ne in Hj by lia.
      assert (j = row); [|lia].
      apply (NoDup_lookup (Store.ids db) j row (id u0) Hnd).
      + unfold Store.ids. by rewrite list_lookup_fmap, Hj, <- Hv.
      + unfold Store.ids. by rewrite list_lookup_fmap, Hrow. }
  by rewrite Hfind.
Qed.

Lemma db_get_deactivate (db : list User) key u :
  db_get key_ok db key = Py.Ok (Some u) →
  db_get key_ok (deactivate key db) key = Py.Ok (Some (with_is_active false u)).
Proof.
  unfold db_get, first_where.
  destruct (list_find (λ v, id v = key) db) as [[row v]|] eqn:Hfind; cbn;
    [|by destruct (key_ok key)].
  intros [= ->]. apply list_find_Some in Hfind as (Hrow & Hu & Hbefore).
  assert (Hoff : list_find (λ v, id v = key) (deactivate key db)
                 = Some (row, with_is_active false u)).
  { apply list_find_Some. unfold deactivate. split; [|split; [done|]].
    - rewrite list_lookup_fmap, Hrow. cbn. by rewrite bool_decide_true.
    - intros j y Hj Hlt. rewrite list_lookup_fmap in Hj.
      destruct (db !! j) as [x|] eqn:Hx; [|done]. injection Hj as <-.
      pose proof (Hbefore j x Hx Hlt) as Hne.
      by rewrite bool_decide_false. }
  by rewrite Hoff.
Qed.

(** After a login, when the rows' ids are pairwise distinct, the store
    holds the logged-in row under its id. *)
Lemma login_stores_subject t_auth t_token db identifier password tok subject
    db1 :
  login t_auth t_token db identifier password = (Py.Ok (tok, subject), db1) →
  NoDup (Store.ids db) →
  is_active subject = true
  ∧ db_get key_ok db1 (id subject) = Py.Ok (Some subject).
Proof.
  intros [Hauth _]%login_Ok Hnd.
  pose proof (authenticate_user_store pwd_verify pick t_auth db identifier
                password) as Hstore.
  cbn zeta in Hstore. rewrite Hauth in Hstore. cbn [fst snd] in Hstore.
  destruct Hstore as [[[[=]|[e [=]]] _]|(row & u0 & Hrow & _ & Hact & [= ->] & ->)].
  split; [done|]. by apply (db_get_insert_id db row u0).
Qed.

(** C9 (as amended).  A token is issued at login.  Presented
    while the whole second of the clock has not passed its expiry (and
    the library's other registered-claim checks pass), the token is
    accepted by [verify_token], which does not read the store: it
    returns the token's claims, whether or not the subject has been
    deactivated since.  [get_current_user], through which the routes
    read a token, returns the subject as long as the subject is active,
    and answers 401 for the same token once the subject has been
    deactivated.  (The rows' ids are taken pairwise distinct, and [int]
    to read the decimal string of the id back.) *)
Theorem deactivation_keeps_token_valid t_auth t_token t_verify db identifier
    password tok subject db1 :
  login t_auth t_token db identifier password = (Py.Ok (tok, subject), db1) →
  NoDup (Store.ids db) →
  py_int (pretty (id subject)) = Some (id subject) →
  let expiry :=
    Jose.timegm (t_token + Py.timedelta_minutes ACCESS_TOKEN_EXPIRE_MINUTES) in
  let claims := <[ "exp" := Py.VInt expiry ]> (token_data role_value subject) in
  Jose.timegm t_verify ≤ expiry →
  registered_ok (Jose.timegm t_verify) claims = true →
  verify_token t_verify tok = Py.Ok (Some claims)
  ∧ get_current_user t_verify (Some tok) db1 = Py.Ok subject
  ∧ get_current_user t_verify (Some tok) (deactivate (id subject) db1)
    = Py.Raise (unauthorized "User inactive or not found").
Proof.
  intros Hlogin Hnd Hint expiry claims Hle Hreg.
  pose proof (login_token _ _ _ _ _ _ _ _ Hlogin) as Htok. cbn zeta in Htok.
  fold expiry in Htok. fold claims in Htok.
  destruct (login_stores_subject _ _ _ _ _ _ _ _ Hlogin Hnd) as [Hact Hget].
  pose proof (minted_current_user t_verify subject expiry db1 Hint Hle Hreg)
    as [Hver Hcur].
  pose proof (minted_current_user t_verify subject expiry
                (deactivate (id subject) db1) Hint Hle Hreg) as [_ Hoff].
  fold claims in Hver, Hcur, Hoff. rewrite <- Htok in Hver, Hcur, Hoff.
  split; [exact Hver|]. split.
  - by rewrite Hcur, Hget, Hact.
  - by rewrite Hoff, (db_get_deactivate _ _ _ Hget).
Qed.

End SessionFacts.

Section SessionScenarios.
Import Identity.

Local Abbreviation login :=
  (login Jose.plain_sign "secret" "HS256" 30 plain_verify lower_case_value
     in_storage_order class_name).
Local Abbreviation verify_token :=
  (verify_token Jose.plain_sign Jose.subject_is_string Jose.subject_message
     Py.decimal "secret" "HS256").
Local Abbreviation get_current_user :=
  (get_current_user Jose.plain_sign Jose.subject_is_string Jose.subject_message
     Py.decimal "secret" "HS256" sqlite_key).

Lemma deactivation_keeps_token_valid_witness :
  login 5000000 6000000 seeded "555-0100" "correct"
  = (Py.Ok (citizen_token, with_last_login 5000000 citizen),
     <[ 0%nat := with_last_login 5000000 citizen ]> seeded)
  ∧ verify_token 7000000 citizen_token
    = Py.Ok (Some (<[ "exp" := Py.VInt 1806 ]> citizen_claims))
  ∧ get_current_user 7000000 (Some citizen_token)
      (<[ 0%nat := with_last_login 5000000 citizen ]> seeded)
    = Py.Ok (with_last_login 5000000 citizen).
Proof.
  assert (Hlogin : login 5000000 6000000 seeded "555-0100" "correct"
    = (Py.Ok (citizen_token, with_last_login 5000000 citizen),
       <[ 0%nat := with_last_login 5000000 citizen ]> seeded)).
  { vm_compute. reflexivity. }
  split; [exact Hlogin|].
  refine (let H := deactivation_keeps_token_valid
            Jose.plain_sign Jose.subject_is_string Jose.subject_message
            Py.decimal "secret" "HS256" 30 plain_verify lower_case_value
            in_storage_order sqlite_key class_name
            5000000 6000000 7000000 seeded "555-0100" "correct"
            citizen_token (with_last_login 5000000 citizen)
            (<[ 0%nat := with_last_login 5000000 citizen ]> seeded)
            Hlogin _ _ _ _ in conj (proj1 H) (proj1 (proj2 H))).
  - apply (bool_decide_unpack _). vm_compute. exact I.
  - vm_compute. reflexivity.
  - vm_compute. discriminate.
  - vm_compute. reflexivity.
Defined.

(** C9, as stated, fails on [get_current_user], through which the routes
    verify a token: for the token of a login, presented before its
    expiry, the outcome in the run where the subject is still active
    differs from the outcome in the run where the subject has been
    deactivated. *)
Lemma deactivated_subject_is_turned_away :
  ∃ tok subject db1,
    login 5000000 6000000 seeded "555-0100" "correct"
    = (Py.Ok (tok, subject), db1)
    ∧ get_current_user 7000000 (Some tok) db1 = Py.Ok subject
    ∧ get_current_user 7000000 (Some tok) (deactivate (id subject) db1)
      = Py.Raise (unauthorized "User inactive or not found").
Proof.
  exists citizen_token, (with_last_login 5000000 citizen),
    (<[ 0%nat := with_last_login 5000000 citizen ]> seeded).
  split; [|split]; vm_compute; reflexivity.
Qed.

(** C6, as stated, fails: the multi-role checker built with no allowed
    role admits a subject whose role is in no allowed set and names no
    member of the enumeration. *)
Lemma empty_gate_admits_stranger :
  current_role lower_case_value stranger = None
  ∧ (¬ ∃ r, r ∈ @nil UserType ∧ current_role lower_case_value stranger = Some r)
  ∧ require_any_role lower_case_value [] stranger = Py.Ok stranger
  ∧ require_any_role lower_case_value [] stranger ≠ Py.Raise forbidden.
Proof.
  split; [reflexivity|]. split; [|split; [reflexivity|discriminate]].
  intros (r & Hr & _). by apply elem_of_nil in Hr.
Qed.

Lemma role_gates_witness :
  require_any_role lower_case_value [USER; AUTHORITY] stranger = Py.Raise forbidden
  ∧ require_role lower_case_value AUTHORITY citizen = Py.Raise forbidden
  ∧ require_role lower_case_value AUTHORITY officer = Py.Ok officer.
Proof.
  pose proof (role_gates lower_case_value AUTHORITY [USER; AUTHORITY] stranger)
    as (_ & _ & _ & Hout & _).
  pose proof (role_gates lower_case_value AUTHORITY [USER; AUTHORITY] citizen)
    as (_ & _ & _ & _ & Huser & _).
  pose proof (role_gates lower_case_value AUTHORITY [USER; AUTHORITY] officer)
    as (_ & _ & _ & _ & _ & Hauth).
  split; [|split].
  - apply Hout; [reflexivity|discriminate].
  - apply Huser. reflexivity.
  - apply Hauth. reflexivity.
Defined.

End SessionScenarios.

(** ** Further properties of the gateway *)

Section GatewayMore.
Import Granite.
Context {W : Type} (R : remote W) (order : list string).

Lemma first_fallback_Some ranking (avail : gset string) c :
  first_fallback ranking avail = Some c ↔
  ∃ i, ranking !! i = Some c ∧ c ∈ avail
       ∧ ∀ j c', (j < i)%nat → ranking !! j = Some c' → c' ∉ avail.
Proof.
  induction ranking as [|c0 rest IH]; cbn [first_fallback].
  - split; [done|]. by intros (i & Hi & _).
  - destruct (decide (c0 ∈ avail)) as [Hin|Hout].
    + split.
      * intros [= <-]. exists 0%nat. split; [done|]. split; [done|]. lia.
      * intros ([|i] & Hi & Hc & Hfirst).
        -- by injection Hi as ->.
        -- destruct (Hfirst 0%nat c0); [lia|done|done].
    + rewrite IH. split.
      * intros (i & Hi & Hc & Hfirst). exists (S i). split; [done|]. split; [done|].
        intros [|j] c' Hj Hl.
        -- by injection Hl as <-.
        -- apply (Hfirst j); [lia|done].
      * intros ([|i] & Hi & Hc & Hfirst).
        -- injection Hi as ->. done.
        -- exists i. split; [done|]. split; [done|].
           intros j c' Hj Hl. apply (Hfirst (S j)); [lia|done].
Qed.

Lemma ranked_choice_idem ranking (avail : gset string) m :
  ranked_choice ranking avail (ranked_choice ranking avail m)
  = ranked_choice ranking avail m.
Proof.
  destruct (decide (ranked_choice ranking avail m = m)) as [He|Hne];
    [by rewrite !He|].
  by apply ranked_choice_fixed, ranked_choice_stays.
Qed.

Lemma ranked_choice_changed ranking (avail : gset string) m :
  ranked_choice ranking avail m ≠ m →
  (m ∉ avail)
  ∧ first_fallback ranking avail = Some (ranked_choice ranking avail m).
Proof.
  unfold ranked_choice. destruct (decide (m ∈ avail)); [done|].
  rewrite <- first_fallback_head.
  destruct (first_fallback ranking avail); [done|done].
Qed.

(** X1 (selection).  Model selection changes the active identifier only
    to a member of the availability set that is the first available one
    in the ranking, and only when the previous identifier is not
    available; running it again without a refresh changes nothing. *)
Theorem select_moves_to_first_available force (s : sys W) :
  let s' := _select_supported_model R order force s in
  (model_id (self s') ≠ model_id (self s) →
     (model_id (self s') ∈ available_models (self s'))
     ∧ (model_id (self s) ∉ available_models (self s'))
     ∧ ∃ i, order !! i = Some (model_id (self s'))
            ∧ ∀ j c, (j < i)%nat → order !! j = Some c →
                     c ∉ available_models (self s'))
  ∧ _select_supported_model R order false s' = s'.
Proof.
  intros s'. unfold s'. rewrite !select_unfold.
  destruct (Py.truthy (token (self s))) eqn:Ht; [|split; [done|by rewrite Ht]].
  set (s1 := if force then refreshed R s else s).
  assert (Hm1 : model_id (self s1) = model_id (self s)) by (unfold s1; by destruct force).
  assert (Ht1 : token (self s1) = token (self s)) by (unfold s1; by destruct force).
  cbn [set_self self with_model_id model_id available_models token].
  rewrite Ht1, Ht. split.
  - rewrite Hm1. intros Hch.
    destruct (ranked_choice_changed _ _ _ Hch) as [Hout Hfirst].
    apply first_fallback_Some in Hfirst as (i & Hi & Hc & Hfirst).
    split; [done|]. split; [done|]. by exists i.
  - rewrite ranked_choice_idem. reflexivity.
Qed.

Lemma supported_models_acc resources (acc : gset string) m :
  m ∈ foldl (λ supported item,
               match item with
               | Some m => if Py.str_truthy m then supported ∪ {[ m ]} else supported
               | None => supported
               end) acc resources
  ↔ m ∈ acc ∨ (m ≠ "" ∧ Some m ∈ resources).
Proof.
  revert acc. induction resources as [|item rest IH]; intros acc; cbn [foldl].
  - split; [by left|]. intros [?|[_ H]]; [done|]. by apply elem_of_nil in H.
  - rewrite IH. destruct item as [m'|].
    + unfold Py.str_truthy. destruct (String.eqb_spec m' "") as [->|Hne]; cbn [negb].
      * split.
        -- intros [?|[? ?]]; [by left|]. right. split; [done|]. by right.
        -- intros [?|[Hm H]]; [by left|]. apply elem_of_cons in H as [[= ->]|H]; [done|].
           by right.
      * rewrite elem_of_union, elem_of_singleton. split.
        -- intros [[?| ->]|[? ?]]; [by left| |].
           ++ right. split; [done|]. by left.
           ++ right. split; [done|]. by right.
        -- intros [?|[Hm H]]; [by left; left|].
           apply elem_of_cons in H as [[= ->]|H]; [left; by right|]. by right.
    + split.
      * intros [?|[? ?]]; [by left|]. right. split; [done|]. by right.
      * intros [?|[Hm H]]; [by left|]. apply elem_of_cons in H as [[=]|H]. by right.
Qed.

(** X2 (catalog).  Reading the catalog issues exactly one catalog call and
    leaves the gateway object as it was; the set it returns holds
    exactly the non-empty model identifiers listed in the answer, and is
    empty when the call fails. *)
Theorem load_available_models_spec (s : sys W) :
  let reply :=
    (get_foundation_model_specs R (url (self s)) (bearer (self s)) (net s)).1 in
  let out := _load_available_models R s in
  self out.2 = self s
  ∧ calls out.2 = calls s ++ [CallCatalog]
  ∧ (∀ m, m ∈ out.1 ↔
          m ≠ "" ∧ ∃ resources, reply = CatalogJson resources ∧ Some m ∈ resources)
  ∧ (reply = CatalogError → out.1 = ∅).
Proof.
  intros reply out. unfold out. rewrite load_available_models_eq. cbn zeta.
  cbn [fst snd self calls]. fold reply. split; [done|]. split; [done|]. split.
  - intros m. destruct reply as [resources|]; cbn [catalog_models].
    + unfold supported_models. rewrite supported_models_acc. split.
      * intros [H|[Hm H]]; [set_solver|]. split; [done|]. by exists resources.
      * intros (Hm & res & [= <-] & H). by right.
    + split; [set_solver|]. by intros (_ & res & [=] & _).
  - by intros ->.
Qed.


(** X3 (no credential).  Without a credential, or without a project
    identifier, a generation request returns [None] at once: no outbound
    call is made and the gateway is left as it was. *)
Theorem make_request_needs_credential depth prompt max_tokens (s : sys W) :
  Py.truthy (token (self s)) = false
  ∨ Py.str_truthy (project_id (self s)) = false →
  _make_request R order (S depth) prompt max_tokens s = (Returned None, s).
Proof.
  intros Hc. rewrite make_request_unfold.
  destruct (Py.truthy (token (self s))); cbn [negb]; [|done].
  destruct Hc as [Hc|Hc]; [done|]. by rewrite Hc.
Qed.

(** X4 (final answers).  An answer other than the model-not-supported
    rejection ends the request with that one generation call: no catalog
    call follows and the gateway object is unchanged.  A 2xx answer gives
    the first result's text (the empty text when the result or the
    results key carries none, [None] when the results list is empty);
    every error gives [None]. *)
Theorem make_request_final_answer depth prompt max_tokens (s : sys W) reply w' :
  Py.truthy (token (self s)) = true →
  Py.str_truthy (project_id (self s)) = true →
  request_of R s prompt max_tokens = (reply, w') →
  (∀ code text, reply = GenHTTPError code text →
                model_not_supported code text = false) →
  _make_request R order (S depth) prompt max_tokens s =
  (Returned (match reply with
             | GenJson None => Some ""
             | GenJson (Some []) => None
             | GenJson (Some (first :: _)) => Some (default "" first)
             | GenHTTPError _ _ | GenError => None
             end),
   requested s w').
Proof.
  intros Ht Hp Hreq Hfinal. rewrite make_request_unfold, Ht, Hp, Hreq.
  cbn [negb fst snd]. destruct reply as [[[|first rest]|]|code text|]; try done.
  by rewrite (Hfinal code text eq_refl).
Qed.

Lemma select_self_frame force (s : sys W) :
  let s' := _select_supported_model R order force s in
  api_key (self s') = api_key (self s) ∧ url (self s') = url (self s).
Proof.
  cbn zeta. rewrite select_unfold.
  destruct (Py.truthy (token (self s))); [|done]. by destruct force.
Qed.

Lemma generations_cons c l :
  generations (c :: l) = ((if is_generate c then 1 else 0) + generations l)%nat.
Proof. unfold generations. rewrite filter_cons. by destruct (is_generate c). Qed.

Lemma refreshes_cons c l :
  refreshes (c :: l) = ((if is_catalog c then 1 else 0) + refreshes l)%nat.
Proof. unfold refreshes. rewrite filter_cons. by destruct (is_catalog c). Qed.

Lemma generations_app l1 l2 :
  generations (l1 ++ l2) = (generations l1 + generations l2)%nat.
Proof. unfold generations. by rewrite filter_app, length_app. Qed.

Lemma refreshes_app l1 l2 :
  refreshes (l1 ++ l2) = (refreshes l1 + refreshes l2)%nat.
Proof. unfold refreshes. by rewrite filter_app, length_app. Qed.

Local Ltac count_calls :=
  rewrite ?generations_app, ?refreshes_app, ?generations_cons, ?refreshes_cons;
  cbn [is_generate is_catalog];
  change (generations []) with 0%nat; change (refreshes []) with 0%nat;
  try lia.

Local Ltac no_token_call :=
  let H := fresh in
  intros H;
  repeat (apply elem_of_cons in H as [H|H]; [discriminate H|]);
  by apply elem_of_nil in H.

(** What a request adds to the log of outbound calls. *)
Lemma make_request_log depth prompt max_tokens (s : sys W) :
  let out := _make_request R order depth prompt max_tokens s in
  ∃ l, calls out.2 = calls s ++ l
       ∧ (refreshes l ≤ generations l)%nat
       ∧ (generations l ≤ refreshes l + 1)%nat
       ∧ (CallToken ∉ l)
       ∧ (model_id (self out.2) ≠ model_id (self s) → (1 ≤ refreshes l)%nat).
Proof.
  cbn zeta. revert s. induction depth as [|depth IH]; intros s.
  - exists []. cbn [_make_request fst snd]. rewrite app_nil_r.
    split; [done|]. split; [count_calls|]. split; [count_calls|].
    split; [no_token_call|]. done.
  - rewrite make_request_unfold.
    assert (Hnil :
      ∃ l, calls s = calls s ++ l ∧ (refreshes l ≤ generations l)%nat
           ∧ (generations l ≤ refreshes l + 1)%nat ∧ (CallToken ∉ l)
           ∧ (model_id (self s) ≠ model_id (self s) → (1 ≤ refreshes l)%nat)).
    { exists []. rewrite app_nil_r.
      split; [done|]. split; [count_calls|]. split; [count_calls|].
      split; [no_token_call|]. done. }
    destruct (negb (Py.truthy (token (self s)))) eqn:Ht; [by apply Hnil|].
    destruct (negb (Py.str_truthy (project_id (self s)))); [by apply Hnil|].
    destruct (request_of R s prompt max_tokens) as [reply w']. cbn [fst snd].
    assert (Hone :
      ∃ l, calls (requested s w') = calls s ++ l
           ∧ (refreshes l ≤ generations l)%nat
           ∧ (generations l ≤ refreshes l + 1)%nat ∧ (CallToken ∉ l)
           ∧ (model_id (self (requested s w')) ≠ model_id (self s) →
              (1 ≤ refreshes l)%nat)).
    { exists [CallGenerate (Py.or_str (Some (model_id (self s))) DEFAULT_MODEL_ID)].
      split; [done|]. split; [count_calls|]. split; [count_calls|].
      split; [no_token_call|]. done. }
    destruct reply as [results|code text|]; [by apply Hone| |by apply Hone].
    destruct (model_not_supported code text); [|by apply Hone]. cbn zeta.
    set (s2 := _select_supported_model R order true (requested s w')).
    assert (Ht' : Py.truthy (token (self (requested s w'))) = true).
    { cbn [requested self]. by destruct (Py.truthy (token (self s))). }
    assert (Hc2 : calls s2 = calls s ++ [CallGenerate (Py.or_str (Some (model_id (self s))) DEFAULT_MODEL_ID); CallCatalog]).
    { unfold s2. rewrite select_forced_calls by done. cbn [requested calls].
      by rewrite <- app_assoc. }
    destruct (decide (model_id (self s2) ≠ model_id (self s))) as [Hch|Hsame].
    + destruct (IH s2) as (l & Hl & Hrg & Hg & Hnt & _).
      exists ([CallGenerate (Py.or_str (Some (model_id (self s))) DEFAULT_MODEL_ID); CallCatalog] ++ l).
      rewrite Hl, Hc2, <- app_assoc.
      split; [done|]. split; [count_calls|]. split; [count_calls|].
      split.
      * intros H. apply elem_of_app in H as [H|H]; [|done]. revert H. no_token_call.
      * intros _. count_calls.
    + exists [CallGenerate (Py.or_str (Some (model_id (self s))) DEFAULT_MODEL_ID); CallCatalog]. cbn [fst snd]. rewrite Hc2.
      split; [done|]. split; [count_calls|]. split; [count_calls|].
      split; [no_token_call|]. intros _. count_calls.
Qed.

Lemma make_request_self_frame depth prompt max_tokens (s : sys W) :
  let out := _make_request R order depth prompt max_tokens s in
  token (self out.2) = token (self s)
  ∧ project_id (self out.2) = project_id (self s)
  ∧ api_key (self out.2) = api_key (self s)
  ∧ url (self out.2) = url (self s).
Proof.
  cbn zeta. revert s. induction depth as [|depth IH]; intros s; [done|].
  rewrite make_request_unfold.
  destruct (negb (Py.truthy (token (self s)))); [done|].
  destruct (negb (Py.str_truthy (project_id (self s)))); [done|].
  destruct (request_of R s prompt max_tokens) as [[results|code text|] w'];
    cbn [fst snd]; try done.
  destruct (model_not_supported code text); [|done]. cbn zeta.
  set (s2 := _select_supported_model R order true (requested s w')).
  assert (Hf : token (self s2) = token (self s)
               ∧ project_id (self s2) = project_id (self s)
               ∧ api_key (self s2) = api_key (self s)
               ∧ url (self s2) = url (self s)).
  { unfold s2. rewrite select_token, select_project_id.
    destruct (select_self_frame true (requested s w')) as [-> ->]. done. }
  destruct (decide _); [|exact Hf].
  destruct (IH s2) as (-> & -> & -> & ->). exact Hf.
Qed.

(** X6 (what a request touches).  A generation request always returns:
    no exception escapes it.  It never changes the credential, the API
    key, the project identifier or the URL of the gateway.  It only
    appends to the log of outbound calls: no credential call, never more
    catalog calls than generation calls and at most one generation call
    more than catalog calls (a retry follows a catalog read).  It
    changes the active model only after at least one catalog call. *)
Theorem make_request_footprint depth prompt max_tokens (s : sys W) :
  let out := _make_request R order depth prompt max_tokens s in
  (∃ r, out.1 = Returned r)
  ∧ token (self out.2) = token (self s)
  ∧ project_id (self out.2) = project_id (self s)
  ∧ api_key (self out.2) = api_key (self s)
  ∧ url (self out.2) = url (self s)
  ∧ ∃ l, calls out.2 = calls s ++ l
         ∧ (refreshes l ≤ generations l)%nat
         ∧ (generations l ≤ refreshes l + 1)%nat
         ∧ (CallToken ∉ l)
         ∧ (model_id (self out.2) ≠ model_id (self s) → (1 ≤ refreshes l)%nat).
Proof.
  intros out.
  destruct (make_request_self_frame depth prompt max_tokens s) as (? & ? & ? & ?).
  split.
  { destruct (make_request_returns R order depth prompt max_tokens s)
      as (r & s' & Hr). exists r. unfold out. by rewrite Hr. }
  repeat (split; [done|]). apply make_request_log.
Qed.


Lemma truthy_or_empty (o : option string) :
  Py.str_truthy (Py.or_str o "") = Py.truthy o.
Proof. destruct o as [k|]; [|done]. cbn. by destruct (Py.str_truthy k) eqn:E. Qed.

(** X7 (start-up).  Constructing the gateway issues one credential call
    when an API key is configured and none otherwise, followed by one
    catalog call exactly when a credential was obtained.  Without an API
    key no call is made at all and no credential is held; without a
    credential the availability set is empty and the active model is the
    configured identifier, stripped of surrounding whitespace (the
    default identifier when none is configured). *)
Theorem init_outbound_calls cfg w :
  let s := init R order cfg w in
  calls s = (if Py.truthy (watsonx_api_key cfg) then [CallToken] else [])
            ++ (if Py.truthy (token (self s)) then [CallCatalog] else [])
  ∧ (Py.truthy (watsonx_api_key cfg) = false → token (self s) = None ∧ net s = w)
  ∧ (Py.truthy (token (self s)) = false →
     available_models (self s) = ∅
     ∧ model_id (self s)
       = Py.strip (Py.or_str (watsonx_model_id cfg) DEFAULT_MODEL_ID)).
Proof.
  cbn zeta. unfold init, _get_iam_token. rewrite truthy_or_empty.
  destruct (Py.truthy (watsonx_api_key cfg)) eqn:Hk; cbn [negb].
  - destruct (post_identity_token R _ w) as [[tok|] w1].
    + destruct (Py.truthy tok) eqn:Ht.
      * rewrite load_available_models_eq. cbn zeta. rewrite select_unfold.
        cbn [set_self self token with_available_models with_model_id calls net].
        rewrite ?Ht.
        cbn [set_self self token with_available_models with_model_id calls net].
        rewrite ?Ht. split; [done|]. split; done.
      * rewrite select_unfold. cbn [self token]. rewrite ?Ht.
        cbn [self token calls available_models model_id]. rewrite ?Ht.
        split; [done|]. split; done.
    + rewrite select_unfold. cbn [Py.truthy self token calls available_models model_id].
      split; [done|]. split; done.
  - rewrite select_unfold. cbn [Py.truthy self token calls available_models model_id net].
    split; [done|]. split; done.
Qed.

(** X8 (degraded mode).  When the gateway holds no credential, or no
    project identifier, the three text wrappers return their canned
    text without any outbound call and leave the gateway as it was.  So
    does the report wrapper when the caller's data can be serialised;
    when [json.dumps] raises, that exception escapes the wrapper, again
    without any outbound call. *)
Theorem wrappers_without_credential depth text kpi_json (s : sys W) :
  Py.truthy (token (self s)) = false
  ∨ Py.str_truthy (project_id (self s)) = false →
  ask_granite R order depth text s = (Returned ask_fallback, s)
  ∧ generate_summary R order depth text s = (Returned summary_fallback, s)
  ∧ generate_eco_tip R order depth text s
    = (Returned (eco_tip_fallback text), s)
  ∧ generate_city_report R order depth text kpi_json s
    = match kpi_json with
      | Py.Ok _ => (Returned report_fallback, s)
      | Py.Raise e => (Escaped e, s)
      end.
Proof.
  intros Hc.
  assert (Hnone : ∀ prompt max_tokens,
    _make_request R order depth prompt max_tokens s = (Returned None, s)).
  { intros prompt max_tokens. destruct depth as [|depth']; [done|].
    rewrite make_request_unfold.
    destruct (Py.truthy (token (self s))); cbn [negb]; [|done].
    destruct Hc as [Hc|Hc]; [done|]. by rewrite Hc. }
  unfold ask_granite, generate_summary, generate_eco_tip, generate_city_report.
  rewrite !Hnone. destruct kpi_json as [json|e]; [|done]. by rewrite Hnone.
Qed.

End GatewayMore.

Section GatewayMoreScenarios.
Import Granite.

Lemma make_request_needs_credential_witness :
  _make_request (steady CatalogError) FALLBACK_MODEL_ORDER 1 "hi" 500 idle
  = (Returned None, idle).
Proof.
  apply (make_request_needs_credential (steady CatalogError)
           FALLBACK_MODEL_ORDER 0 "hi" 500 idle).
  left. reflexivity.
Defined.

Lemma wrappers_without_credential_witness :
  ask_granite (steady CatalogError) FALLBACK_MODEL_ORDER 1 "hi" idle
  = (Returned ask_fallback, idle)
  ∧ generate_city_report (steady CatalogError) FALLBACK_MODEL_ORDER 1 "hi"
      (Py.Raise Py.TypeError) idle
    = (Escaped Py.TypeError, idle).
Proof.
  pose proof (wrappers_without_credential (steady CatalogError)
                FALLBACK_MODEL_ORDER 1 "hi" (Py.Raise Py.TypeError) idle
                (or_introl eq_refl)) as (Hask & _ & _ & Hreport).
  split; [exact Hask|exact Hreport].
Defined.

Lemma make_request_final_answer_witness :
  let s := {| self := gateway "custom/model" ∅;
              net := [GenHTTPError 500 "model_not_supported"]; calls := [] |} in
  _make_request (steady CatalogError) FALLBACK_MODEL_ORDER 1 "hi" 500 s
  = (Returned None, requested s []).
Proof.
  intros s.
  apply (make_request_final_answer (steady CatalogError) FALLBACK_MODEL_ORDER
           0 "hi" 500 s (GenHTTPError 500 "model_not_supported") []).
  - reflexivity.
  - reflexivity.
  - reflexivity.
  - intros code text [= <- <-]. reflexivity.
Defined.

End GatewayMoreScenarios.

(** ** Further properties of the identity service *)

Section StoreFacts.
Import Identity.
Variable pwd_hash : string -> string -> Py.result string.
Variable pwd_verify : string -> string -> Py.result bool.
Variable pick : list (nat * User) -> nat.
Variable operational : list User -> bool.

Local Abbreviation authenticate_user := (authenticate_user pwd_verify pick).
Local Abbreviation register_user := (register_user pwd_hash).
Local Abbreviation register_authority := (register_authority pwd_hash operational).
Local Abbreviation authenticate_user_store :=
  (authenticate_user_store pwd_verify pick).

(** X9 (authentication frame).  Authentication keeps the number of rows
    and changes at most one row, the matched active one, and of that row
    only the last-login instant. *)
Theorem authenticate_user_frame now (db : list User) identifier password :
  let out := authenticate_user now db identifier password in
  length out.2 = length db
  ∧ ∀ i u, db !! i = Some u →
      out.2 !! i = Some u
      ∨ (out.2 !! i = Some (with_last_login now u)
         ∧ out.1 = Py.Ok (Some (with_last_login now u))
         ∧ identified_by identifier u ∧ is_active u = true).
Proof.
  intros out.
  destruct (authenticate_user_store now db identifier password)
    as [[_ Hsame]|(row & u0 & Hrow & Hid & Hact & Hres & Hdb)];
    fold out in Hsame || fold out in Hres, Hdb.
  - rewrite Hsame. split; [done|]. intros i u Hi. by left.
  - rewrite Hdb. split; [by rewrite length_insert|].
    intros i u Hi. destruct (decide (i = row)) as [->|Hne].
    + right. assert (u = u0) as -> by congruence.
      rewrite list_lookup_insert_eq by (by eapply lookup_lt_Some). done.
    + left. by rewrite list_lookup_insert_ne.
Qed.


Lemma phones_taken db phone : phone ∈ Store.phones db ↔ phone_taken db phone.
Proof.
  unfold Store.phones, phone_taken. rewrite list_elem_of_fmap. split.
  - intros (u & -> & Hu). by exists u.
  - intros (u & Hu & <-). by exists u.
Qed.

Lemma supplied_email_Some u e :
  Store.supplied_email u = Some e ↔ email u = Some e ∧ e ≠ "".
Proof.
  unfold Store.supplied_email. destruct (email u) as [e'|];
    [|split; [done|by intros [? _]]].
  unfold Py.str_truthy. destruct (String.eqb_spec e' "") as [->|Hne]; cbn.
  - split; [done|]. by intros [[= ->] ?].
  - split; [by intros [= ->]|]. by intros [[= ->] _].
Qed.

Lemma supplied_emails_taken db e :
  e ∈ Store.supplied_emails db → e ≠ "" ∧ email_taken db e.
Proof.
  unfold Store.supplied_emails, email_taken. rewrite list_elem_of_omap.
  intros (u & Hu & He%supplied_email_Some). split; [apply He|].
  exists u. split; [done|apply He].
Qed.

Lemma NoDup_snoc_fresh {A} (l : list A) (x : A) :
  NoDup l → x ∉ l → NoDup (l ++ [x]).
Proof.
  intros Hl Hx. apply NoDup_app. split; [done|]. split.
  - intros y Hy Hin. apply list_elem_of_singleton in Hin. by subst.
  - apply NoDup_singleton.
Qed.

Lemma omap_insert_same {A B} (f : A → option B) (l : list A) i x y :
  l !! i = Some x → f y = f x → omap f (<[ i := y ]> l) = omap f l.
Proof.
  revert i. induction l as [|z l IH]; intros [|i] Hi Hf; [done|done| |].
  - injection Hi as ->. csimpl. by rewrite Hf.
  - csimpl in *. by rewrite (IH i Hi Hf).
Qed.

Lemma fmap_insert_same {A B} (f : A → B) (l : list A) i x y :
  l !! i = Some x → f y = f x → f <$> <[ i := y ]> l = f <$> l.
Proof.
  intros Hi Hf. rewrite list_fmap_insert, Hf. apply list_insert_id.
  by rewrite list_lookup_fmap, Hi.
Qed.

Lemma authenticate_user_contacts now (db : list User) identifier password :
  let out := authenticate_user now db identifier password in
  Store.phones out.2 = Store.phones db
  ∧ Store.supplied_emails out.2 = Store.supplied_emails db
  ∧ Store.ids out.2 = Store.ids db.
Proof.
  intros out.
  destruct (authenticate_user_store now db identifier password)
    as [[_ Hsame]|(row & u & Hrow & _ & _ & _ & Hdb)].
  - unfold out. by rewrite Hsame.
  - unfold out. rewrite Hdb. split; [|split].
    + by apply (fmap_insert_same _ _ _ u).
    + by apply (omap_insert_same _ _ _ u).
    + by apply (fmap_insert_same _ _ _ u).
Qed.

Lemma register_user_contacts db salt name phone password mail address :
  NoDup (Store.phones db) → NoDup (Store.supplied_emails db) →
  let db1 := (register_user db salt name phone password mail address).2 in
  NoDup (Store.phones db1) ∧ NoDup (Store.supplied_emails db1).
Proof.
  intros Hp He db1. unfold db1, Identity.register_user.
  destruct (found (first_where (λ u, phone_number u = phone) db)) eqn:Hfp; [done|].
  destruct (Py.truthy mail && found (first_where (λ u, email u = mail) db)) eqn:Hfm;
    [done|].
  destruct (get_password_hash pwd_hash salt password) as [hash|e]; [|done].
  cbn [snd]. unfold Store.phones, Store.supplied_emails.
  rewrite fmap_app, omap_app. cbn [fmap list_fmap omap list_omap].
  split.
  - apply NoDup_snoc_fresh; [done|]. cbn. intros Hin%phones_taken.
    apply found_phone in Hin. congruence.
  - unfold Store.supplied_email at 2. cbn [email].
    destruct mail as [e|]; [|by rewrite app_nil_r].
    destruct (Py.str_truthy e) eqn:Hte; [|by rewrite app_nil_r].
    apply NoDup_snoc_fresh; [done|]. intros [_ Hin]%supplied_emails_taken.
    apply found_email in Hin. cbn [Py.truthy] in Hfm. rewrite Hte, Hin in Hfm.
    done.
Qed.

Lemma register_authority_contacts db salt name position route phone mail password :
  NoDup (Store.phones db) → NoDup (Store.supplied_emails db) →
  let db1 :=
    (register_authority db salt name position route phone mail password).2 in
  NoDup (Store.phones db1) ∧ NoDup (Store.supplied_emails db1).
Proof.
  intros Hp He db1. unfold db1, Identity.register_authority.
  destruct (found (first_where (λ u, phone_number u = phone) db)) eqn:Hfp; [done|].
  destruct (found (first_where (λ u, email u = Some mail) db)) eqn:Hfm; [done|].
  destruct (get_password_hash pwd_hash salt password) as [hash|e]; [|done].
  destruct (operational _); [done|].
  cbn [snd]. unfold Store.phones, Store.supplied_emails.
  rewrite fmap_app, omap_app. cbn [fmap list_fmap omap list_omap].
  split.
  - apply NoDup_snoc_fresh; [done|]. cbn. intros Hin%phones_taken.
    apply found_phone in Hin. congruence.
  - unfold Store.supplied_email at 2. cbn [email].
    destruct (Py.str_truthy mail) eqn:Hte; [|by rewrite app_nil_r].
    apply NoDup_snoc_fresh; [done|]. intros [_ Hin]%supplied_emails_taken.
    apply found_email in Hin. congruence.
Qed.

(** X10 (unique contacts).  When the phone numbers of the stored rows are
    pairwise distinct and so are their non-empty emails, they still are
    after a citizen registration, after an authority registration and
    after an authentication, whatever their outcome. *)
Theorem writes_keep_contacts_unique db salt name phone password mail address
    position route amail now identifier :
  NoDup (Store.phones db) → NoDup (Store.supplied_emails db) →
  (NoDup (Store.phones
            (register_user db salt name phone password mail address).2)
   ∧ NoDup (Store.supplied_emails
              (register_user db salt name phone password mail address).2))
  ∧ (NoDup (Store.phones
              (register_authority db salt name position route phone amail
                 password).2)
     ∧ NoDup (Store.supplied_emails
                (register_authority db salt name position route phone amail
                   password).2))
  ∧ (NoDup (Store.phones (authenticate_user now db identifier password).2)
     ∧ NoDup (Store.supplied_emails
                (authenticate_user now db identifier password).2)).
Proof.
  intros Hp He. split; [by apply register_user_contacts|].
  split; [by apply register_authority_contacts|].
  destruct (authenticate_user_contacts now db identifier password) as (-> & -> & _).
  done.
Qed.

(** X11 (register, then log in).  A password that verifies against its own
    hash lets a freshly registered citizen authenticate by phone number:
    the freshly stored row is returned, with its last-login instant set,
    provided no stored row carries that phone number as its email. *)
Theorem register_then_authenticate db salt name phone password mail address
    now u db1 :
  (∀ hash, pwd_hash salt password = Py.Ok hash →
           pwd_verify password hash = Py.Ok true) →
  register_user db salt name phone password mail address
  = (Py.Ok (Registered u), db1) →
  (∀ v, v ∈ db → email v ≠ Some phone) →
  authenticate_user now db1 phone password
  = (Py.Ok (Some (with_last_login now u)),
     <[ length db := with_last_login now u ]> db1).
Proof.
  intros Hpw Hreg Hmail. unfold Identity.register_user in Hreg.
  destruct (found (first_where (λ v, phone_number v = phone) db)) eqn:Hfp; [done|].
  destruct (Py.truthy mail && _); [done|].
  destruct (get_password_hash pwd_hash salt password) as [hash|e] eqn:Hhash;
    [|done].
  injection Hreg as <- <-.
  set (u := {| id := next_id db; name := name; phone_number := phone |}).
  assert (Hfind : first pick (select (identified_by phone) (db ++ [u]))
                  = Some (length db, u)).
  { destruct (first pick (select (identified_by phone) (db ++ [u])))
      as [[row v]|] eqn:Hchosen.
    - apply first_select_Some in Hchosen as [Hrow Hv].
      destruct (decide (row < length db)%nat) as [Hlt|Hge].
      + rewrite lookup_app_l in Hrow by done.
        assert (Hin : v ∈ db) by (by eapply list_elem_of_lookup_2).
        destruct Hv as [Hph|Hem].
        * assert (found (first_where (λ v, phone_number v = phone) db) = true).
          { apply found_phone. by exists v. }
          congruence.
        * by destruct (Hmail v).
      + pose proof (lookup_lt_Some _ _ _ Hrow) as Hlen.
        rewrite length_app in Hlen. cbn [length] in Hlen.
        assert (row = length db) as -> by lia.
        rewrite lookup_app_r, Nat.sub_diag in Hrow by done.
        by injection Hrow as <-.
    - pose proof (proj1 (first_select_None pick _ _) Hchosen) as Hnone.
      destruct (Hnone u).
      + apply elem_of_app. right. by apply list_elem_of_singleton.
      + by left. }
  unfold Identity.authenticate_user. rewrite Hfind. cbn [password_hash u].
  unfold verify_password. rewrite (Hpw hash Hhash). cbn [negb is_active].
  done.
Qed.

End StoreFacts.

Section StoreScenarios.
Import Identity.

Lemma writes_keep_contacts_unique_witness :
  NoDup (Store.phones
           (register_user plain_hash seeded "s3" "Bob" "555-0199" "hunter2"
              (Some "bob@example.org") None).2).
Proof.
  refine (proj1 (proj1 (writes_keep_contacts_unique plain_hash plain_verify
    in_storage_order commits
    seeded "s3" "Bob" "555-0199" "hunter2" (Some "bob@example.org") None
    "Clerk" "Roads" "bob@example.org" 0 "555-0199" _ _))).
  - apply (bool_decide_unpack _). vm_compute. exact I.
  - apply (bool_decide_unpack _). vm_compute. exact I.
Defined.

Lemma register_then_authenticate_witness :
  ∃ u db1,
    register_user plain_hash seeded "s3" "Bob" "555-0199" "hunter2" None None
    = (Py.Ok (Registered u), db1)
    ∧ (authenticate_user plain_verify in_storage_order 9 db1 "555-0199"
         "hunter2").1
      = Py.Ok (Some (with_last_login 9 u)).
Proof.
  eexists _, _. split; [reflexivity|].
  erewrite (register_then_authenticate plain_hash plain_verify in_storage_order
              seeded "s3" "Bob" "555-0199" "hunter2" None None 9).
  - reflexivity.
  - intros hash [= <-]. reflexivity.
  - reflexivity.
  - intros v Hv.
    repeat (apply elem_of_cons in Hv as [->|Hv]; [discriminate|]).
    by apply elem_of_nil in Hv.
Defined.

End StoreScenarios.

Section SessionMore.
Import Identity.
Variable sign : string -> string -> gmap string Py.value -> string.
Variable registered_ok : Z -> gmap string Py.value -> bool.
Variable registered_error : Z -> gmap string Py.value -> option string.
Variable py_int : string -> option Z.
Variable SECRET_KEY ALGORITHM : string.
Variable ACCESS_TOKEN_EXPIRE_MINUTES : Z.
Variable pwd_verify : string -> string -> Py.result bool.
Variable role_value : UserType -> string.
Variable pick : list (nat * User) -> nat.
Variable key_ok : Z -> bool.
Variable str_exn : Py.exn -> string.

Local Abbreviation verify_token :=
  (verify_token sign registered_ok registered_error py_int SECRET_KEY ALGORITHM).
Local Abbreviation get_current_user :=
  (get_current_user sign registered_ok registered_error py_int SECRET_KEY
     ALGORITHM key_ok).
Local Abbreviation guarded :=
  (guarded sign registered_ok registered_error py_int SECRET_KEY ALGORITHM
     key_ok).
Local Abbreviation create_access_token :=
  (create_access_token sign SECRET_KEY ALGORITHM ACCESS_TOKEN_EXPIRE_MINUTES).
Local Abbreviation login :=
  (login sign SECRET_KEY ALGORITHM ACCESS_TOKEN_EXPIRE_MINUTES pwd_verify
     role_value pick str_exn).
Local Abbreviation authenticate_user := (authenticate_user pwd_verify pick).
Local Abbreviation current_role := (current_role role_value).
Local Abbreviation require_role := (require_role role_value).



(** X14 (login).  The login route returns the authenticated row together
    with a token of the configured algorithm whose claims are the row's
    id (as a decimal string), role and phone number plus the expiry
    after the default lifetime.  Otherwise it raises: the 401 answer
    when authentication returns [None]; what its handlers make of an
    exception raised during authentication, which is the 500 answer
    unless that exception is an [HTTPException]; or the 500 answer when
    the expiry instant of the token is out of range, and then the last
    login of the row has been stored already.  Only in that last case
    has the store changed. *)
Theorem login_outcomes t_auth t_token db identifier password :
  match login t_auth t_token db identifier password with
  | (Py.Ok (tok, u), db1) =>
      authenticate_user t_auth db identifier password = (Py.Ok (Some u), db1)
      ∧ let claims :=
          <[ "exp" := Py.VInt (Jose.timegm
               (t_token + Py.timedelta_minutes ACCESS_TOKEN_EXPIRE_MINUTES)) ]>
            ({[ "sub" := Py.VStr (pretty (id u));
                "user_type" := Py.VStr (role_value (default USER (current_role u)));
                "phone" := Py.VStr (phone_number u) ]} : gmap string Py.value) in
        tok = Jose.Compact ALGORITHM claims (sign SECRET_KEY ALGORITHM claims)
  | (Py.Raise e, db1) =>
      (e = Py.HTTPException 401 "Invalid credentials"
       ∧ db1 = db
       ∧ authenticate_user t_auth db identifier password = (Py.Ok None, db))
      ∨ (∃ e0,
           authenticate_user t_auth db identifier password = (Py.Raise e0, db)
           ∧ db1 = db
           ∧ e = login_failure str_exn e0
           ∧ (Py.is_HTTPException e0 = false →
              e = Py.HTTPException 500 ("Login failed: " +:+ str_exn e0)))
      ∨ (∃ u,
           authenticate_user t_auth db identifier password
           = (Py.Ok (Some u), db1)
           ∧ create_access_token t_token (token_data role_value u) None
             = Py.Raise Py.OverflowError
           ∧ e = Py.HTTPException 500
                   ("Login failed: " +:+ str_exn Py.OverflowError))
  end.
Proof.
  unfold Identity.login.
  pose proof (authenticate_user_store pwd_verify pick t_auth db identifier
                password) as Hstore.
  cbn zeta in Hstore.
  destruct (authenticate_user t_auth db identifier password)
    as [[[u|]|e0] db1]; cbn [fst snd] in Hstore.
  - pose proof (create_access_token_eq sign SECRET_KEY ALGORITHM
                  ACCESS_TOKEN_EXPIRE_MINUTES t_token _ None
                  (token_data_json_ready role_value u)) as Hmint.
    cbn zeta in Hmint. rewrite Hmint.
    destruct (_ || _).
    + right. right. exists u. done.
    + split; reflexivity.
  - left. split; [done|].
    destruct Hstore as [[_ ->]|(? & ? & _ & _ & _ & [=] & _)]. done.
  - right. left. exists e0.
    destruct Hstore as [[_ ->]|(? & ? & _ & _ & _ & [=] & _)].
    split; [done|]. split; [done|]. split; [done|].
    unfold login_failure. by intros ->.
Qed.

(** X15 (login, then the current user).  When the rows' ids are pairwise
    distinct, the token a login returns identifies the logged-in row:
    presented while the whole second of the clock has not passed its
    expiry, [get_current_user] returns that row (given that [int] reads
    the decimal string of the id back and the library's other
    registered-claim checks pass). *)
Theorem login_then_current_user t_auth t_token t_verify db identifier password
    tok u db1 :
  login t_auth t_token db identifier password = (Py.Ok (tok, u), db1) →
  NoDup (Store.ids db) →
  py_int (pretty (id u)) = Some (id u) →
  Jose.timegm t_verify
  ≤ Jose.timegm (t_token + Py.timedelta_minutes ACCESS_TOKEN_EXPIRE_MINUTES) →
  registered_ok (Jose.timegm t_verify)
    (<[ "exp" := Py.VInt (Jose.timegm
          (t_token + Py.timedelta_minutes ACCESS_TOKEN_EXPIRE_MINUTES)) ]>
       (token_data role_value u)) = true →
  get_current_user t_verify (Some tok) db1 = Py.Ok u.
Proof.
  intros Hlogin Hnd Hint Hle Hreg.
  pose proof (login_token sign SECRET_KEY ALGORITHM ACCESS_TOKEN_EXPIRE_MINUTES
                pwd_verify role_value pick str_exn _ _ _ _ _ _ _ _ Hlogin)
    as Htok.
  cbn zeta in Htok.
  destruct (login_stores_subject sign SECRET_KEY ALGORITHM
              ACCESS_TOKEN_EXPIRE_MINUTES pwd_verify role_value pick key_ok
              str_exn _ _ _ _ _ _ _ _ Hlogin Hnd) as [Hact Hget].
  pose proof (minted_current_user sign registered_ok registered_error py_int
                SECRET_KEY ALGORITHM role_value key_ok t_verify u _ db1 Hint
                Hle Hreg) as [_ Hcur].
  rewrite <- Htok in Hcur. by rewrite Hcur, Hget, Hact.
Qed.

End SessionMore.

Section SessionMoreScenarios.
Import Identity.

Lemma login_then_current_user_witness :
  ∃ tok db1,
    get_current_user Jose.plain_sign Jose.subject_is_string
      Jose.subject_message Py.decimal "secret" "HS256" sqlite_key 7000000
      (Some tok) db1
    = Py.Ok (with_last_login 5000000 citizen).
Proof.
  eexists _, _.
  apply (login_then_current_user Jose.plain_sign Jose.subject_is_string
           Jose.subject_message Py.decimal "secret" "HS256" 30 plain_verify
           lower_case_value in_storage_order sqlite_key class_name
           5000000 6000000 7000000 seeded "555-0100" "correct").
  - vm_compute. reflexivity.
  - apply (bool_decide_unpack _). vm_compute. exact I.
  - vm_compute. reflexivity.
  - vm_compute. discriminate.
  - vm_compute. reflexivity.
Defined.

(** Requests on which the login route answers 500, and tokens on which
    [get_current_user] raises something other than a 401 answer. *)
Lemma session_escapes :
  login Jose.plain_sign "secret" "HS256" 30 plain_verify lower_case_value
    in_storage_order class_name 5000000 6000000 seeded "555-0100" NUL
  = (Py.Raise (Py.HTTPException 500 "Login failed: secret contains NULL byte"),
     seeded)
  ∧ get_current_user Jose.plain_sign Jose.subject_is_string
      Jose.subject_message Py.decimal "secret" "HS256" sqlite_key 7000000
      (Some Jose.Unencodable) seeded
    = Py.Raise Py.UnicodeEncodeError
  ∧ (let claims : gmap string Py.value :=
       {[ "sub" := Py.VStr "9223372036854775808" ]} in
     get_current_user Jose.plain_sign Jose.subject_is_string
       Jose.subject_message Py.decimal "secret" "HS256" sqlite_key 7000000
       (Some (Jose.Compact "HS256" claims
                (Jose.plain_sign "secret" "HS256" claims))) seeded
     = Py.Raise Py.OverflowError).
Proof. split; [|split]; vm_compute; reflexivity. Qed.

End SessionMoreScenarios.

(** ** The text routes *)

Section RouteFacts.
Import Granite Routes.
Context {W : Type} (R : remote W) (order : list string).
Variable str_raised : raised -> string.
Variable decode_utf8 : string -> option string.

Local Abbreviation get_eco_tips := (EcoTips.get_eco_tips R order str_raised).
Local Abbreviation summarize_policy := (Policy.summarize_policy R order str_raised).
Local Abbreviation summarize_policy_file :=
  (Policy.summarize_policy_file R order str_raised decode_utf8).

Lemma str_truthy_false s : Py.str_truthy s = false ↔ s = "".
Proof.
  unfold Py.str_truthy. rewrite negb_false_iff. apply String.eqb_eq.
Qed.

Lemma str_truthy_true s : Py.str_truthy s = true ↔ s ≠ "".
Proof.
  unfold Py.str_truthy. rewrite negb_true_iff. apply String.eqb_neq.
Qed.

Lemma or_fallback_Returned (gen : outcome (option string) * sys W) fallback text s' :
  Py.str_truthy fallback = true →
  or_fallback gen fallback = (Returned text, s') →
  text ≠ "".
Proof.
  intros Hfb%str_truthy_true. destruct gen as [[[t|]|] s0]; cbn; [| |done].
  - destruct (Py.str_truthy t) eqn:E; intros [= <- _]; [|done].
    by apply str_truthy_true.
  - by intros [= <- _].
Qed.

Lemma or_fallback_returns (gen : outcome (option string) * sys W) fallback :
  Py.str_truthy fallback = true →
  (∃ r, gen.1 = Returned r) →
  ∃ text, or_fallback gen fallback = (Returned text, gen.2) ∧ text ≠ "".
Proof.
  intros Hfb [r Hr]. destruct gen as [g s']. cbn in Hr. subst g.
  eexists. split; [reflexivity|].
  apply str_truthy_true in Hfb. destruct r as [t|]; cbn; [|done].
  destruct (Py.str_truthy t) eqn:E; [by apply str_truthy_true|done].
Qed.

Lemma request_returns depth prompt max_tokens (s : sys W) :
  ∃ r, (_make_request R order depth prompt max_tokens s).1 = Returned r.
Proof.
  destruct (make_request_returns R order depth prompt max_tokens s)
    as (r & s' & Hr). exists r. by rewrite Hr.
Qed.

Lemma eco_tip_fallback_truthy topic : Py.str_truthy (eco_tip_fallback topic) = true.
Proof. reflexivity. Qed.

(** X16 (eco tips route).  The eco-tips route answers for every topic
    that is not blank, echoing the topic as given together with the
    non-empty text of the eco-tip wrapper.  It fails only for a blank
    topic (one made of whitespace characters only), and then with a 500
    answer, never a 400: the 400 raised for the blank topic is caught by
    the route's own handler and reported as a 500 whose detail embeds
    it, without any call to the gateway. *)
Theorem get_eco_tips_outcomes depth topic (s : sys W) :
  match get_eco_tips depth topic s with
  | (Answer r, s') =>
      Py.strip topic ≠ ""
      ∧ generate_eco_tip R order depth topic s = (Returned (EcoTips.tips r), s')
      ∧ EcoTips.topic r = topic
      ∧ EcoTips.status r = "success"
      ∧ EcoTips.tips r ≠ ""
  | (Raised e, s') =>
      Py.strip topic = "" ∧ s' = s
      ∧ e = http 500 ("Error generating eco tips: "
                      +:+ str_raised (http 400 "Topic cannot be empty"))
  end.
Proof.
  unfold EcoTips.get_eco_tips, EcoTips.get_eco_tips_body.
  destruct (Py.str_truthy (Py.strip topic)) eqn:Ht; cbn [negb].
  - apply str_truthy_true in Ht.
    destruct (or_fallback_returns
                (_make_request R order depth (eco_tip_prompt topic) 200 s)
                (eco_tip_fallback topic) (eco_tip_fallback_truthy topic)
                (request_returns _ _ _ _)) as (tips & Hg & Hne).
    unfold generate_eco_tip. rewrite Hg. cbn. done.
  - apply str_truthy_false in Ht. done.
Qed.

Lemma summary_fallback_truthy : Py.str_truthy summary_fallback = true.
Proof. reflexivity. Qed.

(** X17 (policy summary route).  The summary route answers for every
    text that is not blank: the summary is the non-empty text of the
    summary wrapper run on the text under the prefix of its summary
    type, the reported length is the number of characters of the text
    as given, and the summary type is echoed.  It fails only for a blank
    text, with a 500 answer that embeds the 400 raised for it, and then
    leaves the gateway untouched. *)
Theorem summarize_policy_outcomes depth text summary_type (s : sys W) :
  let enhanced_text :=
    Policy.prompt_prefix summary_type +:+ Py.nl +:+ Py.nl +:+ text in
  match summarize_policy depth text summary_type s with
  | (Answer r, s') =>
      Py.strip text ≠ ""
      ∧ generate_summary R order depth enhanced_text s
        = (Returned (Policy.summary r), s')
      ∧ Policy.original_length r = Py.len text
      ∧ Policy.summary_type r = summary_type
      ∧ Policy.status r = "success"
      ∧ Policy.summary r ≠ ""
  | (Raised e, s') =>
      Py.strip text = "" ∧ s' = s
      ∧ e = http 500 ("Error summarizing policy: "
                      +:+ str_raised (http 400 "Policy text cannot be empty"))
  end.
Proof.
  unfold Policy.summarize_policy, Policy.summarize_policy_body. cbv zeta.
  destruct (Py.str_truthy (Py.strip text)) eqn:Ht; cbn [negb].
  - apply str_truthy_true in Ht.
    destruct (or_fallback_returns
                (_make_request R order depth
                   (summary_prompt
                      (Policy.prompt_prefix summary_type +:+ Py.nl +:+ Py.nl
                       +:+ text)) 300 s)
                summary_fallback summary_fallback_truthy
                (request_returns _ _ _ _)) as (summary & Hg & Hne).
    unfold generate_summary. rewrite Hg. cbn. done.
  - apply str_truthy_false in Ht. done.
Qed.

Lemma summarize_policy_Raised depth text summary_type (s : sys W) e s' :
  summarize_policy depth text summary_type s = (Raised e, s') →
  ∃ detail, e = http 500 detail.
Proof.
  unfold Policy.summarize_policy.
  destruct (Policy.summarize_policy_body _ _ _ _ _ _) as [[r|e0] s0];
    intros [= <- _]; by eexists.
Qed.

(** X18 (policy upload route).  The upload route answers only for a named
    file whose name ends in [.txt] and whose contents decode, and then
    with the answer of the summary route on the decoded text.  Every
    failure is a 500 answer; unless the upload is such a file the
    gateway is left untouched, so [.pdf] and [.docx] uploads are always
    refused; and a failure of the summary route is wrapped a second
    time. *)
Theorem summarize_policy_file_outcomes depth filename contents summary_type
    (s : sys W) :
  match summarize_policy_file depth filename contents summary_type s with
  | (Answer r, s') =>
      ∃ name text,
        filename = Some name
        ∧ endswith name ".txt" = true
        ∧ decode_utf8 contents = Some text
        ∧ summarize_policy depth text summary_type s = (Answer r, s')
  | (Raised e, s') =>
      (∃ detail, e = http 500 ("Error processing policy file: " +:+ detail))
      ∧ ((∀ name text, filename = Some name → endswith name ".txt" = true →
            decode_utf8 contents = Some text → False) →
         s' = s)
      ∧ (∀ name text, filename = Some name → endswith name ".txt" = true →
           decode_utf8 contents = Some text →
           ∃ inner, summarize_policy depth text summary_type s
                    = (Raised (http 500 inner), s')
                    ∧ e = http 500 ("Error processing policy file: "
                                    +:+ str_raised (http 500 inner)))
  end.
Proof.
  unfold Policy.summarize_policy_file, Policy.summarize_policy_file_body.
  destruct filename as [name|]; cbn [Py.truthy Py.str_of negb];
    [|split; [by eexists|split; [done|intros ?? [=]]]].
  destruct (Py.str_truthy name) eqn:Hname; cbn [negb];
    [|split; [by eexists|split; [done|]]].
  2:{ intros n t [= <-] He. apply str_truthy_false in Hname. by subst. }
  destruct (endswith name ".txt") eqn:Htxt; cbn [orb negb].
  - destruct (decode_utf8 contents) as [text|] eqn:Hdec.
    + destruct (summarize_policy depth text summary_type s) as [[r|e] s'] eqn:Hs.
      * by exists name, text.
      * split; [by eexists|]. split.
        { intros Hno. by destruct (Hno name text). }
        intros n t [= <-] _ [= <-].
        destruct (summarize_policy_Raised _ _ _ _ _ _ Hs) as [inner ->].
        by exists inner.
    + split; [by eexists|]. split; [done|]. intros n t _ _ [=].
  - destruct (endswith name ".pdf" || endswith name ".docx"); cbn [negb];
      (split; [by eexists|split; [done|]]); intros n t [= <-]; congruence.
Qed.

End RouteFacts.

(** ** The announcement routes *)

Section AnnouncementFacts.
Import Routes Announcements.

Lemma filter_all {A} (P : A → Prop) `{!∀ x, Decision (P x)} (l : list A) :
  Forall P l → filter P l = l.
Proof.
  induction 1 as [|x l Hx _ IH]; [done|].
  by rewrite filter_cons_True, IH.
Qed.

Lemma delete_filter {A} (P : A → Prop) `{!∀ x, Decision (P x)} (l : list A) i x :
  l !! i = Some x →
  ¬ P x →
  (∀ j y, l !! j = Some y → j ≠ i → P y) →
  delete i l = filter P l.
Proof.
  intros Hi Hx Hrest.
  rewrite delete_take_drop.
  rewrite <-(take_drop_middle l i x Hi) at 3.
  rewrite filter_app, filter_cons_False by done.
  rewrite !filter_all; [done| |].
  - apply Forall_forall. intros y Hy.
    apply list_elem_of_lookup in Hy as [j Hj].
    rewrite lookup_drop in Hj. apply (Hrest _ _ Hj). lia.
  - apply Forall_forall. intros y Hy.
    apply list_elem_of_lookup in Hy as [j Hj].
    apply lookup_take_Some in Hj as [Hj Hlt].
    apply (Hrest _ _ Hj). lia.
Qed.


Lemma delete_announcement_Answer announcement_id table authority code table' :
  delete_announcement announcement_id table authority = (Answer code, table') →
  ∃ row entry,
    table !! row = Some entry ∧ id entry = announcement_id
    ∧ table' = delete row table.
Proof.
  unfold delete_announcement.
  destruct (list_find _ table) as [[row entry]|] eqn:Hfind; [|done].
  apply list_find_Some in Hfind as (Hrow & Hid & _). cbv zeta.
  intros Heq. exists row, entry. split; [done|]. split; [done|].
  destruct (author_id entry);
    repeat match type of Heq with
           | context [if ?b then _ else _] => destruct b
           end; by inversion Heq.
Qed.

Lemma delete_announcement_missing announcement_id table authority :
  (∀ entry, entry ∈ table → id entry ≠ announcement_id) →
  delete_announcement announcement_id table authority
  = (Raised (http 404 "Announcement not found"), table).
Proof.
  intros Hnone. unfold delete_announcement.
  destruct (list_find _ table) as [[row entry]|] eqn:Hfind; [|done].
  apply list_find_Some in Hfind as (Hrow & Hid & _).
  destruct (Hnone entry); [by eapply list_elem_of_lookup_2|done].
Qed.

(** X20 (a deletion removes the announcement and nothing else).  When the
    ids of the stored announcements are pairwise distinct, a successful
    deletion leaves exactly the announcements with another id, in their
    order, and deleting the same id again answers 404 for every
    authority. *)
Theorem delete_announcement_removes_target announcement_id table authority
    code table' :
  NoDup (id <$> table) →
  delete_announcement announcement_id table authority = (Answer code, table') →
  table' = filter (λ a, id a ≠ announcement_id) table
  ∧ (∀ a, a ∈ table' ↔ a ∈ table ∧ id a ≠ announcement_id)
  ∧ ∀ other,
      delete_announcement announcement_id table' other
      = (Raised (http 404 "Announcement not found"), table').
Proof.
  intros Hnodup Hdel.
  apply delete_announcement_Answer in Hdel as (row & entry & Hrow & Hid & ->).
  assert (delete row table = filter (λ a, id a ≠ announcement_id) table) as ->.
  { apply (delete_filter _ _ _ _ Hrow); [by intros []|].
    intros j y Hj Hne Heq. apply Hne.
    eapply NoDup_lookup; [exact Hnodup| |];
      rewrite list_lookup_fmap; [rewrite Hj|rewrite Hrow]; cbn;
      [reflexivity|congruence]. }
  split; [done|]. split.
  - intros a. by rewrite list_elem_of_filter, (comm and).
  - intros other. apply delete_announcement_missing.
    intros e He%list_elem_of_filter. tauto.
Qed.

End AnnouncementFacts.

Section AnnouncementScenarios.
Import Routes Announcements.

Lemma delete_announcement_removes_target_witness :
  let table :=
    [ {| id := 1; title := "a"; content := "x"; audience := None;
         author_id := Some 2; created_at := 10 |};
      {| id := 2; title := "b"; content := "y"; audience := None;
         author_id := None; created_at := 11 |} ] in
  delete 0%nat table = filter (λ a, id a ≠ 1) table.
Proof.
  intros table.
  refine (proj1 (delete_announcement_removes_target 1 table
            Identity.officer 204 (delete 0%nat table) _ _)).
  - apply (bool_decide_unpack _). vm_compute. exact I.
  - vm_compute. reflexivity.
Defined.

(** The route of the mayor's office is recognised whatever blank
    characters surround it, a no-break space (U+00A0) among them, and
    whatever the case of its letters. *)
Lemma mayor_route_is_stripped :
  let clerk route :=
    {| Identity.id := 9; Identity.name := "Mayor"; Identity.phone_number := "555-0109";
       Identity.email := None; Identity.password_hash := Identity.HashNone;
       Identity.address := None; Identity.position := None;
       Identity.feedback_route := Some route;
       Identity.user_type := Identity.RoleEnum Identity.AUTHORITY;
       Identity.is_active := true; Identity.is_approved := true;
       Identity.last_login := None |} in
  is_mayor_route (clerk ("Mayor's Office" +:+ Py.encoded [194; 160]%nat)) = true
  ∧ is_mayor_route (clerk (" MAYOR'S OFFICE" +:+ Py.encoded [226; 128; 137]%nat))
    = true
  ∧ is_mayor_route (clerk "Mayor's  Office") = false.
Proof. split; [|split]; vm_compute; reflexivity. Qed.

End AnnouncementScenarios.

(** ** The chat routes *)

#[global] Instance not_older_trans : Transitive Chat.not_older.
Proof. unfold Chat.not_older. intros a b c. lia. Qed.

#[global] Instance not_older_total : Total Chat.not_older.
Proof. unfold Chat.not_older. intros a b. lia. Qed.

Section ChatFacts.
Import Granite Routes Chat.
Context {W : Type} (R : remote W) (order : list string).
Variable str_raised : raised -> string.
Variable newest_first : list ChatMessage -> list ChatMessage.

Local Abbreviation ask_question := (Chat.ask_question R order str_raised newest_first).
Local Abbreviation _get_recent_history := (Chat._get_recent_history newest_first).
Local Abbreviation get_history := (Chat.get_history newest_first).

Lemma ask_granite_returns depth text (s : sys W) :
  ∃ reply,
    ask_granite R order depth text s
    = (Returned reply, (_make_request R order depth (ask_prompt text) 500 s).2)
    ∧ reply ≠ "".
Proof.
  unfold ask_granite.
  destruct (make_request_returns R order depth (ask_prompt text) 500 s)
    as (r & s' & Hr). rewrite Hr. cbn [or_fallback snd].
  eexists. split; [reflexivity|].
  destruct r as [t|]; cbn; [|done].
  destruct (Py.str_truthy t) eqn:E; [|done].
  unfold Py.str_truthy in E. by apply negb_true_iff, String.eqb_neq in E.
Qed.


Lemma filter_none {A} (P : A → Prop) `{!∀ x, Decision (P x)} (l : list A) :
  Forall (λ x, ¬ P x) l → filter P l = [].
Proof.
  induction 1 as [|x l Hx _ IH]; [done|].
  by rewrite filter_cons_False.
Qed.

(** X22 (clearing a history).  Deleting a user's history removes exactly
    the rows of that user: the user's history is then empty, with count
    0, and every other user's rows and history are what they were (the
    store's ordering is taken to permute the rows it is given). *)
Theorem delete_history_scope u table :
  (∀ l, newest_first l ≡ₚ l) →
  let table' := delete_history u table in
  get_history u table' = ([], 0%nat)
  ∧ (∀ m, m ∈ table' ↔ m ∈ table ∧ user_id m ≠ Identity.id u)
  ∧ (∀ v, Identity.id v ≠ Identity.id u →
       filter (λ m, user_id m = Identity.id v) table'
       = filter (λ m, user_id m = Identity.id v) table
       ∧ get_history v table' = get_history v table).
Proof.
  intros Hperm table'. subst table'. unfold delete_history.
  split; [|split].
  - unfold Chat.get_history, Chat._get_recent_history. cbv zeta.
    rewrite filter_none.
    + assert (newest_first [] = []) as ->
        by (apply Permutation_nil_r; apply Hperm).
      by rewrite take_nil.
    + apply Forall_forall. intros m Hm%list_elem_of_filter. tauto.
  - intros m. by rewrite list_elem_of_filter, (comm and).
  - intros v Hv.
    assert (filter (λ m, user_id m = Identity.id v)
              (filter (λ m, user_id m ≠ Identity.id u) table)
            = filter (λ m, user_id m = Identity.id v) table) as Heq.
    { apply list_filter_filter_l. intros m. congruence. }
    split; [done|].
    unfold Chat.get_history, Chat._get_recent_history. cbv zeta.
    by rewrite Heq.
Qed.

(** X23 (the history window).  When the store orders the selected rows
    newest first, a history holds as many records as the limit allows
    (all of the user's rows when there are fewer), in chronological
    order, and the rows it leaves out are no newer than any row it
    keeps. *)
Theorem recent_history_window table user limit :
  (∀ l, newest_first l ≡ₚ l) →
  (∀ l, Sorted not_older (newest_first l)) →
  let rows := filter (λ m, user_id m = user) table in
  let h := _get_recent_history table user limit in
  length h = (limit `min` length rows)%nat
  ∧ Sorted (λ a b, timestamp a ≤ timestamp b) h
  ∧ ∃ kept dropped,
      h = reverse (_chat_to_dict <$> kept)
      ∧ kept ++ dropped ≡ₚ rows
      ∧ ∀ k d, k ∈ kept → d ∈ dropped → created_at d ≤ created_at k.
Proof.
  intros Hperm Hsorted rows h. subst h. unfold Chat._get_recent_history.
  cbv zeta. fold rows.
  pose proof (Sorted_StronglySorted _ _ (Hsorted rows)) as Hss.
  rewrite <-(take_drop limit (newest_first rows)) in Hss.
  split; [|split].
  - rewrite length_reverse, length_fmap, length_take.
    by rewrite (Permutation_length (Hperm rows)).
  - apply (Sorted_reverse (λ a b, timestamp b ≤ timestamp a)).
    apply (Sorted_fmap _ not_older); [done|].
    apply StronglySorted_Sorted. by eapply StronglySorted_app_1_l.
  - exists (take limit (newest_first rows)), (drop limit (newest_first rows)).
    split; [done|]. split; [by rewrite take_drop|].
    intros k d Hk Hd.
    by apply (StronglySorted_app_1_elem_of _ _ _ _ _ Hss Hk Hd).
Qed.

Lemma newest_head rows a :
  newest_first rows ≡ₚ rows →
  Sorted not_older (newest_first rows) →
  a ∈ rows →
  (∀ m, m ∈ rows → m = a ∨ created_at m < created_at a) →
  head (newest_first rows) = Some a.
Proof.
  intros Hperm Hsorted Ha Hnew.
  apply Sorted_StronglySorted in Hsorted; [|apply _].
  rewrite <-Hperm in Ha.
  destruct (newest_first rows) as [|x rest] eqn:Hnf;
    [by apply elem_of_nil in Ha|].
  cbn. f_equal.
  assert (x ∈ rows) as Hx by (rewrite <-Hperm; left).
  apply StronglySorted_cons in Hsorted as [Hall _].
  apply elem_of_cons in Ha as [->|Ha]; [done|].
  destruct (Hnew x Hx) as [->|Hlt]; [done|].
  apply (proj1 (Forall_forall _ _) Hall) in Ha. unfold not_older in Ha. lia.
Qed.

Lemma recent_history_last table user limit :
  (0 < limit)%nat →
  last (_get_recent_history table user limit)
  = _chat_to_dict <$> head (newest_first (filter (λ m, user_id m = user) table)).
Proof.
  intros Hlim. unfold Chat._get_recent_history. cbv zeta.
  destruct (newest_first _) as [|x rest]; [by rewrite take_nil|].
  destruct limit as [|n]; [lia|].
  cbn [take]. rewrite fmap_cons, reverse_cons. apply last_snoc.
Qed.

Lemma ask_question_Answer depth t_user t_reply raw u table (s : sys W)
    r table' s' :
  ask_question depth t_user t_reply raw u table s = (Answer r, table', s') →
  table' = table
           ++ [{| user_id := Identity.id u; sender := "user";
                  message := Py.strip raw; created_at := t_user |};
               {| user_id := Identity.id u; sender := "assistant";
                  message := response r; created_at := t_reply |}]
  ∧ history r = _get_recent_history table' (Identity.id u) 50.
Proof.
  unfold Chat.ask_question. cbv zeta.
  destruct (negb (Py.str_truthy (Py.strip raw))); [done|].
  destruct (ask_granite R order depth (Py.strip raw) s) as [[reply|] s0];
    [|done].
  intros [= <- <- _]. cbn [response history]. by rewrite <-(assoc_L (++)).
Qed.

(** X24 (the reply closes the history).  When the assistant's reply is
    stored at an instant later than every earlier row of the user, the
    history returned with the answer ends with the reply, and so does
    the history read afterwards. *)
Theorem ask_question_reply_is_latest depth t_user t_reply raw u table (s : sys W)
    r table' s' :
  (∀ l, newest_first l ≡ₚ l) →
  (∀ l, Sorted not_older (newest_first l)) →
  t_user < t_reply →
  (∀ m, m ∈ table → user_id m = Identity.id u → created_at m < t_reply) →
  ask_question depth t_user t_reply raw u table s = (Answer r, table', s') →
  let reply := {| record_sender := "assistant"; record_message := response r;
                  timestamp := t_reply |} in
  last (history r) = Some reply
  ∧ last (get_history u table').1 = Some reply.
Proof.
  intros Hperm Hsorted Hclock Hold Hask reply.
  apply ask_question_Answer in Hask as [Htable Hhist].
  set (row := {| user_id := Identity.id u; sender := "assistant";
                 message := response r; created_at := t_reply |}) in *.
  assert (head (newest_first (filter (λ m, user_id m = Identity.id u) table'))
          = Some row) as Hhead.
  { apply newest_head; [apply Hperm|apply Hsorted| |].
    - apply list_elem_of_filter. split; [done|].
      rewrite Htable. apply elem_of_app. right. right. left.
    - intros m [Hm Hin]%list_elem_of_filter. rewrite Htable in Hin.
      apply elem_of_app in Hin as [Hin|Hin].
      + right. by apply Hold.
      + apply elem_of_cons in Hin as [->|Hin]; [by right|].
        apply list_elem_of_singleton in Hin. by left. }
  split.
  - rewrite Hhist, recent_history_last by lia. by rewrite Hhead.
  - unfold Chat.get_history. cbv zeta. cbn [fst].
    rewrite recent_history_last by lia. by rewrite Hhead.
Qed.

End ChatFacts.

Section ChatScenarios.
Import Granite Routes Chat.

Lemma by_recency_perm l : by_recency l ≡ₚ l.
Proof. apply merge_sort_Permutation. Qed.

Lemma by_recency_sorted l : Sorted not_older (by_recency l).
Proof. apply (Sorted_merge_sort not_older). Qed.

Lemma delete_history_scope_witness :
  get_history by_recency Identity.citizen
    (delete_history Identity.citizen
       [{| user_id := 1; sender := "user"; message := "hi"; created_at := 3 |};
        {| user_id := 2; sender := "user"; message := "yo"; created_at := 4 |}])
  = ([], 0%nat).
Proof.
  refine (proj1 (delete_history_scope by_recency Identity.citizen _ _)).
  apply by_recency_perm.
Defined.

Lemma recent_history_window_witness :
  length (_get_recent_history by_recency
            [{| user_id := 1; sender := "user"; message := "hi"; created_at := 3 |};
             {| user_id := 2; sender := "user"; message := "yo"; created_at := 4 |};
             {| user_id := 1; sender := "assistant"; message := "ok"; created_at := 5 |}]
            1 1)
  = 1%nat.
Proof.
  refine (proj1 (recent_history_window by_recency _ 1 1%nat _ _)).
  - apply by_recency_perm.
  - apply by_recency_sorted.
Defined.

Lemma ask_question_reply_is_latest_witness :
  ∃ r table' s',
    ask_question (steady CatalogError) FALLBACK_MODEL_ORDER
      (λ _, "maximum recursion depth exceeded") by_recency
      1 8 9 " hello " Identity.citizen
      [{| user_id := 1; sender := "user"; message := "hi"; created_at := 3 |}]
      idle
    = (Answer r, table', s')
    ∧ last (history r)
      = Some {| record_sender := "assistant"; record_message := ask_fallback;
                timestamp := 9 |}.
Proof.
  eexists _, _, _. split; [reflexivity|].
  refine (proj1 (ask_question_reply_is_latest (steady CatalogError)
            FALLBACK_MODEL_ORDER (λ _, "maximum recursion depth exceeded")
            by_recency 1 8 9 " hello " Identity.citizen
            [{| user_id := 1; sender := "user"; message := "hi"; created_at := 3 |}]
            idle _ _ _ by_recency_perm by_recency_sorted _ _ eq_refl)).
  - lia.
  - intros m Hm _. apply list_elem_of_singleton in Hm as ->. cbn. lia.
Defined.

End ChatScenarios.

(** ** The feedback routes *)

Section FeedbackFacts.
Import Routes Feedbacks.
Variable FeedbackStatus : Type.
Context `{!EqDecision FeedbackStatus}.
Variable member_truthy : FeedbackStatus -> bool.
Variable newest_first :
  list (Feedback FeedbackStatus) -> list (Feedback FeedbackStatus).

Local Abbreviation list_feedback_for_authority :=
  (Feedbacks.list_feedback_for_authority FeedbackStatus member_truthy newest_first).
Local Abbreviation update_feedback_status :=
  (Feedbacks.update_feedback_status FeedbackStatus).
Local Abbreviation status_matches :=
  (Feedbacks.status_matches FeedbackStatus member_truthy).

Lemma listed_iff status_filter table authority entry :
  (∀ l, newest_first l ≡ₚ l) →
  entry ∈ list_feedback_for_authority status_filter table authority
  ↔ entry ∈ table
    ∧ status_matches status_filter entry
    ∧ let route := Identity.feedback_route authority in
      (Py.truthy route
       && String.eqb (lower (Py.strip (Py.str_of route))) "mayor's office" = true
       ∨ authority_id entry = Some (Identity.id authority)
       ∨ authority_id entry = None
       ∨ (Py.truthy route = true ∧ authority_type entry = route)).
Proof.
  intros Hperm. unfold Feedbacks.list_feedback_for_authority. cbv zeta.
  destruct (Py.truthy (Identity.feedback_route authority)) eqn:Hroute;
    cbn [andb].
  - destruct (String.eqb _ "mayor's office") eqn:Hmayor.
    + rewrite Hperm, list_elem_of_filter. tauto.
    + rewrite Hperm, list_elem_of_filter.
      split; [tauto|]. intros (? & ? & [?|?]); [done|tauto].
  - rewrite Hperm, list_elem_of_filter.
    split; [tauto|]. intros (? & ? & [?|[?|[?|[? _]]]]); try done; tauto.
Qed.

(** X25 (which feedback an authority sees).  The management listing holds
    only stored entries that pass the status filter.  It holds every
    such entry that is unassigned or assigned to the authority; for an
    authority whose route, stripped and lower-cased, is the mayor's
    office it holds all of them; and for an authority without a route it
    holds nothing else than unassigned entries and its own (the store's
    ordering is taken to permute the rows it is given). *)
Theorem manage_visibility status_filter table authority :
  (∀ l, newest_first l ≡ₚ l) →
  let listed := list_feedback_for_authority status_filter table authority in
  (∀ entry, entry ∈ listed →
     entry ∈ table ∧ status_matches status_filter entry)
  ∧ (∀ entry, entry ∈ table → status_matches status_filter entry →
       authority_id entry = None
       ∨ authority_id entry = Some (Identity.id authority) →
       entry ∈ listed)
  ∧ (∀ mayor entry,
       Py.truthy (Identity.feedback_route mayor) = true →
       lower (Py.strip (Py.str_of (Identity.feedback_route mayor)))
       = "mayor's office" →
       entry ∈ list_feedback_for_authority status_filter table mayor
       ↔ entry ∈ table ∧ status_matches status_filter entry)
  ∧ (Py.truthy (Identity.feedback_route authority) = false →
     ∀ entry, entry ∈ listed →
       authority_id entry = None
       ∨ authority_id entry = Some (Identity.id authority)).
Proof.
  intros Hperm listed. subst listed. split; [|split; [|split]].
  - intros entry Hin.
    apply (listed_iff _ _ _ _ Hperm) in Hin as (? & ? & _). done.
  - intros entry Hin Hmatch Hown. apply (listed_iff _ _ _ _ Hperm).
    split; [done|]. split; [done|]. cbv zeta. tauto.
  - intros mayor entry Ht Hm. rewrite (listed_iff _ _ _ _ Hperm).
    split; [tauto|]. intros [Hin Hmatch].
    split; [done|]. split; [done|]. cbv zeta. left.
    rewrite Ht. cbn [andb]. by apply String.eqb_eq.
  - intros Hroute entry Hin.
    apply (listed_iff _ _ _ _ Hperm) in Hin as (_ & _ & Hcase). cbv zeta in Hcase.
    rewrite Hroute in Hcase. cbn [andb] in Hcase.
    destruct Hcase as [?|[?|[?|[? _]]]]; try done; tauto.
Qed.


End FeedbackFacts.

Section FeedbackScenarios.
Import Routes Feedbacks.

Lemma manage_visibility_witness :
  pothole
  ∈ list_feedback_for_authority three_states all_truthy reverse
      (Some REPORTED) [pothole] Identity.officer.
Proof.
  refine (proj1 (proj2 (manage_visibility three_states all_truthy reverse
            (Some REPORTED) [pothole] Identity.officer _)) pothole _ _ _).
  - intros l. apply reverse_Permutation.
  - apply list_elem_of_singleton. reflexivity.
  - reflexivity.
  - left. reflexivity.
Defined.


End FeedbackScenarios.

